(** * The chess-position client: generation panel and navigation bar

    A shallow embedding of [frontend/script.js] (the generation panel) and of
    [navbar.js] (the session-aware navigation bar), and the properties of the
    two scripts that their specification states.

    Both scripts are glue between the page, the user and the backend, so the
    embedding has three layers:

    - the JavaScript values the scripts handle (numbers read by [parseInt],
      JSON values of the responses, exceptions);
    - the page: a flat document of elements, the local storage, the pending
      navigation, and the trace of what the script asked of its environment
      (network requests, prompts, alerts, console errors);
    - the scripts themselves, written in a state-and-exception monad over the
      page, statement by statement as in the source.

    Strings are sequences of bytes, read as well-formed UTF-8 text. *)

From Stdlib Require Import Ascii String ZArith.
From stdpp Require Import gmap strings list pretty.

Set Warnings "-register-all".
Set Default Proof Using "Type".

Local Open Scope string_scope.
Local Open Scope Z_scope.
Local Open Scope list_scope.

(** ** Text helpers *)

Definition code (a : ascii) : nat := nat_of_ascii a.

Fixpoint join (sep : string) (l : list string) : string :=
  match l with
  | [] => ""
  | [s] => s
  | s :: l' => s +:+ sep +:+ join sep l'
  end.

(** ** Numbers

    A JavaScript number is a double.  The numbers the scripts compute with
    are those [parseInt] yields: [NaN], an infinity, or a double whose
    value is an integer, which [Int] gives by that value.  Not every
    integer is the value of a double: past 53 significant bits the digits
    read are rounded to the nearest double ([Double.of_Z]), so that
    [parseInt] and the number literals of JSON yield the same double for
    [9007199254740992] and [9007199254740993].  Negative zero is not told
    apart from zero: [>=], the conversion to text and the JSON text agree
    on the two. *)

Inductive number := NaN | Int (z : Z) | Infinity (negative : bool).

Module Double.

(** The value of the double nearest to the integer [m >= 0], ties going to
    the even significand: [m] itself when it has at most 53 bits.  The
    result is [2^1024] or more when no double is that large. *)
Definition nearest (m : Z) : Z :=
  let bits := Z.log2 m + 1 in
  if bool_decide (bits ≤ 53) then m
  else
    let shift := bits - 53 in
    let q := m / 2 ^ shift in
    let r := m mod 2 ^ shift in
    let half := 2 ^ (shift - 1) in
    let up := bool_decide (half < r) || bool_decide (r = half) && Z.odd q in
    (if up then q + 1 else q) * 2 ^ shift.

(** The Number value for an integer. *)
Definition of_Z (z : Z) : number :=
  let m := nearest (Z.abs z) in
  if bool_decide (2 ^ 1024 ≤ m) then Infinity (bool_decide (z < 0))
  else Int (Z.sgn z * m).

(** Whether the decimal [x] reads back as the double of value [m]. *)
Definition reads_as (m x : Z) : bool :=
  match of_Z x with
  | Int v => bool_decide (v = m)
  | _ => false
  end.

(** The decimal with the fewest significant digits that reads back as the
    double of value [m > 0], the nearest to [m] among those, as an
    integer; [p] is the power of ten of the last significant digit tried,
    starting from that of the first digit of [m]. *)
Fixpoint shortest (fuel : nat) (p m : Z) : Z :=
  match fuel with
  | O => m
  | S fuel' =>
      let lo := m / p * p in
      let hi := lo + p in
      if reads_as m lo && reads_as m hi then
        if bool_decide (m - lo < hi - m) then lo
        else if bool_decide (hi - m < m - lo) then hi
        else if Z.even (lo / p) then lo else hi
      else if reads_as m lo then lo
      else if reads_as m hi then hi
      else shortest fuel' (p / 10) m
  end.

Fixpoint strip_zeros (digits : list ascii) : list ascii :=
  match digits with
  | [] => []
  | a :: r =>
      match strip_zeros r with
      | [] => if bool_decide (a = "0"%char) then [] else [a]
      | r' => a :: r'
      end
  end.

(** [d.ddde+n] for the integer [v >= 10^21]. *)
Definition exponent_form (v : Z) : string :=
  let digits := list_ascii_of_string (pretty v) in
  let exponent := pretty (Z.of_nat (length digits) - 1) in
  match strip_zeros digits with
  | [] => ""
  | [d] => String d ("e+" +:+ exponent)
  | d :: r => String d ("." +:+ string_of_list_ascii r +:+ "e+" +:+ exponent)
  end.

(** Number::toString on the double of value [m >= 0]: the shortest digits
    that tell it from its neighbours, padded with zeros up to 21 digits
    and in exponent form beyond.  Below [2^53] those are the digits of
    [m]. *)
Definition magnitude_text (m : Z) : string :=
  if bool_decide (m < 2 ^ 53) then pretty m
  else
    let n := String.length (pretty m) in
    let v := shortest n (10 ^ (Z.of_nat n - 1)) m in
    if bool_decide (v < 10 ^ 21) then pretty v else exponent_form v.

Definition text (n : number) : string :=
  match n with
  | NaN => "NaN"
  | Infinity negative => if negative then "-Infinity" else "Infinity"
  | Int z =>
      if bool_decide (z < 0) then "-" +:+ magnitude_text (- z)
      else magnitude_text z
  end.

(** The text of a number, an integer being read as the double nearest to
    it, as a literal is. *)
Definition toString (n : number) : string :=
  match n with
  | Int z => text (of_Z z)
  | _ => text n
  end.

End Double.

(** [a >= b]: false as soon as one side is [NaN]; doubles compare as their
    values. *)
Definition js_ge (a b : number) : bool :=
  match a, b with
  | NaN, _ | _, NaN => false
  | Infinity false, _ | _, Infinity true => true
  | Infinity true, _ | _, Infinity false => false
  | Int x, Int y => bool_decide (y ≤ x)
  end.

Module ParseInt.

(** One-byte members of StrWhiteSpaceChar: TAB, LF, VT, FF, CR, SP. *)
Definition ws1 (a : ascii) : bool :=
  bool_decide (code a ∈ [9; 10; 11; 12; 13; 32]%nat).

(** U+00A0. *)
Definition ws2 (a b : ascii) : bool :=
  bool_decide (code a = 194%nat ∧ code b = 160%nat).

(** U+1680, U+2000..U+200A, U+2028, U+2029, U+202F, U+205F, U+3000, U+FEFF. *)
Definition ws3 (a b c : ascii) : bool :=
  bool_decide
    ((code a, code b, code c) ∈
       [(225, 154, 128); (226, 128, 168); (226, 128, 169); (226, 128, 175);
        (226, 129, 159); (227, 128, 128); (239, 187, 191)]%nat
     ∨ (code a = 226 ∧ code b = 128 ∧ 128 ≤ code c ≤ 138)%nat).

Fixpoint trimStart (s : string) : string :=
  match s with
  | String a r =>
      if ws1 a then trimStart r else
      match r with
      | String b r2 =>
          if ws2 a b then trimStart r2 else
          match r2 with
          | String c r3 => if ws3 a b c then trimStart r3 else s
          | EmptyString => s
          end
      | EmptyString => s
      end
  | EmptyString => s
  end.

(** The value of a character as a digit, letters counting from ten. *)
Definition digit (a : ascii) : option Z :=
  let n := Z.of_nat (code a) in
  if bool_decide (48 ≤ n ≤ 57) then Some (n - 48)
  else if bool_decide (97 ≤ n ≤ 122) then Some (n - 87)
  else if bool_decide (65 ≤ n ≤ 90) then Some (n - 55)
  else None.

(** The longest prefix of radix-[R] digits, as an integer; [None] when the
    prefix is empty. *)
Fixpoint digits (R : Z) (s : string) (acc : option Z) : option Z :=
  match s with
  | String a r =>
      match digit a with
      | Some d =>
          if bool_decide (d < R) then digits R r (Some (default 0 acc * R + d))
          else acc
      | None => acc
      end
  | EmptyString => acc
  end.

Definition sign_and_rest (s : string) : Z * string :=
  match s with
  | String "-" r => (-1, r)
  | String "+" r => (1, r)
  | _ => (1, s)
  end.

Definition radix_and_rest (s : string) : Z * string :=
  match s with
  | String "0" (String "x" r) | String "0" (String "X" r) => (16, r)
  | _ => (10, s)
  end.

(** [parseInt(s)] with no radix argument: the Number value for the
    integer the digits denote, which rounds it past 53 bits and is an
    infinity when no double is that large.  (The licence an implementation
    has to read the decimal digits past the twentieth as zeros is not
    taken.) *)
Definition parseInt (s : string) : number :=
  let '(sign, s1) := sign_and_rest (trimStart s) in
  let '(R, s2) := radix_and_rest s1 in
  match digits R s2 None with
  | Some n => Double.of_Z (sign * n)
  | None => NaN
  end.

End ParseInt.

Export ParseInt(parseInt).

(** ** Values

    The values the scripts meet: what [JSON.parse] builds from a response
    body, and the exceptions the environment raises.  A number with a
    fractional part is never computed with here, only displayed, and is kept
    as its decimal text ([JDec]).  [JError] is an instance of [Error]. *)

Inductive JsVal :=
  | JUndefined
  | JNull
  | JBool (b : bool)
  | JNum (n : number)
  | JDec (text : string)
  | JStr (s : string)
  | JArr (items : list JsVal)
  | JObj (props : gmap string JsVal)
  | JError (name message : string).

(** How an evaluation ends: with a value, or by throwing. *)
Inductive completion (A : Type) :=
  | Normal (a : A)
  | Throw (e : JsVal).
Arguments Normal {A} a.
Arguments Throw {A} e.

Definition TypeError (message : string) : JsVal := JError "TypeError" message.

(** ToBoolean, as applied by [if (v)]. *)
Definition truthy (v : JsVal) : bool :=
  match v with
  | JUndefined | JNull => false
  | JBool b => b
  | JNum NaN => false
  | JNum (Int z) => bool_decide (z ≠ 0)
  | JNum (Infinity _) => true
  | JDec _ => true
  | JStr s => bool_decide (s ≠ "")
  | JArr _ | JObj _ | JError _ _ => true
  end.

(** Whether an object built from JSON has an own property shadowing a method
    of its prototype; such a property is never callable. *)
Definition shadows (props : gmap string JsVal) (method : string) : bool :=
  bool_decide (is_Some (props !! method)).

(** ToString, as applied by template literals, by [+] next to a string and
    by the DOM's string attributes; [None] when it throws a TypeError (an
    object whose [toString] is shadowed by data cannot be converted). *)
Fixpoint ToString (v : JsVal) : option string :=
  match v with
  | JUndefined => Some "undefined"
  | JNull => Some "null"
  | JBool b => Some (if b then "true" else "false")
  | JNum n => Some (Double.toString n)
  | JDec text => Some text
  | JStr s => Some s
  | JArr items =>
      join "," <$>
        (fix each (l : list JsVal) : option (list string) :=
           match l with
           | [] => Some []
           | e :: l' =>
               s ← match e with
                   | JUndefined | JNull => Some ""
                   | _ => ToString e
                   end;
               (s ::.) <$> each l'
           end) items
  | JObj props => if shadows props "toString" then None else Some "[object Object]"
  | JError name message =>
      Some (if bool_decide (name = "") then message
            else if bool_decide (message = "") then name
            else name +:+ ": " +:+ message)
  end.

(** [v.toLocaleString()], given the locale's formatting of numbers; [None]
    when the call throws a TypeError. *)
Fixpoint toLocaleString (locale : JsVal → string) (v : JsVal) : option string :=
  match v with
  | JUndefined | JNull => None
  | JNum _ | JDec _ => Some (locale v)
  | JArr items =>
      join "," <$>
        (fix each (l : list JsVal) : option (list string) :=
           match l with
           | [] => Some []
           | e :: l' =>
               s ← match e with
                   | JUndefined | JNull => Some ""
                   | _ => toLocaleString locale e
                   end;
               (s ::.) <$> each l'
           end) items
  | JObj props => if shadows props "toLocaleString" then None else ToString v
  | JBool _ | JStr _ | JError _ _ => ToString v
  end.

(** [v.key] for the data properties the scripts read ([success], [data],
    [error], [user], [fen], [message], ...): none of these names is defined
    by a built-in prototype, so the read is an own-property lookup. *)
Definition get_prop (v : JsVal) (key : string) : completion JsVal :=
  match v with
  | JUndefined =>
      Throw (TypeError ("Cannot read properties of undefined (reading '" +:+ key +:+ "')"))
  | JNull =>
      Throw (TypeError ("Cannot read properties of null (reading '" +:+ key +:+ "')"))
  | JObj props => Normal (default JUndefined (props !! key))
  | JError name message =>
      Normal (if bool_decide (key = "message") then JStr message
              else if bool_decide (key = "name") then JStr name
              else JUndefined)
  | _ => Normal JUndefined
  end.

Module URI.

(** Characters [encodeURIComponent] leaves alone: letters, digits and
    [- _ . ! ~ * ' ( )]. *)
Definition unreserved (a : ascii) : bool :=
  let n := code a in
  bool_decide ((48 ≤ n ≤ 57) ∨ (65 ≤ n ≤ 90) ∨ (97 ≤ n ≤ 122))%nat
  || bool_decide (a ∈ ["-"; "_"; "."; "!"; "~"; "*"; "'"; "("; ")"]%char).

Definition hex_digit (n : nat) : ascii :=
  ascii_of_nat (if bool_decide (n < 10)%nat then 48 + n else 55 + n).

Definition escape (a : ascii) : string :=
  String "%" (String (hex_digit (code a / 16)) (String (hex_digit (code a mod 16)) "")).

(** Every byte of the UTF-8 text other than an unreserved character is
    replaced by its escape. *)
Fixpoint encodeURIComponent (s : string) : string :=
  match s with
  | EmptyString => ""
  | String a r =>
      (if unreserved a then String a "" else escape a) +:+ encodeURIComponent r
  end.

End URI.

Export URI(encodeURIComponent).

(** ** The page

    The document is the sequence of its elements in document order; a node
    is referred to by its position.  The scripts never create, remove or
    re-identify an element, so positions and ids are stable. *)

Record Element := mkElement {
  el_id : option string;        (* the id attribute *)
  classList : list string;      (* the tokens of the class attribute *)
  textContent : string;
  display : string;             (* style.display *)
  disabled : bool;
  href : option string;         (* the href attribute *)
  value : string;               (* the text of a form control *)
}.

Module DOM.

(** [document.getElementById]: the first element carrying the id. *)
Fixpoint find_id (i : string) (d : list Element) : option nat :=
  match d with
  | [] => None
  | e :: d' =>
      if bool_decide (el_id e = Some i) then Some 0%nat else S <$> find_id i d'
  end.

(** The tokens of a class attribute: split on ASCII whitespace, each token
    kept once, in order of first appearance. *)
Definition html_space (a : ascii) : bool :=
  bool_decide (code a ∈ [9; 10; 12; 13; 32]%nat).

Definition add_token (tok : string) (l : list string) : list string :=
  if bool_decide (tok ∈ l) then l else l ++ [tok].

Definition remove_token (tok : string) (l : list string) : list string :=
  filter (λ t, t ≠ tok) l.

Fixpoint split_tokens (s : string) (cur : string) : list string :=
  match s with
  | EmptyString => if bool_decide (cur = "") then [] else [cur]
  | String a r =>
      if html_space a
      then (if bool_decide (cur = "") then split_tokens r ""
            else cur :: split_tokens r "")
      else split_tokens r (cur +:+ String a "")
  end.

Definition tokens (s : string) : list string :=
  foldl (λ acc t, add_token t acc) [] (split_tokens s "").

(** The property writes the scripts perform. *)
Definition with_classList (f : list string → list string) (e : Element) : Element :=
  mkElement (el_id e) (f (classList e)) (textContent e) (display e)
            (disabled e) (href e) (value e).

Definition with_textContent (s : string) (e : Element) : Element :=
  mkElement (el_id e) (classList e) s (display e) (disabled e) (href e) (value e).

Definition with_display (s : string) (e : Element) : Element :=
  mkElement (el_id e) (classList e) (textContent e) s (disabled e) (href e) (value e).

Definition with_disabled (b : bool) (e : Element) : Element :=
  mkElement (el_id e) (classList e) (textContent e) (display e) b (href e) (value e).

Definition with_href (s : string) (e : Element) : Element :=
  mkElement (el_id e) (classList e) (textContent e) (display e) (disabled e)
            (Some s) (value e).

End DOM.

(** A request as handed to [fetch].  [body] is the value whose JSON text is
    sent. *)
Record Request := mkRequest {
  url : string;
  method : string;
  headers : list (string * string);
  credentials : option string;
  body : option JsVal;
}.

(** A response: what awaiting its [json()] gives. *)
Record Response := mkResponse {
  json : completion JsVal;
}.

(** What a script asks of its environment, in the order it asks. *)
Inductive Event :=
  | EvFetch (req : Request)
  | EvConfirm (message : string)
  | EvAlert (message : string)
  | EvConsoleError (label : string) (error : JsVal)
  | EvCall (function : string).

Record World := mkWorld {
  document : list Element;
  localStorage : gmap string string;
  navigation : option string;   (* the last value assigned to window.location.href *)
  navUser : JsVal;
  events : list Event;
}.

Definition with_document (f : list Element → list Element) (w : World) : World :=
  mkWorld (f (document w)) (localStorage w) (navigation w) (navUser w) (events w).

Definition with_localStorage (s : gmap string string) (w : World) : World :=
  mkWorld (document w) s (navigation w) (navUser w) (events w).

Definition with_navigation (target : string) (w : World) : World :=
  mkWorld (document w) (localStorage w) (Some target) (navUser w) (events w).

Definition with_navUser (u : JsVal) (w : World) : World :=
  mkWorld (document w) (localStorage w) (navigation w) u (events w).

Definition with_event (ev : Event) (w : World) : World :=
  mkWorld (document w) (localStorage w) (navigation w) (navUser w) (events w ++ [ev]).

(** ** Scripts as computations

    A script runs against the page and either completes or throws.  An
    [await] is sequencing: the handler is followed from its start to its end,
    the environment answering each request on the way. *)

Definition M (A : Type) : Type := World → completion A * World.

Definition ret {A} (a : A) : M A := λ w, (Normal a, w).

Definition throw {A} (e : JsVal) : M A := λ w, (Throw e, w).

Definition bind {A B} (m : M A) (k : A → M B) : M B :=
  λ w, match m w with
       | (Normal a, w') => k a w'
       | (Throw e, w') => (Throw e, w')
       end.

(** [try { body } catch (error) { handler error }] *)
Definition try_catch {A} (body : M A) (handler : JsVal → M A) : M A :=
  λ w, match body w with
       | (Normal a, w') => (Normal a, w')
       | (Throw e, w') => handler e w'
       end.

(** [try { body } finally { final }]: [final] runs however [body] ends, then
    [body]'s completion stands unless [final] itself throws. *)
Definition try_finally {A} (body : M A) (final : M unit) : M A :=
  λ w, match body w with
       | (c, w') =>
           match final w' with
           | (Normal _, w'') => (c, w'')
           | (Throw e, w'') => (Throw e, w'')
           end
       end.

Declare Scope js_scope.
Delimit Scope js_scope with js.
Notation "x <- m ;; k" := (bind m (λ x, k))
  (at level 100, m at next level, right associativity) : js_scope.
Notation "m ;; k" := (bind m (λ _, k))
  (at level 100, right associativity) : js_scope.
Local Open Scope js_scope.

Definition lift {A} (c : completion A) : M A := λ w, (c, w).

Definition modify (f : World → World) : M unit := λ w, (Normal tt, f w).

Definition emit (ev : Event) : M unit := modify (with_event ev).

(** String conversion inside a script. *)
Definition to_string (v : JsVal) : M string :=
  match ToString v with
  | Some s => ret s
  | None => throw (TypeError "Cannot convert object to primitive value")
  end.

Module Node.

(** A node reference as a script holds it: [None] is [null]. *)
Definition ref := option nat.

Definition null_read (prop : string) : JsVal :=
  TypeError ("Cannot read properties of null (reading '" +:+ prop +:+ "')").

Definition null_set (prop : string) : JsVal :=
  TypeError ("Cannot set properties of null (setting '" +:+ prop +:+ "')").

Definition getElementById (i : string) : M ref :=
  λ w, (Normal (DOM.find_id i (document w)), w).

(** [document.querySelectorAll('.' + class)]: the positions of the
    elements having the class, in document order; [k] is the position of
    the head of [d]. *)
Fixpoint select_from (k : nat) (class : string) (d : list Element) : list nat :=
  match d with
  | [] => []
  | e :: d' =>
      if bool_decide (class ∈ classList e)
      then k :: select_from (S k) class d'
      else select_from (S k) class d'
  end.

Definition select_class (class : string) (d : list Element) : list nat :=
  select_from 0 class d.

Definition querySelectorAll_class (class : string) : M (list nat) :=
  λ w, (Normal (select_class class (document w)), w).

(** A write through a reference; [null] throws [err]. *)
Definition write (node : ref) (err : JsVal) (f : Element → Element) : M unit :=
  match node with
  | Some n => modify (with_document (alter f n))
  | None => throw err
  end.

(** A read through a reference; [null] throws [err]. *)
Definition read {A} (node : ref) (err : JsVal) (f : Element → A) : M A :=
  λ w, match node ≫= (document w !!.) with
       | Some e => (Normal (f e), w)
       | None => (Throw err, w)
       end.

Definition get_value (node : ref) : M string :=
  read node (null_read "value") value.

Definition getAttribute_href (node : ref) : M (option string) :=
  read node (null_read "getAttribute") href.

(** [textContent] takes a nullable string: [undefined] and [null] empty the
    element, any other value is converted. *)
Definition set_textContent (node : ref) (v : JsVal) : M unit :=
  match node with
  | None => throw (null_set "textContent")
  | Some _ =>
      s <- match v with
           | JUndefined | JNull => ret ""
           | _ => to_string v
           end ;;
      write node (null_set "textContent") (DOM.with_textContent s)
  end.

Definition set_className (node : ref) (s : string) : M unit :=
  write node (null_set "className") (DOM.with_classList (λ _, DOM.tokens s)).

Definition classList_add (node : ref) (tok : string) : M unit :=
  write node (null_read "classList") (DOM.with_classList (DOM.add_token tok)).

Definition classList_remove (node : ref) (tok : string) : M unit :=
  write node (null_read "classList") (DOM.with_classList (DOM.remove_token tok)).

Definition set_display (node : ref) (s : string) : M unit :=
  write node (null_read "style") (DOM.with_display s).

Definition set_disabled (node : ref) (b : bool) : M unit :=
  write node (null_set "disabled") (DOM.with_disabled b).

Definition set_href (node : ref) (s : string) : M unit :=
  write node (null_set "href") (DOM.with_href s).

End Node.

(** ** The environment

    Everything a script gets from outside the page: the address the page was
    loaded from, the backend's answer to each request, the user's answer to a
    confirmation prompt, the locale's formatting of numbers, and the global
    function [setPlayerOffline], which only some pages define. *)

Record Env := mkEnv {
  hostname : string;                        (* window.location.hostname *)
  pathname : string;                        (* window.location.pathname *)
  network : Request → completion Response;  (* a rejected fetch throws *)
  confirm_answer : string → bool;
  locale : JsVal → string;                  (* Number.prototype.toLocaleString *)
  setPlayerOffline : option (M JsVal);
}.

Section Builtins.
Context (env : Env).

Definition fetch (req : Request) : M Response :=
  emit (EvFetch req) ;; lift (network env req).

Definition confirm (message : string) : M bool :=
  emit (EvConfirm message) ;; ret (confirm_answer env message).

Definition alert (message : string) : M unit := emit (EvAlert message).

Definition console_error (label : string) (error : JsVal) : M unit :=
  emit (EvConsoleError label error).

(** [data.attempts.toLocaleString()]: the method cannot be read off
    [undefined] or [null], and cannot be called where data shadows it.
    Where the call fails further in (an element of an array, a shadowed
    [toString]) the exception is a TypeError as well, worded by the
    engine. *)
Definition call_toLocaleString (v : JsVal) : M string :=
  match v with
  | JUndefined =>
      throw (TypeError "Cannot read properties of undefined (reading 'toLocaleString')")
  | JNull =>
      throw (TypeError "Cannot read properties of null (reading 'toLocaleString')")
  | _ =>
      match toLocaleString (locale env) v with
      | Some s => ret s
      | None =>
          throw (TypeError
                   (if v is JObj props
                    then if shadows props "toLocaleString"
                         then "data.attempts.toLocaleString is not a function"
                         else "toLocaleString is not a function"
                    else "toLocaleString is not a function"))
      end
  end.

End Builtins.

(** ** frontend/script.js *)

Module Script.
Section Script.
Context (env : Env).

Definition API_URL : string :=
  if bool_decide (hostname env = "localhost") || bool_decide (hostname env = "127.0.0.1")
  then "http://localhost:5000/api"
  else "http://chessishard-env-env.eba-f8bxehfn.eu-west-1.elasticbeanstalk.com/api".

(** The elements the script looks up once, when it loads; ids and
    positions being stable, each use looks the element up again. *)
Definition generateBtn : M Node.ref := Node.getElementById "generateBtn".
Definition btnText : M Node.ref := Node.getElementById "btnText".
Definition btnLoader : M Node.ref := Node.getElementById "btnLoader".
Definition statusDiv : M Node.ref := Node.getElementById "status".
Definition resultsDiv : M Node.ref := Node.getElementById "results".

Definition showStatus (message type : string) : M unit :=
  statusDiv <- statusDiv ;;
  Node.set_textContent statusDiv (JStr message) ;;
  Node.set_className statusDiv ("status " +:+ type) ;;
  Node.classList_remove statusDiv "hidden".

(** [document.getElementById(id).textContent = data[key]] *)
Definition show_field (id key : string) (data : JsVal) : M unit :=
  el <- Node.getElementById id ;;
  v <- lift (get_prop data key) ;;
  Node.set_textContent el v.

Definition displayResults (data : JsVal) : M unit :=
  show_field "fenText" "fen" data ;;
  show_field "whiteMaterial" "white_material" data ;;
  show_field "blackMaterial" "black_material" data ;;
  show_field "materialDiff" "material_difference" data ;;
  show_field "turn" "turn" data ;;
  show_field "evalLine1" "eval_line1" data ;;
  show_field "evalLine2" "eval_line2" data ;;
  (el <- Node.getElementById "attempts" ;;
   attempts <- lift (get_prop data "attempts") ;;
   text <- call_toLocaleString env attempts ;;
   Node.set_textContent el (JStr text)) ;;
  (el <- Node.getElementById "timeSeconds" ;;
   time_seconds <- lift (get_prop data "time_seconds") ;;
   text <- to_string time_seconds ;;
   Node.set_textContent el (JStr (text +:+ "s"))) ;;
  fen <- lift (get_prop data "fen") ;;
  fen <- to_string fen ;;
  let fenEncoded := encodeURIComponent fen in
  (el <- Node.getElementById "lichessLink" ;;
   Node.set_href el ("https://lichess.org/analysis/" +:+ fenEncoded)) ;;
  (el <- Node.getElementById "chesscomLink" ;;
   Node.set_href el ("https://www.chess.com/analysis?fen=" +:+ fenEncoded)) ;;
  resultsDiv <- resultsDiv ;;
  Node.classList_remove resultsDiv "hidden".

(** [parseInt(document.getElementById(id).value)] *)
Definition input_number (id : string) : M number :=
  el <- Node.getElementById id ;;
  text <- Node.get_value el ;;
  ret (parseInt text).

Definition generate_request (targetMin targetMax maxAttempts : number) : Request :=
  mkRequest (API_URL +:+ "/generate") "POST"
    [("Content-Type", "application/json")] None
    (Some (JObj (list_to_map [("target_min", JNum targetMin);
                              ("target_max", JNum targetMax);
                              ("max_attempts", JNum maxAttempts)]))).

(** The [try] block of the click handler. *)
Definition generate_try (targetMin targetMax maxAttempts : number) : M unit :=
  response <- fetch env (generate_request targetMin targetMax maxAttempts) ;;
  result <- lift (json response) ;;
  success <- lift (get_prop result "success") ;;
  if truthy success then
    data <- lift (get_prop result "data") ;;
    displayResults data ;;
    showStatus "✅ Position générée avec succès !" "success"
  else
    error <- lift (get_prop result "error") ;;
    error <- to_string error ;;
    showStatus ("❌ Erreur: " +:+ error) "error".

(** Its [catch] block. *)
Definition generate_catch (error : JsVal) : M unit :=
  message <- lift (get_prop error "message") ;;
  message <- to_string message ;;
  showStatus ("❌ Erreur de connexion: " +:+ message
              +:+ ". Vérifiez que le backend est démarré.") "error".

(** Its [finally] block. *)
Definition generate_finally (generateBtn btnText btnLoader : Node.ref) : M unit :=
  Node.set_disabled generateBtn false ;;
  Node.set_display btnText "inline" ;;
  Node.set_display btnLoader "none".

(** The click handler of the generation button. *)
Definition onGenerateClick : M unit :=
  targetMin <- input_number "targetMin" ;;
  targetMax <- input_number "targetMax" ;;
  maxAttempts <- input_number "maxAttempts" ;;
  if js_ge targetMin targetMax then
    showStatus "Erreur: L'évaluation min doit être inférieure à l'évaluation max" "error"
  else
    generateBtn <- generateBtn ;;
    btnText <- btnText ;;
    btnLoader <- btnLoader ;;
    resultsDiv <- resultsDiv ;;
    Node.set_disabled generateBtn true ;;
    Node.set_display btnText "none" ;;
    Node.set_display btnLoader "inline-block" ;;
    Node.classList_add resultsDiv "hidden" ;;
    showStatus "Génération en cours... Cela peut prendre jusqu'à 2 minutes." "info" ;;
    try_finally
      (try_catch (generate_try targetMin targetMax maxAttempts) generate_catch)
      (generate_finally generateBtn btnText btnLoader).

End Script.
End Script.

(** ** navbar.js *)

Module Navbar.
Section Navbar.
Context (env : Env).

Definition API_URL : string :=
  if bool_decide (hostname env = "localhost") || bool_decide (hostname env = "127.0.0.1")
  then "http://localhost:5000"
  else "http://chessishard-env-env.eba-f8bxehfn.eu-west-1.elasticbeanstalk.com".

(** [if (node) body] *)
Definition when_found (node : Node.ref) (body : M unit) : M unit :=
  if node is Some _ then body else ret tt.

Definition showAuthenticatedNavbar (user : JsVal) : M unit :=
  navUserInfo <- Node.getElementById "navUserInfo" ;;
  navLogoutBtn <- Node.getElementById "navLogoutBtn" ;;
  navLoginBtn <- Node.getElementById "navLoginBtn" ;;
  navUsername <- Node.getElementById "navUsername" ;;
  navElo <- Node.getElementById "navElo" ;;
  when_found navUserInfo (Node.set_display navUserInfo "flex") ;;
  when_found navLogoutBtn (Node.set_display navLogoutBtn "inline-block") ;;
  when_found navLoginBtn (Node.set_display navLoginBtn "none") ;;
  when_found navUsername
    (username <- lift (get_prop user "username") ;;
     Node.set_textContent navUsername username) ;;
  when_found navElo
    (elo <- lift (get_prop user "elo") ;;
     elo <- to_string elo ;;
     Node.set_textContent navElo (JStr ("ELO: " +:+ elo))).

Definition showUnauthenticatedNavbar : M unit :=
  navUserInfo <- Node.getElementById "navUserInfo" ;;
  navLogoutBtn <- Node.getElementById "navLogoutBtn" ;;
  navLoginBtn <- Node.getElementById "navLoginBtn" ;;
  when_found navUserInfo (Node.set_display navUserInfo "none") ;;
  when_found navLogoutBtn (Node.set_display navLogoutBtn "none") ;;
  when_found navLoginBtn (Node.set_display navLoginBtn "inline-block").

Definition me_request : Request :=
  mkRequest (API_URL +:+ "/api/auth/me") "GET" [] (Some "include") None.

Definition initNavbar : M unit :=
  try_catch
    (response <- fetch env me_request ;;
     data <- lift (json response) ;;
     success <- lift (get_prop data "success") ;;
     if truthy success then
       user <- lift (get_prop data "user") ;;
       modify (with_navUser user) ;;
       showAuthenticatedNavbar user
     else
       showUnauthenticatedNavbar)
    (λ error,
       console_error "❌ Erreur init navbar:" error ;;
       showUnauthenticatedNavbar).

Definition logout_request : Request :=
  mkRequest (API_URL +:+ "/api/auth/logout") "POST" [] (Some "include") None.

(** [if (typeof setPlayerOffline === 'function') await setPlayerOffline()] *)
Definition call_setPlayerOffline : M unit :=
  match setPlayerOffline env with
  | Some hook => emit (EvCall "setPlayerOffline") ;; hook ;; ret tt
  | None => ret tt
  end.

Definition handleNavLogout : M unit :=
  confirmed <- confirm env "Voulez-vous vraiment vous déconnecter ?" ;;
  if negb confirmed then ret tt
  else
    try_catch
      (call_setPlayerOffline ;;
       response <- fetch env logout_request ;;
       data <- lift (json response) ;;
       success <- lift (get_prop data "success") ;;
       if truthy success then
         modify (with_localStorage ∅) ;;
         modify (with_navigation "auth.html")
       else
         error <- lift (get_prop data "error") ;;
         error <- to_string error ;;
         alert ("Erreur de déconnexion: " +:+ error))
      (λ error,
         console_error "❌ Erreur:" error ;;
         alert "Erreur de connexion au serveur").

(** [path.split('/')], the segment being built in [cur]. *)
Fixpoint split_slash (path : string) (cur : string) : list string :=
  match path with
  | EmptyString => [cur]
  | String a r =>
      if bool_decide (a = "/"%char) then cur :: split_slash r ""
      else split_slash r (cur +:+ String a "")
  end.

(** [window.location.pathname.split('/').pop() || 'index.html'] *)
Definition currentPage : string :=
  let page := default "" (last (split_slash (pathname env) "")) in
  if bool_decide (page = "") then "index.html" else page.

Fixpoint forEach {A} (l : list A) (f : A → M unit) : M unit :=
  match l with
  | [] => ret tt
  | x :: l' => f x ;; forEach l' f
  end.

Definition setActiveNavLink : M unit :=
  links <- Node.querySelectorAll_class "navbar-link" ;;
  forEach links (λ link,
    Node.classList_remove (Some link) "active" ;;
    href <- Node.getAttribute_href (Some link) ;;
    if bool_decide (href = Some currentPage)
       || bool_decide (currentPage = "") && bool_decide (href = Some "index.html")
       || bool_decide (currentPage = "/") && bool_decide (href = Some "index.html")
    then Node.classList_add (Some link) "active"
    else ret tt).

End Navbar.
End Navbar.

(** ** frontend/script.js: copying the FEN

    [copyFEN] reaches past the page: it writes to the clipboard and sets a
    timer.  The desk is the page together with the clipboard and the timers
    still pending.  A promise chain runs to its end where it is started;
    a timer runs when it is fired. *)

Module Copy.

(** The callback [copyFEN] hands to [setTimeout], as the button and the
    label it closes over. *)
Record Timer := mkTimer {
  delay : Z;                    (* milliseconds *)
  btn : Node.ref;
  originalText : string;
}.

Record Desk := mkDesk {
  page : World;
  clipboard : string;
  timers : list Timer;          (* in the order they were set *)
}.

(** What the browser decides: whether the page is given a clipboard at all
    ([navigator.clipboard] is [undefined] outside a secure context) and
    whether a write to it is allowed (a refused write rejects the
    promise); and what the global [event] is when the callback of [then]
    runs: [None] when it is [undefined], otherwise its [target]. *)
Record Host := mkHost {
  writeText : option (string → completion unit);
  event : option Node.ref;
}.

Definition D (A : Type) : Type := Desk → completion A * Desk.

Definition on_page {A} (m : M A) : D A :=
  λ d, match m (page d) with
       | (c, w) => (c, mkDesk w (clipboard d) (timers d))
       end.

(** [m.then(k)], and a statement followed by the next. *)
Definition and_then {A B} (m : D A) (k : A → D B) : D B :=
  λ d, match m d with
       | (Normal a, d') => k a d'
       | (Throw e, d') => (Throw e, d')
       end.

(** [m.catch(handler)] *)
Definition catch {A} (m : D A) (handler : JsVal → D A) : D A :=
  λ d, match m d with
       | (Normal a, d') => (Normal a, d')
       | (Throw e, d') => handler e d'
       end.

(** A promise nobody awaits, a callback nobody called: however it ends,
    nothing is thrown to the script. *)
Definition detached {A} (m : D A) : D unit :=
  λ d, (Normal tt, (m d).2).

Declare Scope desk_scope.
Delimit Scope desk_scope with desk.
Notation "x <- m ;; k" := (and_then m (λ x, k))
  (at level 100, m at next level, right associativity) : desk_scope.
Notation "m ;; k" := (and_then m (λ _, k))
  (at level 100, right associativity) : desk_scope.

Section Copy.
Context (host : Host).

(** [navigator.clipboard], as the write it allows; reading [writeText]
    off a missing clipboard throws. *)
Definition navigator_clipboard : D (string → completion unit) :=
  λ d, match writeText host with
       | Some allowed => (Normal allowed, d)
       | None =>
           (Throw (TypeError "Cannot read properties of undefined (reading 'writeText')"),
            d)
       end.

(** The promise of [writeText(text)]. *)
Definition clipboard_writeText (allowed : string → completion unit) (text : string) :
    D unit :=
  λ d, match allowed text with
       | Normal _ => (Normal tt, mkDesk (page d) text (timers d))
       | Throw e => (Throw e, d)
       end.

(** [event.target] *)
Definition event_target : D Node.ref :=
  λ d, match event host with
       | Some target => (Normal target, d)
       | None =>
           (Throw (TypeError "Cannot read properties of undefined (reading 'target')"), d)
       end.

Definition setTimeout (t : Timer) : D unit :=
  λ d, (Normal tt, mkDesk (page d) (clipboard d) (timers d ++ [t])).

(** The callback of [then]. *)
Definition copied : D unit :=
  (btn <- event_target ;;
   originalText <- on_page (Node.read btn (Node.null_read "textContent") textContent) ;;
   on_page (Node.set_textContent btn (JStr "✅ Copié !")) ;;
   setTimeout (mkTimer 2000 btn originalText))%desk.

(** The callback of [catch]. *)
Definition copy_failed (err : JsVal) : D unit :=
  on_page (err <- to_string err ;;
           alert ("Erreur lors de la copie: " +:+ err))%js.

Definition copyFEN : D unit :=
  (fenText <- on_page (el <- Node.getElementById "fenText" ;;
                       Node.read el (Node.null_read "textContent") textContent)%js ;;
   allowed <- navigator_clipboard ;;
   detached (catch (clipboard_writeText allowed fenText ;; copied) copy_failed))%desk.

End Copy.

(** The callback of the oldest timer runs, and the timer is gone. *)
Definition fire : D unit :=
  λ d, match timers d with
       | [] => (Normal tt, d)
       | t :: rest =>
           detached (on_page (Node.set_textContent (btn t) (JStr (originalText t))))
             (mkDesk (page d) (clipboard d) rest)
       end.

End Copy.

(** * What the scripts leave behind

    The vocabulary of the properties: how a page is read, and the pages the
    handlers lead to. *)

Implicit Types w : World.

(** ** Numbers *)

(** The integer is the value of a double: it has a significand below
    [2^53], and is below [2^1024] in absolute value. *)
Definition is_double (z : Z) : Prop :=
  Z.abs z < 2 ^ 1024
  ∧ ∃ q k, 0 ≤ k ∧ 0 ≤ q < 2 ^ 53 ∧ Z.abs z = q * 2 ^ k.

(** ** The page *)

(** The element carrying an id, as the scripts find it. *)
Definition element (w : World) (i : string) : option Element :=
  DOM.find_id i (document w) ≫= (document w !!.).

(** The text of a form control. *)
Definition field (w : World) (i : string) : option string :=
  value <$> element w i.

(** A property write leaves the id alone. *)
Class IdStable (f : Element → Element) : Prop :=
  id_stable : ∀ e, el_id (f e) = el_id e.

(** The effect of writing [f] into the element carrying id [i]: nothing
    when the page has no such element. *)
Definition upd_id (i : string) (f : Element → Element) (w : World) : World :=
  with_document (λ d, if DOM.find_id i d is Some n then alter f n d else d) w.

(** The page has an element carrying the id. *)
Definition present (w : World) (i : string) : Prop :=
  is_Some (DOM.find_id i (document w)).

(** The ids of the page, position by position. *)
Definition ids (w : World) : list (option string) := el_id <$> document w.

(** From [w] to [w'] no id moved and nothing left the trace. *)
Definition advances (w w' : World) : Prop :=
  ids w' = ids w ∧ events w `prefix_of` events w'.

(** A script that, however it ends, only advances the page. *)
Definition steady {A} (m : M A) : Prop := ∀ w, advances w (m w).2.

(** ** The generation panel *)

(** What [showStatus] makes of the status element. *)
Definition status_el (message type : string) : Element → Element :=
  DOM.with_classList (DOM.remove_token "hidden")
  ∘ DOM.with_classList (λ _, DOM.tokens ("status " +:+ type))
  ∘ DOM.with_textContent message.

(** The status line shows [message] in the style of [type]. *)
Definition status_shows w (message type : string) : Prop :=
  ∃ e, element w "status" = Some e
       ∧ textContent e = message ∧ classList e = ["status"; type].

(** The three text fields hold [tmin], [tmax] and [attempts]. *)
Definition inputs w (tmin tmax attempts : string) : Prop :=
  field w "targetMin" = Some tmin
  ∧ field w "targetMax" = Some tmax
  ∧ field w "maxAttempts" = Some attempts.

Definition validation_message : string :=
  "Erreur: L'évaluation min doit être inférieure à l'évaluation max".

(** What follows the call to [fetch] in the [try] block of the click
    handler ([generate_try_fetches] below). *)
Definition after_fetch (env : Env) (outcome : completion Response) : M unit :=
  response <- lift outcome ;;
  result <- lift (json response) ;;
  success <- lift (get_prop result "success") ;;
  if truthy success then
    data <- lift (get_prop result "data") ;;
    Script.displayResults env data ;;
    Script.showStatus "✅ Position générée avec succès !" "success"
  else
    error <- lift (get_prop result "error") ;;
    error <- to_string error ;;
    Script.showStatus ("❌ Erreur: " +:+ error) "error".

(** The page has the controls of the panel. *)
Definition panel_ready w : Prop :=
  present w "generateBtn" ∧ present w "btnText" ∧ present w "btnLoader"
  ∧ present w "results" ∧ present w "status".

Definition loading_message : string :=
  "Génération en cours... Cela peut prendre jusqu'à 2 minutes.".

(** The page while the request is in flight. *)
Definition loading w : World :=
  upd_id "status" (status_el loading_message "info")
    (upd_id "results" (DOM.with_classList (DOM.add_token "hidden"))
       (upd_id "btnLoader" (DOM.with_display "inline-block")
          (upd_id "btnText" (DOM.with_display "none")
             (upd_id "generateBtn" (DOM.with_disabled true) w)))).

(** The page back at rest. *)
Definition idle w : World :=
  upd_id "btnLoader" (DOM.with_display "none")
    (upd_id "btnText" (DOM.with_display "inline")
       (upd_id "generateBtn" (DOM.with_disabled false) w)).

Definition server_error_message (text : string) : string :=
  "❌ Erreur: " +:+ text.

Definition connection_error_message (text : string) : string :=
  "❌ Erreur de connexion: " +:+ text +:+ ". Vérifiez que le backend est démarré.".

(** The request came to nothing: [fetch] was rejected, or the body of the
    response was not JSON. *)
Definition transport_failure (outcome : completion Response) (e : JsVal) : Prop :=
  outcome = Throw e ∨ ∃ resp, outcome = Normal resp ∧ json resp = Throw e.

(** A number of a response, as a value and as displayed. *)
Inductive numeric :=
  | Exact (n : number)
  | Decimal (text : string).

Definition numeric_val (x : numeric) : JsVal :=
  match x with
  | Exact n => JNum n
  | Decimal text => JDec text
  end.

Definition numeric_text (x : numeric) : string :=
  match x with
  | Exact n => Double.toString n
  | Decimal text => text
  end.

(** The position report of a successful response. *)
Record PositionReport := mkPositionReport {
  fen : string;
  white_material : numeric;
  black_material : numeric;
  material_difference : numeric;
  turn : string;
  eval_line1 : string;
  eval_line2 : string;
  attempts : numeric;
  time_seconds : numeric;
}.

(** [data] is a well-formed report: it has the fields of [r], each of its
    type.  It may have others. *)
Definition carries (data : JsVal) (r : PositionReport) : Prop :=
  get_prop data "fen" = Normal (JStr (fen r))
  ∧ get_prop data "white_material" = Normal (numeric_val (white_material r))
  ∧ get_prop data "black_material" = Normal (numeric_val (black_material r))
  ∧ get_prop data "material_difference"
    = Normal (numeric_val (material_difference r))
  ∧ get_prop data "turn" = Normal (JStr (turn r))
  ∧ get_prop data "eval_line1" = Normal (JStr (eval_line1 r))
  ∧ get_prop data "eval_line2" = Normal (JStr (eval_line2 r))
  ∧ get_prop data "attempts" = Normal (numeric_val (attempts r))
  ∧ get_prop data "time_seconds" = Normal (numeric_val (time_seconds r)).

(** The page has the elements of the results view. *)
Definition results_ready w : Prop :=
  present w "fenText" ∧ present w "whiteMaterial" ∧ present w "blackMaterial"
  ∧ present w "materialDiff" ∧ present w "turn" ∧ present w "evalLine1"
  ∧ present w "evalLine2" ∧ present w "attempts" ∧ present w "timeSeconds"
  ∧ present w "lichessLink" ∧ present w "chesscomLink".

Definition lichess_url (fen : string) : string :=
  "https://lichess.org/analysis/" +:+ encodeURIComponent fen.

Definition chesscom_url (fen : string) : string :=
  "https://www.chess.com/analysis?fen=" +:+ encodeURIComponent fen.

(** The page once [displayResults] has run on the report [r]. *)
Definition displayed (env : Env) (r : PositionReport) w : World :=
  upd_id "results" (DOM.with_classList (DOM.remove_token "hidden"))
    (upd_id "chesscomLink" (DOM.with_href (chesscom_url (fen r)))
    (upd_id "lichessLink" (DOM.with_href (lichess_url (fen r)))
    (upd_id "timeSeconds"
       (DOM.with_textContent (numeric_text (time_seconds r) +:+ "s"))
    (upd_id "attempts"
       (DOM.with_textContent (locale env (numeric_val (attempts r))))
    (upd_id "evalLine2" (DOM.with_textContent (eval_line2 r))
    (upd_id "evalLine1" (DOM.with_textContent (eval_line1 r))
    (upd_id "turn" (DOM.with_textContent (turn r))
    (upd_id "materialDiff"
       (DOM.with_textContent (numeric_text (material_difference r)))
    (upd_id "blackMaterial"
       (DOM.with_textContent (numeric_text (black_material r)))
    (upd_id "whiteMaterial"
       (DOM.with_textContent (numeric_text (white_material r)))
    (upd_id "fenText" (DOM.with_textContent (fen r)) w))))))))))).

Definition success_message : string := "✅ Position générée avec succès !".

(** What the results view reads. *)
Definition text w (i : string) : option string := textContent <$> element w i.
Definition link w (i : string) : option string := element w i ≫= href.
Definition revealed w (i : string) : Prop :=
  ∃ e, element w i = Some e ∧ "hidden" ∉ classList e.

(** ** The navigation bar *)

Definition logout_prompt : string := "Voulez-vous vraiment vous déconnecter ?".

(** The page once the user has been asked. *)
Definition asked w : World := with_event (EvConfirm logout_prompt) w.

(** The test of [setActiveNavLink] on a link's [href]. *)
Definition is_current (env : Env) (h : option string) : bool :=
  bool_decide (h = Some (Navbar.currentPage env))
  || bool_decide (Navbar.currentPage env = "") && bool_decide (h = Some "index.html")
  || bool_decide (Navbar.currentPage env = "/") && bool_decide (h = Some "index.html").

(** What the loop body makes of a link. *)
Definition mark (env : Env) (e : Element) : Element :=
  DOM.with_classList
    (λ l, let l' := DOM.remove_token "active" l in
          if is_current env (href e) then DOM.add_token "active" l' else l') e.

(** What the loop makes of an element: links are marked, the rest is left. *)
Definition mark_link (env : Env) (e : Element) : Element :=
  if bool_decide ("navbar-link" ∈ classList e) then mark env e else e.

(** The body of the loop of [setActiveNavLink]. *)
Definition link_body (env : Env) (link : nat) : M unit :=
  Node.classList_remove (Some link) "active" ;;
  href <- Node.getAttribute_href (Some link) ;;
  if is_current env href then Node.classList_add (Some link) "active" else ret tt.

(** The paths of the home page. *)
Definition home_path (path : string) : Prop :=
  path = "/index.html" ∨ path = "" ∨ path = "/".

(** The text a value leaves in [textContent]. *)
Definition dom_text (v : JsVal) : option string :=
  match v with
  | JUndefined | JNull => Some ""
  | _ => ToString v
  end.

(** What [showAuthenticatedNavbar] writes for a user; [None] where it
    throws instead. *)
Definition username_text (user : JsVal) : option string :=
  match get_prop user "username" with
  | Normal v => dom_text v
  | Throw _ => None
  end.

Definition elo_text (user : JsVal) : option string :=
  match get_prop user "elo" with
  | Normal v => (λ elo, "ELO: " +:+ elo) <$> ToString v
  | Throw _ => None
  end.

(** The user of a session check that answered with a truthy [success];
    [None] for every other outcome: a rejected [fetch], a body that is
    not JSON, a body that is [null], a falsy or missing [success]. *)
Definition checked_user (env : Env) : option JsVal :=
  match network env (Navbar.me_request env) with
  | Normal resp =>
      match json resp with
      | Normal data =>
          match get_prop data "success" with
          | Normal flag =>
              if truthy flag
              then match get_prop data "user" with
                   | Normal user => Some user
                   | Throw _ => None
                   end
              else None
          | Throw _ => None
          end
      | Throw _ => None
      end
  | Throw _ => None
  end.

(** The user can be shown on this page: where the page has the element
    for the name, or for the rating, the user has the text for it. *)
Definition renders w (user : JsVal) : Prop :=
  (present w "navUsername" → is_Some (username_text user))
  ∧ (present w "navElo" → is_Some (elo_text user)).

#[global] Instance renders_dec w user : Decision (renders w user).
Proof. unfold renders, present. apply _. Defined.

(** The two states of the bar, on the controls the page has. *)
Definition shown_as w (i d : string) : Prop :=
  ∀ e, element w i = Some e → display e = d.

Definition reads w (i : string) (t : option string) : Prop :=
  ∀ e, element w i = Some e → t = Some (textContent e).

Definition Authenticated w (user : JsVal) : Prop :=
  shown_as w "navUserInfo" "flex"
  ∧ shown_as w "navLogoutBtn" "inline-block"
  ∧ shown_as w "navLoginBtn" "none"
  ∧ reads w "navUsername" (username_text user)
  ∧ reads w "navElo" (elo_text user).

Definition Unauthenticated w : Prop :=
  shown_as w "navUserInfo" "none"
  ∧ shown_as w "navLogoutBtn" "none"
  ∧ shown_as w "navLoginBtn" "inline-block".

(** The bar as [showUnauthenticatedNavbar] leaves it. *)
Definition unauthenticated w : World :=
  upd_id "navLoginBtn" (DOM.with_display "inline-block")
    (upd_id "navLogoutBtn" (DOM.with_display "none")
       (upd_id "navUserInfo" (DOM.with_display "none") w)).

(** The bar after the first three writes of [showAuthenticatedNavbar]. *)
Definition greeted w : World :=
  upd_id "navLoginBtn" (DOM.with_display "none")
    (upd_id "navLogoutBtn" (DOM.with_display "inline-block")
       (upd_id "navUserInfo" (DOM.with_display "flex") w)).

(** The last two statements of [showAuthenticatedNavbar]. *)
Definition name_step (user : JsVal) (node : Node.ref) : M unit :=
  Navbar.when_found node
    (username <- lift (get_prop user "username") ;;
     Node.set_textContent node username).

Definition elo_step (user : JsVal) (node : Node.ref) : M unit :=
  Navbar.when_found node
    (elo <- lift (get_prop user "elo") ;;
     elo <- to_string elo ;;
     Node.set_textContent node (JStr ("ELO: " +:+ elo))).

(** The bar as [showAuthenticatedNavbar] leaves it when it completes. *)
Definition authenticated (user : JsVal) w : World :=
  upd_id "navElo" (DOM.with_textContent (default "" (elo_text user)))
    (upd_id "navUsername"
       (DOM.with_textContent (default "" (username_text user)))
       (greeted w)).

(** What follows the call to [fetch] in the [try] block of [initNavbar],
    and its [catch] block ([initNavbar_fetches] below). *)
Definition after_me (outcome : completion Response) : M unit :=
  response <- lift outcome ;;
  data <- lift (json response) ;;
  success <- lift (get_prop data "success") ;;
  if truthy success then
    user <- lift (get_prop data "user") ;;
    modify (with_navUser user) ;;
    Navbar.showAuthenticatedNavbar user
  else
    Navbar.showUnauthenticatedNavbar.

Definition session_catch (error : JsVal) : M unit :=
  console_error "❌ Erreur init navbar:" error ;;
  Navbar.showUnauthenticatedNavbar.

(** ** What a handler leaves alone *)

(** From [w] to [w'] the local storage, the pending navigation and the
    trace are as they were. *)
Definition kept w w' : Prop :=
  localStorage w' = localStorage w ∧ navigation w' = navigation w
  ∧ events w' = events w.

(** ... and the session user as well: nothing but the document changed. *)
Definition quiet w w' : Prop := kept w w' ∧ navUser w' = navUser w.

(** No id moved, and no element changed other than those carrying an id
    of [l]. *)
Definition touches_only (l : list string) w w' : Prop :=
  ids w' = ids w
  ∧ ∀ n, (∀ i, i ∈ l → DOM.find_id i (document w) ≠ Some n) →
         document w' !! n = document w !! n.

(** A script that, however it ends, leaves the page related to the one it
    started from. *)
Definition always (R : relation World) {A} (m : M A) : Prop :=
  ∀ w, R w (m w).2.

(** A relation that does not look at the document. *)
Class DocFree (R : relation World) : Prop :=
  doc_free : ∀ w f, R w (with_document f w).

(** A script whose only effect, if any, is a write to the element [node]
    refers to. *)
Definition through (node : Node.ref) {A} (m : M A) : Prop :=
  ∀ w, (m w).2 = w
       ∨ ∃ n f, node = Some n ∧ IdStable f
                ∧ (m w).2 = with_document (alter f n) w.

(** The elements of the generation panel, and those of the results view
    that [displayResults] fills in. *)
Definition field_ids : list string :=
  ["fenText"; "whiteMaterial"; "blackMaterial"; "materialDiff"; "turn";
   "evalLine1"; "evalLine2"; "attempts"; "timeSeconds"; "lichessLink";
   "chesscomLink"].

Definition panel_ids : list string :=
  ["generateBtn"; "btnText"; "btnLoader"; "results"; "status"] ++ field_ids.

Definition hidden w (i : string) : Prop :=
  ∃ e, element w i = Some e ∧ "hidden" ∈ classList e.

(** The controls the click handler sets by itself. *)
Definition control_ids : list string :=
  ["generateBtn"; "btnText"; "btnLoader"; "results"; "status"].

(** The [data] of a response that announces a success; [None] for every
    other outcome of the request: a rejected [fetch], a body that is not
    JSON or is [null], a falsy or missing [success]. *)
Definition reported_data (outcome : completion Response) : option JsVal :=
  match outcome with
  | Normal resp =>
      match json resp with
      | Normal result =>
          match get_prop result "success" with
          | Normal flag =>
              if truthy flag
              then match get_prop result "data" with
                   | Normal data => Some data
                   | Throw _ => None
                   end
              else None
          | Throw _ => None
          end
      | Throw _ => None
      end
  | Throw _ => None
  end.

(** A script that throws with the results panel as it was, or completes
    having taken [hidden] off it, the fields being all it touched before. *)
Definition reveals_last (m : M unit) : Prop :=
  ∀ w, present w "results" →
    (∃ e w', m w = (Throw e, w') ∧ touches_only field_ids w w')
    ∨ (∃ w1, m w = (Normal tt,
                    upd_id "results" (DOM.with_classList (DOM.remove_token "hidden")) w1)
             ∧ touches_only field_ids w w1).

(** Whether the logout endpoint answers with a truthy [success]. *)
Definition logout_accepted (env : Env) : bool :=
  match network env (Navbar.logout_request env) with
  | Normal resp =>
      match json resp with
      | Normal data =>
          match get_prop data "success" with
          | Normal flag => truthy flag
          | Throw _ => false
          end
      | Throw _ => false
      end
  | Throw _ => false
  end.

(** The page has none of the controls of the navigation bar. *)
Definition no_bar w : Prop :=
  ∀ i, i ∈ ["navUserInfo"; "navLogoutBtn"; "navLoginBtn"; "navUsername"; "navElo"] →
       DOM.find_id i (document w) = None.

(** ** Paths and links *)

Fixpoint has_slash (s : string) : bool :=
  match s with
  | EmptyString => false
  | String a r => bool_decide (a = "/"%char) || has_slash r
  end.

(** The characters of a percent-encoded text: unreserved ones and the
    percent sign (the digits of an escape are unreserved). *)
Fixpoint url_safe (s : string) : bool :=
  match s with
  | EmptyString => true
  | String a r => (URI.unreserved a || bool_decide (a = "%"%char)) && url_safe r
  end.

(** Percent-decoding, as the analysis sites apply it to the link: each
    escape gives back its byte. *)
Definition hex_value (a : ascii) : option nat :=
  let n := code a in
  if bool_decide (48 ≤ n ≤ 57)%nat then Some (n - 48)%nat
  else if bool_decide (65 ≤ n ≤ 70)%nat then Some (n - 55)%nat
  else None.

Fixpoint percent_decode (s : string) : option string :=
  match s with
  | EmptyString => Some ""
  | String a r =>
      if bool_decide (a = "%"%char) then
        match r with
        | String h (String l r') =>
            hi ← hex_value h; lo ← hex_value l;
            String (ascii_of_nat (16 * hi + lo)) <$> percent_decode r'
        | _ => None
        end
      else String a <$> percent_decode r
  end.

(** ** The page-load listener of navbar.js

    The listener calls [initNavbar] without awaiting it, then
    [setActiveNavLink].  An [async] function runs up to its first [await]
    when it is called: [initNavbar] calls [fetch] and hands back its
    promise; the links are marked; the rest of [initNavbar] runs once the
    request has settled. *)

Definition initNavbar_called (env : Env) : M unit :=
  emit (EvFetch (Navbar.me_request env)).

Definition initNavbar_resumed (env : Env) : M unit :=
  try_catch (after_me (network env (Navbar.me_request env))) session_catch.

Definition onDOMContentLoaded (env : Env) : M unit :=
  initNavbar_called env ;;
  Navbar.setActiveNavLink env ;;
  initNavbar_resumed env.

(** A script that does the same on a page whose elements went through [g],
    and leaves that page as [g] leaves its own. *)
Definition respects (g : Element → Element) {A} (m : M A) : Prop :=
  ∀ w, m (with_document (fmap g) w)
       = ((m w).1, with_document (fmap g) (m w).2).

(** Two property writes that do not see each other. *)
Class Apart (f g : Element → Element) : Prop :=
  apart : ∀ e, f (g e) = g (f e).

(** ** A sample page

    A page with the navigation bar, the generation form and the results
    view, and a few environments, to run the scripts on. *)

Module Sample.

Definition control (i display : string) : Element :=
  mkElement (Some i) [] "" display false None "".

Definition input (i value : string) : Element :=
  mkElement (Some i) [] "" "" false None value.

Definition nav_link (href : string) (classes : list string) : Element :=
  mkElement None classes "" "" false (Some href) "".

Definition elements (tmin tmax tries : string) : list Element :=
  [ nav_link "index.html" ["navbar-link"];
    nav_link "game.html" ["navbar-link"; "active"];
    nav_link "https://lichess.org" ["external"; "active"];
    control "navUserInfo" "none";
    control "navUsername" "";
    control "navElo" "";
    control "navLoginBtn" "inline-block";
    control "navLogoutBtn" "none";
    input "targetMin" tmin;
    input "targetMax" tmax;
    input "maxAttempts" tries;
    control "generateBtn" "";
    control "btnText" "inline";
    control "btnLoader" "none";
    mkElement (Some "status") ["status"; "hidden"] "" "" false None "";
    mkElement (Some "results") ["results"; "hidden"] "" "" false None "";
    control "fenText" "";
    control "whiteMaterial" "";
    control "blackMaterial" "";
    control "materialDiff" "";
    control "turn" "";
    control "evalLine1" "";
    control "evalLine2" "";
    control "attempts" "";
    control "timeSeconds" "";
    mkElement (Some "lichessLink") [] "" "" false (Some "#") "";
    mkElement (Some "chesscomLink") [] "" "" false (Some "#") "" ].

(** The page as loaded, with the three fields filled in and something in
    the local storage. *)
Definition page (tmin tmax tries : string) : World :=
  mkWorld (elements tmin tmax tries) {[ "token" := "abc" ]} None JNull [].

(** Digits in groups of three, from the right. *)
Fixpoint group (digits : list ascii) (k : nat) : list ascii :=
  match digits with
  | [] => []
  | a :: rest =>
      if bool_decide (k = 3%nat) then ","%char :: a :: group rest 1
      else a :: group rest (S k)
  end.

(** An English locale, on the natural numbers; other numbers as they are. *)
Definition en_US (v : JsVal) : string :=
  match v with
  | JNum (Int z) =>
      if bool_decide (0 ≤ z)
      then string_of_list_ascii
             (rev (group (rev (list_ascii_of_string (pretty z))) 0))
      else pretty z
  | _ => default "" (ToString v)
  end.

(** A backend that answers every request with the same JSON value. *)
Definition answers (v : JsVal) : Request → completion Response :=
  λ _, Normal (mkResponse (Normal v)).

(** No backend: every [fetch] is rejected. *)
Definition unreachable : Request → completion Response :=
  λ _, Throw (JError "TypeError" "Failed to fetch").

Definition env (network : Request → completion Response) (confirms : bool)
    (hook : option (M JsVal)) : Env :=
  mkEnv "localhost" "/index.html" network (λ _, confirms) en_US hook.

Definition report : PositionReport :=
  mkPositionReport "8/8/4k3/8/8/3K4/4P3/8 w - - 0 1"
    (Exact (Int 1)) (Exact (Int 0)) (Exact (Int 1)) "white" "+1.50" "+1.20"
    (Exact (Int 12345)) (Decimal "3.27").

Definition report_json : JsVal :=
  JObj (list_to_map
    [("fen", JStr "8/8/4k3/8/8/3K4/4P3/8 w - - 0 1");
     ("white_material", JNum (Int 1));
     ("black_material", JNum (Int 0));
     ("material_difference", JNum (Int 1));
     ("turn", JStr "white");
     ("eval_line1", JStr "+1.50");
     ("eval_line2", JStr "+1.20");
     ("attempts", JNum (Int 12345));
     ("time_seconds", JDec "3.27")]).

Definition generated : JsVal :=
  JObj (list_to_map [("success", JBool true); ("data", report_json)]).

Definition refused : JsVal :=
  JObj (list_to_map [("success", JBool false);
                     ("error", JStr "Aucune position trouvée")]).

Definition alice : JsVal :=
  JObj (list_to_map [("username", JStr "alice"); ("elo", JNum (Int 1500))]).

Definition logged_in : JsVal :=
  JObj (list_to_map [("success", JBool true); ("user", alice)]).

(** A success with no user in it. *)
Definition success_only : JsVal :=
  JObj (list_to_map [("success", JBool true)]).

(** The answer of the logout endpoint. *)
Definition logged_out : JsVal := JObj (list_to_map [("success", JBool true)]).

(** A [setPlayerOffline] that fails. *)
Definition failing_hook : M JsVal :=
  throw (JError "Error" "socket closed").

End Sample.

(** ** More samples *)

Module Trial.

(** A success whose report has only its FEN. *)
Definition truncated : JsVal :=
  JObj (list_to_map
    [("success", JBool true);
     ("data", JObj (list_to_map [("fen", JStr "8/8/8/8/8/8/8/K6k w - - 0 1")]))]).

(** A success whose data has only a number of attempts. *)
Definition counted : JsVal :=
  JObj (list_to_map
    [("success", JBool true);
     ("data", JObj (list_to_map [("attempts", JNum (Int 1))]))]).

(** The logout endpoint refusing. *)
Definition denied : JsVal :=
  JObj (list_to_map [("success", JBool false); ("error", JStr "Non connecté")]).

(** A page with links and no bar. *)
Definition bare : World :=
  mkWorld [Sample.nav_link "index.html" ["navbar-link"];
           Sample.nav_link "game.html" ["navbar-link"]] ∅ None JNull [].

Definition on_path (path : string) : Env :=
  mkEnv "chess.example.org" path Sample.unreachable (λ _, false) Sample.en_US None.

(** The sample page showing a position, with a button to copy it. *)
Definition copy_button : Element :=
  mkElement (Some "copyBtn") ["copy-btn"] "Copier" "" false None "".

Definition shown : World :=
  with_document (λ d, d ++ [copy_button])
    (upd_id "fenText" (DOM.with_textContent (fen Sample.report))
       (Sample.page "0" "100" "1000")).

Definition desk : Copy.Desk := Copy.mkDesk shown "" [].

(** Browsers: one that allows the copy and still has the click's event
    when the clipboard answers, one that refuses the copy, one that has
    lost the event. *)
Definition allowing : Copy.Host :=
  Copy.mkHost (Some (λ _, Normal tt)) (Some (Some 27%nat)).

Definition refusing : Copy.Host :=
  Copy.mkHost (Some (λ _, Throw (JError "NotAllowedError" "Write permission denied.")))
    (Some (Some 27%nat)).

Definition eventless : Copy.Host := Copy.mkHost (Some (λ _, Normal tt)) None.

End Trial.

(** * Properties *)

(** ** The built-in functions on sample inputs *)

Example parseInt_plain : parseInt "150" = Int 150.
Proof. reflexivity. Qed.

Example parseInt_negative : parseInt " -300abc" = Int (-300).
Proof. reflexivity. Qed.

Example parseInt_hex : parseInt "0x1F" = Int 31.
Proof. reflexivity. Qed.

Example parseInt_empty : parseInt "" = NaN.
Proof. reflexivity. Qed.

Example parseInt_letters : parseInt "abc" = NaN.
Proof. reflexivity. Qed.

Example parseInt_fraction : parseInt "12.5" = Int 12.
Proof. reflexivity. Qed.

Example encode_start_position :
  encodeURIComponent "rnbqkbnr/pppppppp/8/8/8/8/PPPPPPPP/RNBQKBNR w KQkq - 0 1"
  = "rnbqkbnr%2Fpppppppp%2F8%2F8%2F8%2F8%2FPPPPPPPP%2FRNBQKBNR%20w%20KQkq%20-%200%201".
Proof. reflexivity. Qed.

Example ToString_list :
  ToString (JArr [JNum (Int 1); JNull; JStr "a"; JArr [JBool true; JNum (Int (-2))]])
  = Some "1,,a,true,-2".
Proof. reflexivity. Qed.

Example tokens_status : DOM.tokens "status  error status" = ["status"; "error"].
Proof. reflexivity. Qed.

(** ** Numbers as doubles *)

Lemma nearest_significand a :
  0 ≤ a → ∃ q k, 0 ≤ k ∧ 0 ≤ q < 2 ^ 53 ∧ Double.nearest a = q * 2 ^ k.
Proof.
  intros Ha. unfold Double.nearest.
  assert (a < 2 ^ (Z.log2 a + 1)) as Hlt.
  { destruct (decide (a = 0)) as [->|Hne]; [done|].
    replace (Z.log2 a + 1) with (Z.succ (Z.log2 a)) by lia.
    apply Z.log2_spec. lia. }
  case_bool_decide as Hbits.
  - exists a, 0. split; [done|]. split; [|lia]. split; [done|].
    eapply Z.lt_le_trans; [apply Hlt|]. apply Z.pow_le_mono_r; lia.
  - set (shift := Z.log2 a + 1 - 53) in *.
    assert (0 < shift) as Hshift by lia.
    assert (0 < 2 ^ shift) as Hpow by (apply Z.pow_pos_nonneg; lia).
    assert (0 ≤ a / 2 ^ shift < 2 ^ 53) as Hq.
    { split; [by apply Z.div_pos|]. apply Z.div_lt_upper_bound; [done|].
      rewrite <- Z.pow_add_r by lia.
      by replace (shift + 53) with (Z.log2 a + 1) by lia. }
    destruct (_ || _).
    + destruct (decide (a / 2 ^ shift + 1 = 2 ^ 53)) as [Heq|Hne].
      * exists (2 ^ 52), (shift + 1). split; [lia|]. split; [done|].
        rewrite Heq, Z.pow_add_r by lia.
        change (2 ^ 53) with (2 ^ 52 * 2). change (2 ^ 1) with 2. lia.
      * exists (a / 2 ^ shift + 1), shift. split; [lia|]. split; [lia|done].
    + exists (a / 2 ^ shift), shift. split; [lia|]. by split.
Qed.

(** What [Double.of_Z] gives is the value of a double. *)
Lemma of_Z_is_double z v : Double.of_Z z = Int v → is_double v.
Proof.
  unfold Double.of_Z. case_bool_decide as Hbig; [done|]. intros [= <-].
  destruct (nearest_significand (Z.abs z)) as (q & k & Hk & Hq & Heq); [lia|].
  assert (0 ≤ Double.nearest (Z.abs z)) as Hpos.
  { rewrite Heq. apply Z.mul_nonneg_nonneg; [lia|]. apply Z.pow_nonneg. lia. }
  destruct (decide (z = 0)) as [->|Hz].
  - split; [done|]. exists 0, 0. by split_and!.
  - unfold is_double. set (m := Double.nearest (Z.abs z)) in *. clearbody m.
    assert (Z.abs (Z.sgn z * m) = m) as -> by (destruct z; cbn [Z.sgn]; lia).
    split; [lia|]. by exists q, k.
Qed.

(** [parseInt] never yields an integer no double holds. *)
Lemma parseInt_is_double s v : parseInt s = Int v → is_double v.
Proof.
  unfold parseInt, ParseInt.parseInt.
  destruct (ParseInt.sign_and_rest _) as [sign s1].
  destruct (ParseInt.radix_and_rest _) as [R s2].
  destruct (ParseInt.digits _ _ _) as [n|]; [|done]. apply of_Z_is_double.
Qed.

(** Up to 53 bits nothing is rounded. *)
Lemma of_Z_exact z : Z.abs z < 2 ^ 53 → Double.of_Z z = Int z.
Proof.
  intros Hz. unfold Double.of_Z, Double.nearest.
  assert (Z.log2 (Z.abs z) < 53) as Hlog.
  { destruct (decide (z = 0)) as [->|Hne]; [done|].
    apply Z.log2_lt_pow2; lia. }
  rewrite (bool_decide_eq_true_2 (Z.log2 (Z.abs z) + 1 ≤ 53)) by lia.
  rewrite bool_decide_eq_false_2.
  - f_equal. destruct z; cbn [Z.sgn]; lia.
  - assert (2 ^ 53 < 2 ^ 1024) by done. lia.
Qed.

Example parseInt_rounds : parseInt "9007199254740993" = Int 9007199254740992.
Proof. by vm_compute. Qed.

Example parseInt_ties_to_even : parseInt "-9007199254740995" = Int (-9007199254740996).
Proof. by vm_compute. Qed.

Example parseInt_overflows :
  parseInt (string_of_list_ascii (replicate 400 "9"%char)) = Infinity false.
Proof. by vm_compute. Qed.

(** Two fields that read as one double are not in order. *)
Example equal_doubles_are_not_in_order :
  js_ge (parseInt "9007199254740992") (parseInt "9007199254740993") = true.
Proof. by vm_compute. Qed.

Example toString_pads_with_zeros :
  Double.toString (Int (2 ^ 64)) = "18446744073709552000".
Proof. by vm_compute. Qed.

Example toString_exponent_form :
  Double.toString (Int (10 ^ 21)) = "1e+21"
  ∧ Double.toString (Int (2 ^ 100)) = "1.2676506002282294e+30".
Proof. by vm_compute. Qed.

(** ** The document under property writes *)

#[global] Instance with_classList_stable g : IdStable (DOM.with_classList g).
Proof. by intros []. Qed.
#[global] Instance with_textContent_stable s : IdStable (DOM.with_textContent s).
Proof. by intros []. Qed.
#[global] Instance with_display_stable s : IdStable (DOM.with_display s).
Proof. by intros []. Qed.
#[global] Instance with_disabled_stable b : IdStable (DOM.with_disabled b).
Proof. by intros []. Qed.
#[global] Instance with_href_stable s : IdStable (DOM.with_href s).
Proof. by intros []. Qed.
#[global] Instance compose_stable f g :
  IdStable f → IdStable g → IdStable (f ∘ g).
Proof. intros Hf Hg e. simpl. by rewrite Hf, Hg. Qed.

Lemma find_id_lookup i d n :
  DOM.find_id i d = Some n → ∃ e, d !! n = Some e ∧ el_id e = Some i.
Proof.
  revert n. induction d as [|e d IH]; intros n; simpl; [done|].
  case_bool_decide as He.
  - intros [= <-]. by exists e.
  - destruct (DOM.find_id i d) as [m|]; simpl; [|done].
    intros [= <-]. by apply IH.
Qed.

Lemma find_id_alter f `{!IdStable f} i n d :
  DOM.find_id i (alter f n d) = DOM.find_id i d.
Proof.
  revert n. induction d as [|e d IH]; intros [|n]; simpl; try done.
  - by rewrite id_stable.
  - by rewrite <- (IH n).
Qed.

Lemma find_id_distinct i j d n m :
  i ≠ j → DOM.find_id i d = Some n → DOM.find_id j d = Some m → n ≠ m.
Proof.
  intros Hij (e & He & Hi)%find_id_lookup (e' & He' & Hj)%find_id_lookup ->.
  congruence.
Qed.

Lemma present_element w i : present w i ↔ is_Some (element w i).
Proof.
  unfold present, element. split.
  - intros [n Hn]. rewrite Hn. simpl.
    destruct (find_id_lookup _ _ _ Hn) as (e & -> & _). by eexists.
  - intros [e He]. destruct (DOM.find_id i (document w)); [by eexists|done].
Qed.

Lemma find_id_upd_id f `{!IdStable f} i j w :
  DOM.find_id j (document (upd_id i f w)) = DOM.find_id j (document w).
Proof.
  unfold upd_id. simpl. destruct (DOM.find_id i (document w)); [|done].
  by apply find_id_alter.
Qed.

Lemma present_upd_id f `{!IdStable f} i j w :
  present (upd_id i f w) j ↔ present w j.
Proof. unfold present. by rewrite find_id_upd_id. Qed.

Lemma element_upd_id f `{!IdStable f} i j w :
  element (upd_id i f w) j
  = if decide (i = j) then f <$> element w j else element w j.
Proof.
  unfold element. rewrite find_id_upd_id by done. unfold upd_id. simpl.
  destruct (DOM.find_id j (document w)) as [m|] eqn:Hj; simpl.
  - case_decide as Hij.
    + subst i. rewrite Hj. apply list_lookup_alter_eq.
    + destruct (DOM.find_id i (document w)) as [n|] eqn:Hi; [|done].
      apply list_lookup_alter_ne. eauto using find_id_distinct.
  - by case_decide.
Qed.

Lemma element_upd_id_eq f `{!IdStable f} i w :
  element (upd_id i f w) i = f <$> element w i.
Proof. rewrite element_upd_id by done. by rewrite decide_True. Qed.

Lemma element_upd_id_ne f `{!IdStable f} i j w :
  i ≠ j → element (upd_id i f w) j = element w j.
Proof. intros. rewrite element_upd_id by done. by rewrite decide_False. Qed.

(** Positions other than the one carrying [i] keep their element. *)
Lemma lookup_upd_id f i w n :
  DOM.find_id i (document w) ≠ Some n →
  document (upd_id i f w) !! n = document w !! n.
Proof.
  unfold upd_id. simpl. destruct (DOM.find_id i (document w)) as [m|]; [|done].
  intros Hne. apply list_lookup_alter_ne. congruence.
Qed.

Lemma upd_id_compose f g i w `{!IdStable g} :
  upd_id i f (upd_id i g w) = upd_id i (f ∘ g) w.
Proof.
  unfold upd_id, with_document. simpl. f_equal.
  destruct (DOM.find_id i (document w)) as [n|] eqn:Hi.
  - rewrite find_id_alter, Hi by done. apply list_alter_alter_eq.
  - by rewrite Hi.
Qed.

(** ** Running a script step by step *)

Lemma bind_normal {A B} (m : M A) (k : A → M B) w a w' :
  m w = (Normal a, w') → (x <- m ;; k x) w = k a w'.
Proof. unfold bind. by intros ->. Qed.

Lemma bind_throw {A B} (m : M A) (k : A → M B) w e w' :
  m w = (Throw e, w') → (x <- m ;; k x) w = (Throw e, w').
Proof. unfold bind. by intros ->. Qed.

Lemma try_catch_normal {A} (body : M A) handler w a w' :
  body w = (Normal a, w') → try_catch body handler w = (Normal a, w').
Proof. unfold try_catch. by intros ->. Qed.

Lemma try_catch_throw {A} (body : M A) handler w e w' :
  body w = (Throw e, w') → try_catch body handler w = handler e w'.
Proof. unfold try_catch. by intros ->. Qed.

Lemma try_finally_run {A} (body : M A) final w c w' w'' :
  body w = (c, w') → final w' = (Normal tt, w'') →
  try_finally body final w = (c, w'').
Proof. unfold try_finally. by intros -> ->. Qed.

Lemma to_string_run v s w : ToString v = Some s → to_string v w = (Normal s, w).
Proof. unfold to_string. by intros ->. Qed.

(** One step of a script whose first statement reads a value known by [H]. *)
Ltac step_lift H :=
  erewrite bind_normal by (unfold lift; rewrite H; reflexivity).

Ltac step_to_string H :=
  erewrite bind_normal by (apply to_string_run, H).

Lemma getElementById_run i w :
  Node.getElementById i w = (Normal (DOM.find_id i (document w)), w).
Proof. done. Qed.

Lemma write_run i node err f w :
  DOM.find_id i (document w) = node → is_Some node →
  Node.write node err f w = (Normal tt, upd_id i f w).
Proof.
  intros <- [n Hn]. rewrite Hn. unfold Node.write, modify, upd_id, with_document.
  simpl. by rewrite Hn.
Qed.

Lemma set_textContent_run i node v s w :
  DOM.find_id i (document w) = node → is_Some node →
  match v with JUndefined | JNull => Some "" | _ => ToString v end = Some s →
  Node.set_textContent node v w = (Normal tt, upd_id i (DOM.with_textContent s) w).
Proof.
  intros Hi Hnode Hs. unfold Node.set_textContent.
  destruct Hnode as [n ->].
  assert (match v with
          | JUndefined | JNull => ret ""
          | _ => to_string v
          end w = (Normal s, w)) as Hconv.
  { unfold to_string. destruct v; simplify_eq/=; try done; by rewrite Hs. }
  rewrite (bind_normal _ _ _ _ _ Hconv). by apply write_run.
Qed.

Arguments upd_id : simpl never.

(** Discharges [find_id i (document w') = node] where [w'] is the page after
    some writes and [node] was looked up before them. *)
Ltac same_node :=
  cbn; rewrite ?find_id_upd_id by apply _; cbn; first [eassumption | reflexivity].

Lemma element_with_event ev w i : element (with_event ev w) i = element w i.
Proof. done. Qed.

(** Reads an element off a page given as a stack of writes. *)
Ltac read_element :=
  repeat first
    [ rewrite element_upd_id_eq by apply _
    | rewrite element_upd_id_ne by first [apply _ | done]
    | rewrite element_with_event ].

Ltac found :=
  unfold present;
  repeat (progress (cbn; rewrite ?find_id_upd_id by apply _));
  first [eassumption | by eexists].

(** ** What no statement undoes

    No statement of [script.js] touches an id, creates or removes an
    element, or takes back a request once made.  So however the script
    ends, each id still names the position it named before (which is what
    lets a reference taken early, like the constants at the top of the
    script, be used late, as in its [finally] block), and the trace has only
    grown. *)

#[global] Instance advances_preorder : PreOrder advances.
Proof.
  split.
  - by intros w.
  - intros w1 w2 w3 [Hi1 He1] [Hi2 He2]. split; [congruence|by etrans].
Qed.

(** What is on the trace stays on it. *)
Lemma sent_stays (l l' : list Event) ev : (l ++ [ev]) `prefix_of` l' → ev ∈ l'.
Proof.
  intros [evs ->]. rewrite !elem_of_app, list_elem_of_singleton. by left; right.
Qed.

Lemma find_id_fmap i (d d' : list Element) :
  el_id <$> d = el_id <$> d' → DOM.find_id i d = DOM.find_id i d'.
Proof.
  revert d'. induction d as [|e d IH]; intros [|e' d']; simpl; try done.
  intros [= He Hd]. rewrite He. by rewrite (IH d').
Qed.

Lemma find_id_ids i w w' :
  ids w = ids w' → DOM.find_id i (document w) = DOM.find_id i (document w').
Proof. apply find_id_fmap. Qed.

Lemma fmap_id_alter f `{!IdStable f} n (d : list Element) :
  el_id <$> alter f n d = el_id <$> d.
Proof.
  revert n. induction d as [|e d IH]; intros [|n]; simpl; try done.
  - by rewrite id_stable.
  - f_equal. apply IH.
Qed.

Lemma ids_upd_id f `{!IdStable f} i w : ids (upd_id i f w) = ids w.
Proof.
  unfold ids, upd_id. simpl. destruct (DOM.find_id i (document w)); [|done].
  by apply fmap_id_alter.
Qed.

Section Steady.
Context {A B : Type}.

Lemma steady_ret (a : A) : steady (ret a).
Proof. by intros w. Qed.

Lemma steady_throw e : steady (@throw A e).
Proof. by intros w. Qed.

Lemma steady_lift (c : completion A) : steady (lift c).
Proof. by intros w. Qed.

Lemma steady_bind (m : M A) (k : A → M B) :
  steady m → (∀ a, steady (k a)) → steady (x <- m ;; k x).
Proof.
  intros Hm Hk w. unfold bind. specialize (Hm w).
  destruct (m w) as [[a|e] w']; simpl in *; [|done].
  by etrans; [|apply Hk].
Qed.

Lemma steady_try_catch (body : M A) handler :
  steady body → (∀ e, steady (handler e)) → steady (try_catch body handler).
Proof.
  intros Hm Hk w. unfold try_catch. specialize (Hm w).
  destruct (body w) as [[a|e] w']; simpl in *; [done|].
  by etrans; [|apply Hk].
Qed.

Lemma steady_try_finally (body : M A) final :
  steady body → steady final → steady (try_finally body final).
Proof.
  intros Hm Hk w. unfold try_finally. specialize (Hm w).
  destruct (body w) as [c w']. specialize (Hk w').
  destruct (final w') as [[[]|e] w'']; simpl in *; by etrans.
Qed.

Lemma steady_if (b : bool) (m1 m2 : M A) :
  steady m1 → steady m2 → steady (if b then m1 else m2).
Proof. by destruct b. Qed.

Lemma steady_read node err (f : Element → A) : steady (Node.read node err f).
Proof. intros w. unfold Node.read. by destruct (node ≫= _). Qed.

End Steady.

Lemma steady_emit ev : steady (emit ev).
Proof. intros w. split; [done|]. by apply prefix_app_r. Qed.

Lemma steady_getElementById i : steady (Node.getElementById i).
Proof. by intros w. Qed.

Lemma steady_to_string v : steady (to_string v).
Proof. intros w. unfold to_string. by destruct (ToString v). Qed.

Lemma steady_write node err f `{!IdStable f} : steady (Node.write node err f).
Proof.
  intros w. destruct node as [n|]; [|done]. split; [|done]. unfold ids. simpl.
  by apply fmap_id_alter.
Qed.

Lemma steady_set_textContent node v : steady (Node.set_textContent node v).
Proof.
  destruct node as [n|]; [|by intros w]. unfold Node.set_textContent.
  apply steady_bind.
  - destruct v; first [apply steady_ret | apply steady_to_string].
  - intros s. apply steady_write, _.
Qed.

Lemma steady_fetch env req : steady (fetch env req).
Proof. apply steady_bind; [apply steady_emit|]. intros _. apply steady_lift. Qed.

Lemma steady_call_toLocaleString env v : steady (call_toLocaleString env v).
Proof.
  intros w. unfold call_toLocaleString.
  destruct v; try done; by destruct (toLocaleString _ _).
Qed.

Lemma steady_set_className node s : steady (Node.set_className node s).
Proof. apply steady_write, _. Qed.

Lemma steady_classList_add node tok : steady (Node.classList_add node tok).
Proof. apply steady_write, _. Qed.

Lemma steady_classList_remove node tok : steady (Node.classList_remove node tok).
Proof. apply steady_write, _. Qed.

Lemma steady_set_display node s : steady (Node.set_display node s).
Proof. apply steady_write, _. Qed.

Lemma steady_set_disabled node b : steady (Node.set_disabled node b).
Proof. apply steady_write, _. Qed.

Lemma steady_set_href node s : steady (Node.set_href node s).
Proof. apply steady_write, _. Qed.

Create HintDb steady discriminated.
#[global] Hint Resolve steady_ret steady_throw steady_lift steady_bind
  steady_try_catch steady_try_finally steady_if steady_read steady_emit
  steady_getElementById steady_to_string steady_set_textContent steady_fetch
  steady_call_toLocaleString steady_set_className steady_classList_add
  steady_classList_remove steady_set_display steady_set_disabled
  steady_set_href : steady.

(** ** The generation panel *)

Section Panel.
Context (env : Env).

Lemma input_number_run w i text :
  field w i = Some text →
  Script.input_number i w = (Normal (parseInt text), w).
Proof.
  unfold field, element, Script.input_number, Node.getElementById,
    Node.get_value, Node.read, bind, ret.
  destruct (DOM.find_id i (document w)) as [n|]; simpl; [|done].
  destruct (document w !! n); simpl; [|done]. by intros [= ->].
Qed.

Lemma showStatus_run w message type :
  present w "status" →
  Script.showStatus message type w
  = (Normal tt, upd_id "status" (status_el message type) w).
Proof.
  intros Hs. unfold Script.showStatus, Script.statusDiv.
  rewrite (bind_normal _ _ _ _ _ (getElementById_run _ _)).
  erewrite bind_normal
    by (apply (set_textContent_run "status"); [same_node | found | done]).
  unfold Node.set_className, Node.classList_remove.
  erewrite bind_normal by (apply (write_run "status"); [same_node | found]).
  erewrite write_run by first [same_node | found].
  by rewrite !upd_id_compose by apply _.
Qed.

Lemma status_shows_upd w message type :
  present w "status" →
  DOM.remove_token "hidden" (DOM.tokens ("status " +:+ type)) = ["status"; type] →
  status_shows (upd_id "status" (status_el message type) w) message type.
Proof.
  intros [e He]%present_element Htok. exists (status_el message type e).
  rewrite element_upd_id_eq, He by apply _. split; [done|]. split; [done|].
  done.
Qed.

Lemma click_rejected w tmin tmax attempts :
  inputs w tmin tmax attempts →
  present w "status" →
  js_ge (parseInt tmin) (parseInt tmax) = true →
  Script.onGenerateClick env w
  = (Normal tt, upd_id "status" (status_el validation_message "error") w).
Proof.
  intros (Hmin & Hmax & Hatt) Hs Hge. unfold Script.onGenerateClick.
  rewrite (bind_normal _ _ _ _ _ (input_number_run _ _ _ Hmin)).
  rewrite (bind_normal _ _ _ _ _ (input_number_run _ _ _ Hmax)).
  rewrite (bind_normal _ _ _ _ _ (input_number_run _ _ _ Hatt)).
  rewrite Hge. by apply showStatus_run.
Qed.

(** C1: when the parsed minimum is at least the parsed maximum, the click
    handler completes having shown the error status and nothing else: no
    request is sent (the trace of requests, prompts and alerts is as
    before), every element other than the status line is as it was (so
    the button is still enabled, the loader still hidden, the results
    panel as visible as before), and storage, navigation and session user
    are unchanged. *)
Theorem click_rejects_unordered_targets w tmin tmax attempts :
  inputs w tmin tmax attempts →
  present w "status" →
  js_ge (parseInt tmin) (parseInt tmax) = true →
  ∃ w',
    Script.onGenerateClick env w = (Normal tt, w')
    ∧ status_shows w' validation_message "error"
    ∧ events w' = events w
    ∧ (∀ i, i ≠ "status" → element w' i = element w i)
    ∧ (∀ n, DOM.find_id "status" (document w) ≠ Some n →
            document w' !! n = document w !! n)
    ∧ localStorage w' = localStorage w
    ∧ navigation w' = navigation w
    ∧ navUser w' = navUser w.
Proof.
  intros Hin Hs Hge. eexists.
  split; [by apply (click_rejected _ tmin tmax attempts)|].
  split; [by apply status_shows_upd|]. split; [done|].
  split; [intros i Hi; by apply element_upd_id_ne; [apply _|]|].
  split; [intros n Hn; by apply lookup_upd_id|]. done.
Qed.

(** *** A dispatched request *)

Lemma steady_showStatus message type : steady (Script.showStatus message type).
Proof. unfold Script.showStatus, Script.statusDiv. eauto 10 with steady. Qed.

Lemma steady_show_field i key data : steady (Script.show_field i key data).
Proof. unfold Script.show_field. eauto 10 with steady. Qed.

Lemma steady_displayResults data : steady (Script.displayResults env data).
Proof.
  unfold Script.displayResults, Script.resultsDiv.
  eauto 40 using steady_show_field with steady.
Qed.

Lemma steady_generate_catch e : steady (Script.generate_catch e).
Proof. unfold Script.generate_catch. eauto 10 using steady_showStatus with steady. Qed.

Lemma generate_try_fetches a b c w :
  Script.generate_try env a b c w
  = after_fetch env (network env (Script.generate_request env a b c))
      (with_event (EvFetch (Script.generate_request env a b c)) w).
Proof. done. Qed.

Lemma steady_after_fetch outcome : steady (after_fetch env outcome).
Proof.
  unfold after_fetch.
  eauto 20 using steady_showStatus, steady_displayResults with steady.
Qed.

Lemma ids_loading w : ids (loading w) = ids w.
Proof. unfold loading. by rewrite !ids_upd_id by apply _. Qed.

(** Past the validation, the handler is its [try] statement run on the
    loading page. *)
Lemma click_dispatched w tmin tmax attempts :
  inputs w tmin tmax attempts →
  panel_ready w →
  js_ge (parseInt tmin) (parseInt tmax) = false →
  Script.onGenerateClick env w
  = try_finally
      (try_catch
         (Script.generate_try env (parseInt tmin) (parseInt tmax) (parseInt attempts))
         Script.generate_catch)
      (Script.generate_finally
         (DOM.find_id "generateBtn" (document w))
         (DOM.find_id "btnText" (document w))
         (DOM.find_id "btnLoader" (document w)))
      (loading w).
Proof.
  intros (Hmin & Hmax & Hatt) (Hbtn & Htext & Hloader & Hres & Hs) Hge.
  unfold Script.onGenerateClick.
  rewrite (bind_normal _ _ _ _ _ (input_number_run _ _ _ Hmin)).
  rewrite (bind_normal _ _ _ _ _ (input_number_run _ _ _ Hmax)).
  rewrite (bind_normal _ _ _ _ _ (input_number_run _ _ _ Hatt)).
  rewrite Hge.
  unfold Script.generateBtn, Script.btnText, Script.btnLoader, Script.resultsDiv.
  rewrite !(bind_normal _ _ _ _ _ (getElementById_run _ _)).
  unfold Node.set_disabled, Node.set_display, Node.classList_add.
  erewrite bind_normal by (apply (write_run "generateBtn"); [same_node | found]).
  erewrite bind_normal by (apply (write_run "btnText"); [same_node | found]).
  erewrite bind_normal by (apply (write_run "btnLoader"); [same_node | found]).
  erewrite bind_normal by (apply (write_run "results"); [same_node | found]).
  erewrite bind_normal
    by (apply showStatus_run; unfold present; by rewrite !find_id_upd_id by apply _).
  done.
Qed.

Lemma generate_finally_run w0 w :
  ids w = ids w0 → panel_ready w0 →
  Script.generate_finally
    (DOM.find_id "generateBtn" (document w0))
    (DOM.find_id "btnText" (document w0))
    (DOM.find_id "btnLoader" (document w0)) w
  = (Normal tt, idle w).
Proof.
  intros Hids (Hbtn & Htext & Hloader & _).
  rewrite <- !(find_id_ids _ _ _ Hids).
  unfold present in *. rewrite <- !(find_id_ids _ _ _ Hids) in *.
  unfold Script.generate_finally, Node.set_disabled, Node.set_display.
  erewrite bind_normal by (apply (write_run "generateBtn"); [same_node | found]).
  erewrite bind_normal by (apply (write_run "btnText"); [same_node | found]).
  erewrite write_run by first [same_node | found]. done.
Qed.

(** However the [try] statement ends, the handler ends on its outcome,
    with the request on the trace and the page put back at rest. *)
Lemma click_settles w tmin tmax attempts :
  inputs w tmin tmax attempts →
  panel_ready w →
  js_ge (parseInt tmin) (parseInt tmax) = false →
  let req :=
    Script.generate_request env (parseInt tmin) (parseInt tmax) (parseInt attempts) in
  ∃ c w1,
    try_catch (after_fetch env (network env req)) Script.generate_catch
      (with_event (EvFetch req) (loading w)) = (c, w1)
    ∧ Script.onGenerateClick env w = (c, idle w1)
    ∧ ids w1 = ids w
    ∧ (events w ++ [EvFetch req])%list `prefix_of` events w1.
Proof.
  intros Hin Hready Hge req.
  pose proof (steady_try_catch _ _ (steady_after_fetch (network env req))
                steady_generate_catch (with_event (EvFetch req) (loading w)))
    as [Hids Hev].
  destruct (try_catch _ _ _) as [c w1] eqn:Hrun. simpl in Hids, Hev.
  exists c, w1. split; [done|].
  assert (ids w1 = ids w) as Hids' by (rewrite Hids; apply ids_loading).
  split; [|done].
  rewrite (click_dispatched _ _ _ _ Hin Hready Hge).
  eapply try_finally_run; [|by apply generate_finally_run].
  unfold try_catch. rewrite generate_try_fetches. apply Hrun.
Qed.

Lemma present_ids w w' i : ids w' = ids w → present w i → present w' i.
Proof. unfold present. intros Hids. by rewrite (find_id_ids _ _ _ Hids). Qed.

Lemma idle_controls w :
  present w "generateBtn" → present w "btnText" → present w "btnLoader" →
  disabled <$> element (idle w) "generateBtn" = Some false
  ∧ display <$> element (idle w) "btnText" = Some "inline"
  ∧ display <$> element (idle w) "btnLoader" = Some "none".
Proof.
  intros [e1 H1]%present_element [e2 H2]%present_element [e3 H3]%present_element.
  unfold idle. read_element. by rewrite H1, H2, H3.
Qed.

Lemma idle_other w i :
  i ≠ "generateBtn" → i ≠ "btnText" → i ≠ "btnLoader" →
  element (idle w) i = element w i.
Proof. intros. unfold idle. by read_element. Qed.

(** C5: once the validation is passed and the request sent, the handler
    ends with the button enabled again, the text label shown and the
    loader hidden, whatever the environment answers: a successful
    response, a reported failure, a rejected [fetch], a body that is not
    JSON, or a [catch] block that itself throws. *)
Theorem click_always_restores_controls w tmin tmax attempts :
  inputs w tmin tmax attempts →
  panel_ready w →
  js_ge (parseInt tmin) (parseInt tmax) = false →
  ∃ c w',
    Script.onGenerateClick env w = (c, w')
    ∧ EvFetch (Script.generate_request env (parseInt tmin) (parseInt tmax)
                 (parseInt attempts)) ∈ events w'
    ∧ disabled <$> element w' "generateBtn" = Some false
    ∧ display <$> element w' "btnText" = Some "inline"
    ∧ display <$> element w' "btnLoader" = Some "none".
Proof.
  intros Hin Hready Hge.
  destruct (click_settles _ _ _ _ Hin Hready Hge) as (c & w1 & _ & Hrun & Hids & Hev).
  exists c, (idle w1). split; [done|]. split.
  - change (events (idle w1)) with (events w1).
    by apply (sent_stays (events w)).
  - destruct Hready as (? & ? & ? & _).
    apply idle_controls; by apply (present_ids w).
Qed.

(** C2, as the script has it: the only check on the inputs is the order of
    the two parsed targets.  Targets out of order are caught before any
    request, with the status line the only thing changed (every other
    element, with an id or without, is as it was); the attempts field is
    never looked at, so with targets in order the request is sent whatever
    that field parses to, [NaN] included. *)
Theorem click_checks_only_the_order w tmin tmax attempts :
  inputs w tmin tmax attempts →
  panel_ready w →
  (js_ge (parseInt tmin) (parseInt tmax) = true →
   ∃ w',
     Script.onGenerateClick env w = (Normal tt, w')
     ∧ status_shows w' validation_message "error"
     ∧ events w' = events w
     ∧ (∀ i, i ≠ "status" → element w' i = element w i)
     ∧ (∀ n, DOM.find_id "status" (document w) ≠ Some n →
             document w' !! n = document w !! n)
     ∧ localStorage w' = localStorage w
     ∧ navigation w' = navigation w
     ∧ navUser w' = navUser w)
  ∧ (∀ lo hi,
       parseInt tmin = Int lo → parseInt tmax = Int hi → lo < hi →
       ∃ c w',
         Script.onGenerateClick env w = (c, w')
         ∧ EvFetch (Script.generate_request env (Int lo) (Int hi) (parseInt attempts))
             ∈ events w').
Proof.
  intros Hin Hready. split.
  - intros Hge. destruct Hready as (_ & _ & _ & _ & Hs). eexists.
    split; [by apply (click_rejected _ tmin tmax attempts)|].
    split; [by apply status_shows_upd|]. split; [done|].
    split; [intros i Hi; by apply element_upd_id_ne; [apply _|]|].
    split; [intros n Hn; by apply lookup_upd_id|]. done.
  - intros lo hi Hlo Hhi Hlt.
    assert (js_ge (parseInt tmin) (parseInt tmax) = false) as Hge.
    { rewrite Hlo, Hhi. simpl. apply bool_decide_eq_false. lia. }
    destruct (click_settles _ _ _ _ Hin Hready Hge) as (c & w1 & _ & Hrun & _ & Hev).
    exists c, (idle w1). split; [done|].
    change (events (idle w1)) with (events w1). rewrite <- Hlo, <- Hhi.
    by apply (sent_stays (events w)).
Qed.

(** A target that does not parse is no better caught: a comparison with
    [NaN] is false, so the handler goes on to the request. *)
Remark nan_target_passes_the_check w tmin tmax attempts :
  inputs w tmin tmax attempts →
  panel_ready w →
  parseInt tmin = NaN ∨ parseInt tmax = NaN →
  ∃ c w',
    Script.onGenerateClick env w = (c, w')
    ∧ EvFetch (Script.generate_request env (parseInt tmin) (parseInt tmax)
                 (parseInt attempts)) ∈ events w'.
Proof.
  intros Hin Hready Hnan.
  assert (js_ge (parseInt tmin) (parseInt tmax) = false) as Hge.
  { destruct Hnan as [-> | ->]; [done|]. by destruct (parseInt tmin) as [| |[]]. }
  destruct (click_settles _ _ _ _ Hin Hready Hge) as (c & w1 & _ & Hrun & _ & Hev).
  exists c, (idle w1). split; [done|].
  change (events (idle w1)) with (events w1).
  by apply (sent_stays (events w)).
Qed.

(** *** Failures *)

Lemma after_fetch_reported w resp result flag err text :
  present w "status" →
  json resp = Normal result →
  get_prop result "success" = Normal flag → truthy flag = false →
  get_prop result "error" = Normal err → ToString err = Some text →
  after_fetch env (Normal resp) w
  = (Normal tt, upd_id "status" (status_el (server_error_message text) "error") w).
Proof.
  intros Hs Hjson Hflag Hfalsy Herr Htext. unfold after_fetch.
  erewrite bind_normal by reflexivity.
  step_lift Hjson. step_lift Hflag. rewrite Hfalsy.
  step_lift Herr. step_to_string Htext. by apply showStatus_run.
Qed.

Lemma after_fetch_failed w outcome e :
  transport_failure outcome e → after_fetch env outcome w = (Throw e, w).
Proof.
  intros [->|(resp & -> & Hjson)]; unfold after_fetch; [done|].
  erewrite bind_normal by reflexivity.
  erewrite bind_throw by (unfold lift; rewrite Hjson; reflexivity). done.
Qed.

Lemma generate_catch_run w e m text :
  present w "status" →
  get_prop e "message" = Normal m → ToString m = Some text →
  Script.generate_catch e w
  = (Normal tt,
     upd_id "status" (status_el (connection_error_message text) "error") w).
Proof.
  intros Hs Hm Htext. unfold Script.generate_catch.
  step_lift Hm. step_to_string Htext. by apply showStatus_run.
Qed.

Lemma present_loading w i : present (loading w) i ↔ present w i.
Proof. unfold loading. by rewrite !present_upd_id by apply _. Qed.

Lemma status_shows_idle w message type :
  status_shows (idle w) message type ↔ status_shows w message type.
Proof. unfold status_shows. by rewrite idle_other. Qed.

(** C4: a response whose [success] is false (or anything falsy) puts the
    server's [error], as text, in the status line after the words
    of a reported error; a request that came to nothing (a rejected
    [fetch], a body that is not JSON) puts there the exception's
    [message] between the words of a connection failure and the hint to
    check that the backend is started. *)
Theorem failures_are_told_apart w tmin tmax attempts :
  inputs w tmin tmax attempts →
  panel_ready w →
  js_ge (parseInt tmin) (parseInt tmax) = false →
  let outcome :=
    network env (Script.generate_request env (parseInt tmin) (parseInt tmax)
                   (parseInt attempts)) in
  (∀ resp result flag err text,
     outcome = Normal resp → json resp = Normal result →
     get_prop result "success" = Normal flag → truthy flag = false →
     get_prop result "error" = Normal err → ToString err = Some text →
     ∃ w', Script.onGenerateClick env w = (Normal tt, w')
           ∧ status_shows w' (server_error_message text) "error")
  ∧ (∀ e m text,
       transport_failure outcome e →
       get_prop e "message" = Normal m → ToString m = Some text →
       ∃ w', Script.onGenerateClick env w = (Normal tt, w')
             ∧ status_shows w' (connection_error_message text) "error").
Proof.
  intros Hin Hready Hge outcome.
  destruct (click_settles _ _ _ _ Hin Hready Hge) as (c & w1 & Htry & Hrun & _).
  fold outcome in Htry.
  assert (present (with_event
                     (EvFetch (Script.generate_request env (parseInt tmin)
                                 (parseInt tmax) (parseInt attempts)))
                     (loading w)) "status") as Hs.
  { apply (present_loading w). by destruct Hready as (_ & _ & _ & _ & ?). }
  split.
  - intros resp result flag err text Hout Hjson Hflag Hfalsy Herr Htext.
    rewrite Hout in Htry.
    erewrite try_catch_normal in Htry by (by eapply after_fetch_reported).
    injection Htry as <- <-. eexists. split; [done|].
    apply status_shows_idle. by apply status_shows_upd.
  - intros e m text Hfail Hm Htext.
    erewrite try_catch_throw in Htry by (by apply after_fetch_failed).
    erewrite generate_catch_run in Htry by done.
    injection Htry as <- <-. eexists. split; [done|].
    apply status_shows_idle. by apply status_shows_upd.
Qed.

(** *** Success *)

Lemma ToString_numeric x : ToString (numeric_val x) = Some (numeric_text x).
Proof. by destruct x as [n|text]. Qed.

Lemma call_toLocaleString_numeric x w :
  call_toLocaleString env (numeric_val x) w
  = (Normal (locale env (numeric_val x)), w).
Proof. by destruct x as [n|text]. Qed.

Lemma show_field_run w i key data v s :
  present w i →
  get_prop data key = Normal v →
  match v with JUndefined | JNull => Some "" | _ => ToString v end = Some s →
  Script.show_field i key data w = (Normal tt, upd_id i (DOM.with_textContent s) w).
Proof.
  intros Hi Hv Hs. unfold Script.show_field.
  rewrite (bind_normal _ _ _ _ _ (getElementById_run _ _)).
  step_lift Hv. by apply (set_textContent_run i).
Qed.

Lemma show_string_run w i key data s :
  present w i → get_prop data key = Normal (JStr s) →
  Script.show_field i key data w = (Normal tt, upd_id i (DOM.with_textContent s) w).
Proof. intros. by eapply show_field_run. Qed.

Lemma show_number_run w i key data x :
  present w i → get_prop data key = Normal (numeric_val x) →
  Script.show_field i key data w
  = (Normal tt, upd_id i (DOM.with_textContent (numeric_text x)) w).
Proof. intros. eapply show_field_run; [done..|]. by destruct x as [n|text]. Qed.

Lemma displayResults_run w data r :
  results_ready w → present w "results" → carries data r →
  Script.displayResults env data w = (Normal tt, displayed env r w).
Proof.
  intros (? & ? & ? & ? & ? & ? & ? & ? & ? & ? & ?) ?
         (Hfen & Hwhite & Hblack & Hdiff & Hturn & He1 & He2 & Hatt & Htime).
  unfold Script.displayResults, Script.resultsDiv.
  erewrite bind_normal by (apply show_string_run; [found | done]).
  erewrite bind_normal by (apply show_number_run; [found | done]).
  erewrite bind_normal by (apply show_number_run; [found | done]).
  erewrite bind_normal by (apply show_number_run; [found | done]).
  erewrite bind_normal by (apply show_string_run; [found | done]).
  erewrite bind_normal by (apply show_string_run; [found | done]).
  erewrite bind_normal by (apply show_string_run; [found | done]).
  erewrite bind_normal.
  2:{ rewrite (bind_normal _ _ _ _ _ (getElementById_run _ _)).
      step_lift Hatt.
      rewrite (bind_normal _ _ _ _ _ (call_toLocaleString_numeric _ _)).
      apply (set_textContent_run "attempts"); [same_node | found | done]. }
  erewrite bind_normal.
  2:{ rewrite (bind_normal _ _ _ _ _ (getElementById_run _ _)).
      step_lift Htime. step_to_string (ToString_numeric (time_seconds r)).
      apply (set_textContent_run "timeSeconds"); [same_node | found | done]. }
  step_lift Hfen. erewrite bind_normal by reflexivity.
  unfold Node.set_href, Node.classList_remove.
  erewrite bind_normal.
  2:{ rewrite (bind_normal _ _ _ _ _ (getElementById_run _ _)).
      apply (write_run "lichessLink"); [same_node | found]. }
  erewrite bind_normal.
  2:{ rewrite (bind_normal _ _ _ _ _ (getElementById_run _ _)).
      apply (write_run "chesscomLink"); [same_node | found]. }
  rewrite (bind_normal _ _ _ _ _ (getElementById_run _ _)).
  erewrite write_run by first [same_node | found]. done.
Qed.

Lemma after_fetch_succeeded w resp result flag data r :
  results_ready w → present w "results" → present w "status" →
  json resp = Normal result →
  get_prop result "success" = Normal flag → truthy flag = true →
  get_prop result "data" = Normal data → carries data r →
  after_fetch env (Normal resp) w
  = (Normal tt, upd_id "status" (status_el success_message "success") (displayed env r w)).
Proof.
  intros Hres Hpanel Hs Hjson Hflag Htruthy Hdata Hr. unfold after_fetch.
  erewrite bind_normal by reflexivity.
  step_lift Hjson. step_lift Hflag. rewrite Htruthy. step_lift Hdata.
  erewrite bind_normal by (by apply displayResults_run).
  apply showStatus_run. unfold displayed. found.
Qed.

Lemma remove_token_not_elem tok l : tok ∉ DOM.remove_token tok l.
Proof. unfold DOM.remove_token. by intros [Hne _]%list_elem_of_filter. Qed.

(** C3: on a response whose [success] is truthy and whose [data] is a
    well-formed report, the handler completes with every field of the
    results view showing the field of the report it is named after (a
    string as it is, a number as its text), except that the attempts are
    formatted by the locale and the time is followed by [s]; both analysis
    links are their fixed prefix followed by the percent-encoded FEN; the
    results panel is no longer hidden and the status line tells the
    success. *)
Theorem success_shows_the_report w tmin tmax tries resp result flag data r :
  inputs w tmin tmax tries →
  panel_ready w →
  results_ready w →
  js_ge (parseInt tmin) (parseInt tmax) = false →
  network env (Script.generate_request env (parseInt tmin) (parseInt tmax)
                 (parseInt tries)) = Normal resp →
  json resp = Normal result →
  get_prop result "success" = Normal flag → truthy flag = true →
  get_prop result "data" = Normal data → carries data r →
  ∃ w',
    Script.onGenerateClick env w = (Normal tt, w')
    ∧ text w' "fenText" = Some (fen r)
    ∧ text w' "whiteMaterial" = Some (numeric_text (white_material r))
    ∧ text w' "blackMaterial" = Some (numeric_text (black_material r))
    ∧ text w' "materialDiff" = Some (numeric_text (material_difference r))
    ∧ text w' "turn" = Some (turn r)
    ∧ text w' "evalLine1" = Some (eval_line1 r)
    ∧ text w' "evalLine2" = Some (eval_line2 r)
    ∧ text w' "attempts" = Some (locale env (numeric_val (attempts r)))
    ∧ text w' "timeSeconds" = Some (numeric_text (time_seconds r) +:+ "s")
    ∧ link w' "lichessLink" = Some (lichess_url (fen r))
    ∧ link w' "chesscomLink" = Some (chesscom_url (fen r))
    ∧ revealed w' "results"
    ∧ status_shows w' success_message "success".
Proof.
  intros Hin Hready Hres Hge Hout Hjson Hflag Htruthy Hdata Hr.
  destruct (click_settles _ _ _ _ Hin Hready Hge) as (c & w1 & Htry & Hrun & _).
  rewrite Hout in Htry.
  assert (∀ i, present w i →
               present (with_event
                          (EvFetch (Script.generate_request env (parseInt tmin)
                                      (parseInt tmax) (parseInt tries)))
                          (loading w)) i) as Hkeep.
  { intros i Hi. by apply (present_loading w). }
  erewrite try_catch_normal in Htry.
  2:{ destruct Hready as (_ & _ & _ & Hpanel & Hs).
      destruct Hres as (? & ? & ? & ? & ? & ? & ? & ? & ? & ? & ?).
      eapply after_fetch_succeeded; try done; [|by apply Hkeep..].
      repeat split; by apply Hkeep. }
  injection Htry as <- <-. eexists. split; [done|].
  destruct Hready as (_ & _ & _ & [e0 He0]%present_element & Hs).
  destruct Hres as ([e1 He1]%present_element & [e2 He2]%present_element
    & [e3 He3]%present_element & [e4 He4]%present_element
    & [e5 He5]%present_element & [e6 He6]%present_element
    & [e7 He7]%present_element & [e8 He8]%present_element
    & [e9 He9]%present_element & [e10 He10]%present_element
    & [e11 He11]%present_element).
  unfold text, link, revealed, idle, displayed, loading.
  repeat split.
  1-11: read_element;
    first [by rewrite He1 | by rewrite He2 | by rewrite He3 | by rewrite He4
          | by rewrite He5 | by rewrite He6 | by rewrite He7 | by rewrite He8
          | by rewrite He9 | by rewrite He10 | by rewrite He11].
  - read_element. rewrite He0. eexists. split; [done|].
    apply remove_token_not_elem.
  - apply status_shows_idle. apply status_shows_upd; [|done].
    unfold displayed, loading. found.
Qed.

End Panel.

(** ** The navigation bar *)

Section Bar.
Context (env : Env).

(** *** Logging out *)

(** C7: when the user declines the prompt, the handler returns at once.
    The prompt is all that happened: no request was sent and
    [setPlayerOffline] was not called (the trace has the prompt and
    nothing more), and the local storage, the pending navigation, the
    document and the session user are as they were. *)
Theorem declined_logout_does_nothing w :
  confirm_answer env logout_prompt = false →
  ∃ w',
    Navbar.handleNavLogout env w = (Normal tt, w')
    ∧ events w' = (events w ++ [EvConfirm logout_prompt])%list
    ∧ localStorage w' = localStorage w
    ∧ navigation w' = navigation w
    ∧ document w' = document w
    ∧ navUser w' = navUser w.
Proof.
  intros Hno. exists (asked w). split; [|done]. unfold logout_prompt in Hno.
  unfold Navbar.handleNavLogout, confirm, bind, emit, modify, ret.
  by rewrite Hno.
Qed.

(** Past the prompt, the handler is its [try] statement. *)
Lemma logout_confirmed w :
  confirm_answer env logout_prompt = true →
  Navbar.handleNavLogout env w
  = try_catch
      (Navbar.call_setPlayerOffline env ;;
       response <- fetch env (Navbar.logout_request env) ;;
       data <- lift (json response) ;;
       success <- lift (get_prop data "success") ;;
       if truthy success then
         modify (with_localStorage ∅) ;;
         modify (with_navigation "auth.html")
       else
         error <- lift (get_prop data "error") ;;
         error <- to_string error ;;
         alert ("Erreur de déconnexion: " +:+ error))
      (λ error,
         console_error "❌ Erreur:" error ;;
         alert "Erreur de connexion au serveur")
      (asked w).
Proof.
  intros Hyes. unfold logout_prompt in Hyes.
  unfold Navbar.handleNavLogout, confirm.
  unfold bind at 1 2. unfold emit, modify, ret. by rewrite Hyes.
Qed.

(** C8: when the user confirms, [setPlayerOffline] (if the page defines
    it) completes, and the logout endpoint answers with a truthy
    [success], the handler sends the logout request, empties the local
    storage and sends the browser to the authentication page. *)
Theorem confirmed_logout_clears_and_leaves w w1 resp data flag :
  confirm_answer env logout_prompt = true →
  Navbar.call_setPlayerOffline env (asked w) = (Normal tt, w1) →
  network env (Navbar.logout_request env) = Normal resp →
  json resp = Normal data →
  get_prop data "success" = Normal flag → truthy flag = true →
  ∃ w',
    Navbar.handleNavLogout env w = (Normal tt, w')
    ∧ events w' = (events w1 ++ [EvFetch (Navbar.logout_request env)])%list
    ∧ localStorage w' = ∅
    ∧ navigation w' = Some "auth.html".
Proof.
  intros Hyes Hhook Hnet Hjson Hflag Htruthy.
  rewrite (logout_confirmed _ Hyes). eexists. split.
  - apply try_catch_normal.
    rewrite (bind_normal _ _ _ _ _ Hhook).
    erewrite bind_normal by (unfold fetch, bind, emit, modify, lift;
                             rewrite Hnet; reflexivity).
    step_lift Hjson. step_lift Hflag. rewrite Htruthy. reflexivity.
  - done.
Qed.

(** C10: when the user confirms and the page's [setPlayerOffline] throws
    (or the promise it returns is rejected), the handler goes straight to
    its [catch] block: after whatever the hook itself did, it logs the
    error and shows the alert of a connection failure, and that is all.
    No logout request follows, the local storage and the pending
    navigation stay as the hook left them. *)
Theorem failed_hook_skips_logout w hook e w1 :
  confirm_answer env logout_prompt = true →
  setPlayerOffline env = Some hook →
  hook (with_event (EvCall "setPlayerOffline") (asked w)) = (Throw e, w1) →
  ∃ w',
    Navbar.handleNavLogout env w = (Normal tt, w')
    ∧ events w'
      = (events w1 ++ [EvConsoleError "❌ Erreur:" e;
                       EvAlert "Erreur de connexion au serveur"])%list
    ∧ localStorage w' = localStorage w1
    ∧ navigation w' = navigation w1
    ∧ document w' = document w1.
Proof.
  intros Hyes Hdef Hhook. rewrite (logout_confirmed _ Hyes). eexists. split.
  - erewrite try_catch_throw.
    2:{ apply bind_throw. unfold Navbar.call_setPlayerOffline. rewrite Hdef.
        unfold bind at 1. unfold emit, modify.
        apply bind_throw, Hhook. }
    reflexivity.
  - simpl. by rewrite <- app_assoc.
Qed.

(** *** The active link *)

Lemma link_body_run w n e :
  document w !! n = Some e →
  link_body env n w = (Normal tt, with_document (alter (mark env) n) w).
Proof.
  intros He. unfold link_body, Node.classList_remove, Node.getAttribute_href,
    Node.classList_add, Node.write, Node.read.
  unfold bind at 1. unfold modify. unfold bind. simpl.
  rewrite list_lookup_alter_eq, He. simpl.
  unfold with_document, mark. simpl.
  destruct (is_current env (href e)) eqn:Hcur; simpl; f_equal; f_equal.
  - rewrite list_alter_alter_eq. apply list_alter_ext; [|done].
    intros e' He'. assert (e' = e) as -> by congruence.
    unfold DOM.with_classList. simpl. by rewrite Hcur.
  - apply list_alter_ext; [|done].
    intros e' He'. assert (e' = e) as -> by congruence.
    unfold DOM.with_classList. simpl. by rewrite Hcur.
Qed.

Lemma forEach_links (l : list nat) w :
  Forall (λ n, n < length (document w))%nat l →
  Navbar.forEach l (link_body env) w
  = (Normal tt, with_document (λ d, foldl (λ d n, alter (mark env) n d) d l) w).
Proof.
  revert w. induction l as [|n l IH]; intros w Hl; simpl.
  - by destruct w.
  - apply Forall_cons in Hl as [Hn Hl].
    destruct (lookup_lt_is_Some_2 _ _ Hn) as [e He].
    rewrite (bind_normal _ _ _ _ _ (link_body_run _ _ _ He)).
    rewrite IH; [done|]. simpl. by rewrite length_alter.
Qed.

Lemma select_from_bound k class d :
  Forall (λ n, n < k + length d)%nat (Node.select_from k class d).
Proof.
  revert k. induction d as [|e d IH]; intros k; simpl; [done|].
  specialize (IH (S k)).
  assert (Forall (λ n, n < k + S (length d))%nat
            (Node.select_from (S k) class d)) as IH'.
  { eapply Forall_impl; [done|]. simpl. lia. }
  case_bool_decide; [|done]. apply Forall_cons. split; [lia|done].
Qed.

(** Marking the selected positions one after the other marks every link. *)
Lemma foldl_alter_selected (pre d : list Element) :
  foldl (λ d n, alter (mark env) n d) (pre ++ d)
    (Node.select_from (length pre) "navbar-link" d)
  = pre ++ (mark_link env <$> d).
Proof.
  revert pre. induction d as [|e d IH]; intros pre; simpl; [done|].
  unfold mark_link at 1. case_bool_decide; simpl.
  - rewrite alter_app_r_alt, Nat.sub_diag by done. simpl.
    specialize (IH (pre ++ [mark env e])).
    rewrite length_app, Nat.add_1_r, <- !app_assoc in IH. apply IH.
  - specialize (IH (pre ++ [e])).
    rewrite length_app, Nat.add_1_r, <- !app_assoc in IH. apply IH.
Qed.

Lemma setActiveNavLink_run w :
  Navbar.setActiveNavLink env w = (Normal tt, with_document (fmap (mark_link env)) w).
Proof.
  unfold Navbar.setActiveNavLink, Node.querySelectorAll_class.
  unfold bind at 1.
  change (Navbar.forEach (Node.select_class "navbar-link" (document w)) (link_body env) w
          = (Normal tt, with_document (fmap (mark_link env)) w)).
  rewrite forEach_links by apply (select_from_bound 0).
  unfold with_document. do 2 f_equal.
  apply (foldl_alter_selected []).
Qed.

Lemma elem_of_add_token t tok l : t ∈ DOM.add_token tok l ↔ t = tok ∨ t ∈ l.
Proof.
  unfold DOM.add_token. case_bool_decide.
  - split; [by right|]. by intros [->|].
  - rewrite elem_of_app, list_elem_of_singleton. tauto.
Qed.

Lemma elem_of_remove_token t tok l : t ∈ DOM.remove_token tok l ↔ t ≠ tok ∧ t ∈ l.
Proof. unfold DOM.remove_token. by rewrite list_elem_of_filter. Qed.

Lemma remove_token_idemp tok l :
  DOM.remove_token tok (DOM.remove_token tok l) = DOM.remove_token tok l.
Proof.
  unfold DOM.remove_token. induction l as [|t l IH]; [done|].
  rewrite filter_cons. case_decide; [|done].
  rewrite filter_cons, decide_True by done. by rewrite IH.
Qed.

Lemma remove_add_token tok l :
  DOM.remove_token tok (DOM.add_token tok (DOM.remove_token tok l))
  = DOM.remove_token tok l.
Proof.
  unfold DOM.add_token. rewrite bool_decide_eq_false_2
    by apply remove_token_not_elem.
  unfold DOM.remove_token at 1. rewrite filter_app.
  fold (DOM.remove_token tok (DOM.remove_token tok l)).
  rewrite remove_token_idemp, filter_cons, decide_False by (by intros ?).
  by rewrite filter_nil, app_nil_r.
Qed.

Lemma mark_idemp e : mark env (mark env e) = mark env e.
Proof.
  unfold mark, DOM.with_classList. simpl.
  destruct (is_current env (href e)); f_equal.
  - by rewrite remove_add_token.
  - by rewrite remove_token_idemp.
Qed.

Lemma mark_keeps_link e :
  "navbar-link" ∈ classList (mark env e) ↔ "navbar-link" ∈ classList e.
Proof.
  unfold mark. simpl. destruct (is_current env (href e)).
  - rewrite elem_of_add_token, elem_of_remove_token.
    split; [by intros [?|[_ ?]] | by right].
  - rewrite elem_of_remove_token. split; [by intros [_ ?] | done].
Qed.

Lemma mark_link_idemp e : mark_link env (mark_link env e) = mark_link env e.
Proof.
  unfold mark_link.
  destruct (bool_decide ("navbar-link" ∈ classList e)) eqn:Hlink.
  - apply bool_decide_eq_true in Hlink.
    rewrite bool_decide_eq_true_2 by (by apply mark_keeps_link).
    apply mark_idemp.
  - by rewrite Hlink.
Qed.

Lemma home_currentPage :
  home_path (pathname env) → Navbar.currentPage env = "index.html".
Proof. unfold Navbar.currentPage. by intros [->|[->| ->]]. Qed.

Lemma is_current_home h :
  home_path (pathname env) → is_current env h = bool_decide (h = Some "index.html").
Proof.
  intros Hhome. unfold is_current. rewrite (home_currentPage Hhome).
  by destruct (bool_decide (h = Some "index.html")).
Qed.

(** C9: [setActiveNavLink] completes, and running it again changes
    nothing.  On the path [/index.html] and on the empty or root path, it
    leaves the page with each navigation link marked active exactly when
    its [href] is [index.html] (its other classes and its [href] as they
    were), and every element that is not a navigation link untouched. *)
Theorem active_link_is_reconciled w :
  ∃ w',
    Navbar.setActiveNavLink env w = (Normal tt, w')
    ∧ Navbar.setActiveNavLink env w' = (Normal tt, w')
    ∧ (home_path (pathname env) →
       ∀ n e, document w !! n = Some e →
         ∃ e', document w' !! n = Some e'
           ∧ if bool_decide ("navbar-link" ∈ classList e)
             then ("active" ∈ classList e' ↔ href e = Some "index.html")
                  ∧ (∀ tok, tok ≠ "active" → tok ∈ classList e' ↔ tok ∈ classList e)
                  ∧ href e' = href e
             else e' = e).
Proof.
  exists (with_document (fmap (mark_link env)) w). split; [apply setActiveNavLink_run|].
  split.
  - rewrite setActiveNavLink_run. unfold with_document. simpl. do 2 f_equal.
    rewrite <- list_fmap_compose. apply list_fmap_ext. intros _ e _. simpl.
    apply mark_link_idemp.
  - intros Hhome n e He. exists (mark_link env e). simpl.
    split; [by rewrite list_lookup_fmap, He|].
    unfold mark_link. case_bool_decide as Hlink; [|done].
    unfold mark. rewrite (is_current_home _ Hhome).
    unfold DOM.with_classList at 1 2 3. cbn [classList href].
    case_bool_decide as Hhref; split_and!; try done.
    + rewrite elem_of_add_token. split; [done | by left].
    + intros tok Htok. rewrite elem_of_add_token, elem_of_remove_token.
      split; [by intros [?|[_ ?]] | by right].
    + rewrite elem_of_remove_token. split; [by intros [? _] | done].
    + intros tok Htok. rewrite elem_of_remove_token.
      split; [by intros [_ ?] | done].
Qed.

(** *** The session check *)

Lemma upd_id_absent i f w : DOM.find_id i (document w) = None → upd_id i f w = w.
Proof. intros Hi. unfold upd_id, with_document. rewrite Hi. by destruct w. Qed.

Lemma when_write_run i node err f w :
  DOM.find_id i (document w) = node →
  Navbar.when_found node (Node.write node err f) w = (Normal tt, upd_id i f w).
Proof.
  intros Hi. destruct node as [n|].
  - by apply write_run.
  - by rewrite upd_id_absent.
Qed.

Lemma showUnauthenticatedNavbar_run w :
  Navbar.showUnauthenticatedNavbar w = (Normal tt, unauthenticated w).
Proof.
  unfold Navbar.showUnauthenticatedNavbar, Node.set_display.
  rewrite !(bind_normal _ _ _ _ _ (getElementById_run _ _)).
  erewrite bind_normal by (apply (when_write_run "navUserInfo"); same_node).
  erewrite bind_normal by (apply (when_write_run "navLogoutBtn"); same_node).
  erewrite when_write_run by same_node. done.
Qed.

Lemma shown_as_upd w i d : shown_as (upd_id i (DOM.with_display d) w) i d.
Proof.
  intros e. rewrite element_upd_id_eq by apply _.
  destruct (element w i); by intros [= <-].
Qed.

Lemma shown_as_other f `{!IdStable f} w i j d :
  i ≠ j → shown_as w j d → shown_as (upd_id i f w) j d.
Proof.
  intros Hij Hd e. rewrite element_upd_id_ne by done. apply Hd.
Qed.

Lemma unauthenticated_state w : Unauthenticated (unauthenticated w).
Proof.
  unfold unauthenticated. split_and!.
  - do 2 (apply shown_as_other; [apply _|done|]). apply shown_as_upd.
  - apply shown_as_other; [apply _|done|]. apply shown_as_upd.
  - apply shown_as_upd.
Qed.

Lemma ids_unauthenticated w : ids (unauthenticated w) = ids w.
Proof. unfold unauthenticated. by rewrite !ids_upd_id by apply _. Qed.

Lemma ids_greeted w : ids (greeted w) = ids w.
Proof. unfold greeted. by rewrite !ids_upd_id by apply _. Qed.

Lemma showAuthenticatedNavbar_greets w user :
  Navbar.showAuthenticatedNavbar user w
  = (name_step user (DOM.find_id "navUsername" (document w)) ;;
     elo_step user (DOM.find_id "navElo" (document w))) (greeted w).
Proof.
  unfold Navbar.showAuthenticatedNavbar, Node.set_display.
  rewrite !(bind_normal _ _ _ _ _ (getElementById_run _ _)).
  erewrite bind_normal by (apply (when_write_run "navUserInfo"); same_node).
  erewrite bind_normal by (apply (when_write_run "navLogoutBtn"); same_node).
  erewrite bind_normal by (apply (when_write_run "navLoginBtn"); same_node).
  done.
Qed.

Lemma name_step_ok w user node :
  DOM.find_id "navUsername" (document w) = node →
  (is_Some node → is_Some (username_text user)) →
  name_step user node w
  = (Normal tt,
     upd_id "navUsername"
       (DOM.with_textContent (default "" (username_text user))) w).
Proof.
  intros Hnode Htext. unfold name_step, Navbar.when_found.
  destruct node as [n|].
  - destruct Htext as [s Hs]; [done|]. rewrite Hs. unfold username_text in Hs.
    destruct (get_prop user "username") as [v|] eqn:Hv; [|done].
    erewrite bind_normal by reflexivity. by apply (set_textContent_run "navUsername").
  - by rewrite upd_id_absent.
Qed.

Lemma name_step_fail w user n :
  username_text user = None →
  ∃ e, name_step user (Some n) w = (Throw e, w).
Proof.
  intros Hs. unfold name_step, Navbar.when_found, username_text in *.
  destruct (get_prop user "username") as [v|e] eqn:Hv.
  - erewrite bind_normal by reflexivity. unfold Node.set_textContent.
    assert (ToString v = None) as Hv' by (by destruct v).
    eexists. apply bind_throw.
    destruct v; try done; unfold to_string; by rewrite Hv'.
  - exists e. by apply bind_throw.
Qed.

Lemma elo_step_ok w user node :
  DOM.find_id "navElo" (document w) = node →
  (is_Some node → is_Some (elo_text user)) →
  elo_step user node w
  = (Normal tt,
     upd_id "navElo" (DOM.with_textContent (default "" (elo_text user))) w).
Proof.
  intros Hnode Htext. unfold elo_step, Navbar.when_found.
  destruct node as [n|].
  - destruct Htext as [s Hs]; [done|]. rewrite Hs. unfold elo_text in Hs.
    destruct (get_prop user "elo") as [v|] eqn:Hv; [|done].
    destruct (ToString v) as [t|] eqn:Ht; [|done]. injection Hs as <-.
    erewrite bind_normal by reflexivity. step_to_string Ht.
    by apply (set_textContent_run "navElo").
  - by rewrite upd_id_absent.
Qed.

Lemma elo_step_fail w user n :
  elo_text user = None →
  ∃ e, elo_step user (Some n) w = (Throw e, w).
Proof.
  intros Hs. unfold elo_step, Navbar.when_found, elo_text in *.
  destruct (get_prop user "elo") as [v|e] eqn:Hv.
  - erewrite bind_normal by reflexivity. destruct (ToString v) eqn:Ht; [done|].
    eexists. apply bind_throw. unfold to_string. by rewrite Ht.
  - exists e. by apply bind_throw.
Qed.

Lemma reads_upd w i t :
  (present w i → is_Some t) →
  reads (upd_id i (DOM.with_textContent (default "" t)) w) i t.
Proof.
  intros Hp e. rewrite element_upd_id_eq by apply _.
  destruct (element w i) as [e0|] eqn:He0; [|done]. intros [= <-].
  destruct Hp as [s ->]; [|done]. apply present_element. by eexists.
Qed.

Lemma reads_other f `{!IdStable f} w i j t :
  i ≠ j → reads w j t → reads (upd_id i f w) j t.
Proof. intros Hij Hd e. rewrite element_upd_id_ne by done. apply Hd. Qed.

Lemma showAuthenticatedNavbar_run w user :
  renders w user →
  Navbar.showAuthenticatedNavbar user w = (Normal tt, authenticated user w).
Proof.
  intros [Hname Helo]. rewrite showAuthenticatedNavbar_greets.
  erewrite bind_normal
    by (apply name_step_ok; [apply find_id_ids, ids_greeted | done]).
  apply elo_step_ok; [|done].
  rewrite find_id_upd_id by apply _. apply find_id_ids, ids_greeted.
Qed.

Lemma authenticated_state w user :
  renders w user → Authenticated (authenticated user w) user.
Proof.
  intros [Hname Helo]. unfold Authenticated, authenticated, greeted.
  split_and!.
  - do 4 (apply shown_as_other; [apply _|done|]). apply shown_as_upd.
  - do 3 (apply shown_as_other; [apply _|done|]). apply shown_as_upd.
  - do 2 (apply shown_as_other; [apply _|done|]). apply shown_as_upd.
  - apply reads_other; [apply _|done|]. apply reads_upd.
    by rewrite !present_upd_id by apply _.
  - apply reads_upd. by rewrite !present_upd_id by apply _.
Qed.

Lemma not_guard (P : Prop) `{!Decision P} {A} (o : option A) :
  ¬ (P → is_Some o) → P ∧ o = None.
Proof.
  intros Hn. destruct (decide P) as [HP|HP]; [|by destruct Hn].
  split; [done|]. destruct o; [|done]. destruct Hn. by eexists.
Qed.

(** On a user the page cannot show, [showAuthenticatedNavbar] throws
    part of the way. *)
Lemma showAuthenticatedNavbar_throws w user :
  ¬ renders w user →
  ∃ e w1,
    Navbar.showAuthenticatedNavbar user w = (Throw e, w1)
    ∧ ids w1 = ids w ∧ navUser w1 = navUser w.
Proof.
  intros Hno. rewrite showAuthenticatedNavbar_greets.
  destruct (decide (present w "navUsername" → is_Some (username_text user)))
    as [Hname|Hname].
  - assert (¬ (present w "navElo" → is_Some (elo_text user))) as Helo
      by (intros ?; by apply Hno).
    apply not_guard in Helo as [[m Hm] Hnone]; [|apply _].
    erewrite bind_normal
      by (apply name_step_ok; [apply find_id_ids, ids_greeted | done]).
    rewrite Hm.
    destruct (elo_step_fail
                (upd_id "navUsername"
                   (DOM.with_textContent (default "" (username_text user)))
                   (greeted w)) user m Hnone) as [e He].
    eexists _, _. split; [apply He|].
    split; [|done]. rewrite ids_upd_id by apply _. apply ids_greeted.
  - apply not_guard in Hname as [[n Hn] Hnone]; [|apply _].
    rewrite Hn. destruct (name_step_fail (greeted w) user n Hnone) as [e He].
    eexists _, _. split; [apply (bind_throw _ _ _ _ _ He)|].
    split; [apply ids_greeted|done].
Qed.

Lemma initNavbar_fetches w :
  Navbar.initNavbar env w
  = try_catch (after_me (network env (Navbar.me_request env))) session_catch
      (with_event (EvFetch (Navbar.me_request env)) w).
Proof. done. Qed.

Lemma session_catch_run e w :
  session_catch e w
  = (Normal tt,
     unauthenticated (with_event (EvConsoleError "❌ Erreur init navbar:" e) w)).
Proof.
  unfold session_catch, console_error. erewrite bind_normal by reflexivity.
  apply showUnauthenticatedNavbar_run.
Qed.

(** A [try] block that throws leaves the bar unauthenticated. *)
Lemma thrown_session_check w body e w1 :
  body (with_event (EvFetch (Navbar.me_request env)) w) = (Throw e, w1) →
  ids w1 = ids w →
  ∃ w',
    try_catch body session_catch
      (with_event (EvFetch (Navbar.me_request env)) w) = (Normal tt, w')
    ∧ ids w' = ids w ∧ navUser w' = navUser w1 ∧ Unauthenticated w'.
Proof.
  intros Hbody Hids. eexists. split.
  - erewrite try_catch_throw by done. apply session_catch_run.
  - split; [by rewrite ids_unauthenticated|].
    split; [done|]. apply unauthenticated_state.
Qed.

(** C6, as the script has it: the session check always completes and
    leaves the page's elements in place, the bar in one of two states.
    When the response has a truthy [success] and a user the page can show
    (one with the text for the name and for the rating, wherever the page
    has the element for it), the user is stored and the bar is
    authenticated: user info and logout shown, login hidden, the name and
    [ELO: ] followed by the rating as texts.  On every other outcome the
    bar is unauthenticated (login shown, user info and logout hidden): a
    rejected [fetch], a body that is not JSON, a falsy [success], and
    also a truthy [success] whose user cannot be shown (a missing or
    [null] user on a page with the name element), which is stored all the
    same. *)
Theorem session_check_settles_the_bar w :
  ∃ w',
    Navbar.initNavbar env w = (Normal tt, w')
    ∧ ids w' = ids w
    ∧ (∀ user, checked_user env = Some user → renders w user →
               navUser w' = user ∧ Authenticated w' user)
    ∧ (∀ user, checked_user env = Some user → ¬ renders w user →
               navUser w' = user ∧ Unauthenticated w')
    ∧ (checked_user env = None → navUser w' = navUser w ∧ Unauthenticated w').
Proof.
  rewrite initNavbar_fetches. unfold checked_user.
  set (w0 := with_event (EvFetch (Navbar.me_request env)) w).
  assert (∀ e, after_me (Throw e) w0 = (Throw e, w0)) as Hthrow by done.
  destruct (network env (Navbar.me_request env)) as [resp|e] eqn:Hnet.
  2:{ destruct (thrown_session_check w _ e w0 (Hthrow e) eq_refl)
        as (w' & Hrun & Hids & Huser & Hstate).
      exists w'. by split_and!. }
  destruct (json resp) as [data|e] eqn:Hjson.
  2:{ assert (after_me (Normal resp) w0 = (Throw e, w0)) as Hbody.
      { unfold after_me. erewrite bind_normal by reflexivity.
        apply bind_throw. unfold lift. by rewrite Hjson. }
      destruct (thrown_session_check w _ e w0 Hbody eq_refl)
        as (w' & Hrun & Hids & Huser & Hstate).
      exists w'. by split_and!. }
  destruct (get_prop data "success") as [flag|e] eqn:Hflag.
  2:{ assert (after_me (Normal resp) w0 = (Throw e, w0)) as Hbody.
      { unfold after_me. erewrite bind_normal by reflexivity.
        step_lift Hjson. apply bind_throw. unfold lift. by rewrite Hflag. }
      destruct (thrown_session_check w _ e w0 Hbody eq_refl)
        as (w' & Hrun & Hids & Huser & Hstate).
      exists w'. by split_and!. }
  destruct (truthy flag) eqn:Htruthy.
  2:{ exists (unauthenticated w0). split_and!; try done.
      - apply try_catch_normal. unfold after_me.
        erewrite bind_normal by reflexivity.
        step_lift Hjson. step_lift Hflag. rewrite Htruthy.
        apply showUnauthenticatedNavbar_run.
      - by rewrite ids_unauthenticated.
      - intros _. split; [done|]. apply unauthenticated_state. }
  destruct (get_prop data "user") as [user|e] eqn:Huser.
  2:{ assert (after_me (Normal resp) w0 = (Throw e, w0)) as Hbody.
      { unfold after_me. erewrite bind_normal by reflexivity.
        step_lift Hjson. step_lift Hflag. rewrite Htruthy.
        apply bind_throw. unfold lift. by rewrite Huser. }
      destruct (thrown_session_check w _ e w0 Hbody eq_refl)
        as (w' & Hrun & Hids & Hnav & Hstate).
      exists w'. by split_and!. }
  assert (after_me (Normal resp) w0
          = Navbar.showAuthenticatedNavbar user (with_navUser user w0)) as Hbody.
  { unfold after_me. erewrite bind_normal by reflexivity.
    step_lift Hjson. step_lift Hflag. rewrite Htruthy. step_lift Huser.
    by erewrite bind_normal by reflexivity. }
  destruct (decide (renders w user)) as [Hyes|Hno].
  - assert (renders (with_navUser user w0) user) as Hyes' by exact Hyes.
    exists (authenticated user (with_navUser user w0)). split_and!; try done.
    + apply try_catch_normal. rewrite Hbody.
      by apply showAuthenticatedNavbar_run.
    + unfold authenticated. by rewrite !ids_upd_id, ids_greeted by apply _.
    + intros ? [= <-] _. split; [done|]. by apply authenticated_state.
    + by intros ? [= <-] ?.
  - assert (¬ renders (with_navUser user w0) user) as Hno' by exact Hno.
    destruct (showAuthenticatedNavbar_throws (with_navUser user w0) user Hno')
      as (e & w1 & Hrun & Hids & Hnav).
    rewrite <- Hbody in Hrun.
    destruct (thrown_session_check w _ e w1 Hrun Hids)
      as (w' & Hrun' & Hids' & Hnav' & Hstate).
    exists w'. split_and!; try done.
    + by intros ? [= <-] ?.
    + intros ? [= <-] _. split; [|done]. by rewrite Hnav', Hnav.
Qed.

End Bar.

(** ** The properties on the sample page *)

Example en_US_groups : Sample.en_US (JNum (Int 12345)) = "12,345".
Proof. reflexivity. Qed.

Lemma click_rejects_unordered_targets_witness :
  (∃ w',
     Script.onGenerateClick (Sample.env Sample.unreachable false None)
       (Sample.page "100" "50" "1000") = (Normal tt, w')
     ∧ status_shows w' validation_message "error"
     ∧ events w' = [])
  ∧ (∃ w',
       Script.onGenerateClick (Sample.env Sample.unreachable false None)
         (Sample.page "9007199254740992" "9007199254740993" "1000") = (Normal tt, w')
       ∧ status_shows w' validation_message "error"
       ∧ events w' = []).
Proof.
  split.
  - destruct (click_rejects_unordered_targets
                (Sample.env Sample.unreachable false None)
                (Sample.page "100" "50" "1000") "100" "50" "1000")
      as (w' & Hrun & Hstatus & Hev & _).
    + by repeat split.
    + vm_compute. by eexists.
    + reflexivity.
    + exists w'. split; [exact Hrun|]. split; [exact Hstatus|exact Hev].
  - destruct (click_rejects_unordered_targets
                (Sample.env Sample.unreachable false None)
                (Sample.page "9007199254740992" "9007199254740993" "1000")
                "9007199254740992" "9007199254740993" "1000")
      as (w' & Hrun & Hstatus & Hev & _).
    + by repeat split.
    + vm_compute. by eexists.
    + vm_compute. reflexivity.
    + exists w'. split; [exact Hrun|]. split; [exact Hstatus|exact Hev].
Defined.

Lemma click_always_restores_controls_witness :
  ∃ c w',
    Script.onGenerateClick (Sample.env Sample.unreachable false None)
      (Sample.page "0" "100" "1000") = (c, w')
    ∧ disabled <$> element w' "generateBtn" = Some false
    ∧ display <$> element w' "btnText" = Some "inline"
    ∧ display <$> element w' "btnLoader" = Some "none".
Proof.
  destruct (click_always_restores_controls
              (Sample.env Sample.unreachable false None)
              (Sample.page "0" "100" "1000") "0" "100" "1000")
    as (c & w' & Hrun & _ & Hcontrols).
  - by repeat split.
  - repeat split; vm_compute; by eexists.
  - reflexivity.
  - by exists c, w'.
Defined.

Lemma click_checks_only_the_order_witness :
  ∃ c w',
    Script.onGenerateClick (Sample.env Sample.unreachable false None)
      (Sample.page "0" "100" "") = (c, w')
    ∧ EvFetch (Script.generate_request (Sample.env Sample.unreachable false None)
                 (Int 0) (Int 100) (parseInt "")) ∈ events w'.
Proof.
  destruct (click_checks_only_the_order
              (Sample.env Sample.unreachable false None)
              (Sample.page "0" "100" "") "0" "100" "") as [_ Hsent].
  - by repeat split.
  - repeat split; vm_compute; by eexists.
  - by apply (Hsent 0 100).
Defined.

(** The attempts field left empty parses to [NaN], and the request goes out
    all the same, carrying it: nothing caught the malformed input, and the
    status line ends on the failure of the request, not on a validation
    error. *)
Lemma empty_attempts_field_is_sent :
  parseInt "" = NaN
  ∧ ∃ w',
      Script.onGenerateClick (Sample.env Sample.unreachable false None)
        (Sample.page "0" "100" "") = (Normal tt, w')
      ∧ events w'
        = [EvFetch (Script.generate_request
                      (Sample.env Sample.unreachable false None)
                      (Int 0) (Int 100) NaN)]
      ∧ status_shows w' (connection_error_message "Failed to fetch") "error".
Proof.
  split; [reflexivity|]. eexists. split; [vm_compute; reflexivity|].
  split; [vm_compute; reflexivity|].
  eexists. split; [vm_compute; reflexivity|]. by vm_compute.
Qed.

Lemma success_shows_the_report_witness :
  ∃ w',
    Script.onGenerateClick (Sample.env (Sample.answers Sample.generated) false None)
      (Sample.page "0" "100" "1000") = (Normal tt, w')
    ∧ text w' "fenText" = Some "8/8/4k3/8/8/3K4/4P3/8 w - - 0 1"
    ∧ text w' "whiteMaterial" = Some "1"
    ∧ text w' "attempts" = Some "12,345"
    ∧ text w' "timeSeconds" = Some "3.27s"
    ∧ link w' "lichessLink"
      = Some "https://lichess.org/analysis/8%2F8%2F4k3%2F8%2F8%2F3K4%2F4P3%2F8%20w%20-%20-%200%201"
    ∧ revealed w' "results"
    ∧ status_shows w' success_message "success".
Proof.
  destruct (success_shows_the_report
              (Sample.env (Sample.answers Sample.generated) false None)
              (Sample.page "0" "100" "1000") "0" "100" "1000"
              (mkResponse (Normal Sample.generated)) Sample.generated
              (JBool true) Sample.report_json Sample.report)
    as (w' & Hrun & Hfen & Hwhite & _ & _ & _ & _ & _ & Hatt & Htime
        & Hlichess & _ & Hresults & Hstatus).
  - by repeat split.
  - repeat split; vm_compute; by eexists.
  - repeat split; vm_compute; by eexists.
  - reflexivity.
  - reflexivity.
  - reflexivity.
  - reflexivity.
  - reflexivity.
  - reflexivity.
  - by repeat split.
  - exists w'. by repeat split.
Defined.

Lemma failures_are_told_apart_witness :
  (∃ w',
     Script.onGenerateClick (Sample.env (Sample.answers Sample.refused) false None)
       (Sample.page "0" "100" "1000") = (Normal tt, w')
     ∧ status_shows w' "❌ Erreur: Aucune position trouvée" "error")
  ∧ (∃ w',
       Script.onGenerateClick (Sample.env Sample.unreachable false None)
         (Sample.page "0" "100" "1000") = (Normal tt, w')
       ∧ status_shows w'
           "❌ Erreur de connexion: Failed to fetch. Vérifiez que le backend est démarré."
           "error").
Proof.
  split.
  - destruct (failures_are_told_apart
                (Sample.env (Sample.answers Sample.refused) false None)
                (Sample.page "0" "100" "1000") "0" "100" "1000") as [Hreported _].
    + by repeat split.
    + repeat split; vm_compute; by eexists.
    + reflexivity.
    + by apply (Hreported (mkResponse (Normal Sample.refused)) Sample.refused
                  (JBool false) (JStr "Aucune position trouvée")).
  - destruct (failures_are_told_apart
                (Sample.env Sample.unreachable false None)
                (Sample.page "0" "100" "1000") "0" "100" "1000") as [_ Hfailed].
    + by repeat split.
    + repeat split; vm_compute; by eexists.
    + reflexivity.
    + apply (Hfailed (JError "TypeError" "Failed to fetch") (JStr "Failed to fetch")
               "Failed to fetch"); [by left | done..].
Defined.

Lemma session_check_settles_the_bar_witness :
  ∃ w',
    Navbar.initNavbar (Sample.env (Sample.answers Sample.logged_in) false None)
      (Sample.page "" "" "") = (Normal tt, w')
    ∧ navUser w' = Sample.alice
    ∧ Authenticated w' Sample.alice
    ∧ username_text Sample.alice = Some "alice"
    ∧ elo_text Sample.alice = Some "ELO: 1500".
Proof.
  destruct (session_check_settles_the_bar
              (Sample.env (Sample.answers Sample.logged_in) false None)
              (Sample.page "" "" "")) as (w' & Hrun & _ & Hauth & _).
  destruct (Hauth Sample.alice) as [Huser Hstate].
  - reflexivity.
  - split; intros _; by eexists.
  - by exists w'.
Defined.

(** A response with a truthy [success] and no user: the flag is truthy, and
    yet the bar ends unauthenticated, the login control shown and the user
    info hidden, with [undefined] stored as the session user. *)
Lemma success_without_user_is_unauthenticated :
  checked_user (Sample.env (Sample.answers Sample.success_only) false None)
  = Some JUndefined
  ∧ ∃ w',
      Navbar.initNavbar (Sample.env (Sample.answers Sample.success_only) false None)
        (Sample.page "" "" "") = (Normal tt, w')
      ∧ navUser w' = JUndefined
      ∧ display <$> element w' "navLoginBtn" = Some "inline-block"
      ∧ display <$> element w' "navUserInfo" = Some "none"
      ∧ display <$> element w' "navLogoutBtn" = Some "none".
Proof.
  split; [reflexivity|]. eexists. split; [vm_compute; reflexivity|].
  by vm_compute.
Qed.

Lemma declined_logout_does_nothing_witness :
  ∃ w',
    Navbar.handleNavLogout (Sample.env (Sample.answers Sample.logged_out) false None)
      (Sample.page "" "" "") = (Normal tt, w')
    ∧ events w' = [EvConfirm logout_prompt]
    ∧ localStorage w' = {[ "token" := "abc" ]}
    ∧ navigation w' = None.
Proof.
  destruct (declined_logout_does_nothing
              (Sample.env (Sample.answers Sample.logged_out) false None)
              (Sample.page "" "" "")) as (w' & Hrun & Hev & Hstore & Hnav & _).
  - reflexivity.
  - by exists w'.
Defined.

Lemma confirmed_logout_clears_and_leaves_witness :
  ∃ w',
    Navbar.handleNavLogout (Sample.env (Sample.answers Sample.logged_out) true None)
      (Sample.page "" "" "") = (Normal tt, w')
    ∧ localStorage w' = ∅
    ∧ navigation w' = Some "auth.html".
Proof.
  destruct (confirmed_logout_clears_and_leaves
              (Sample.env (Sample.answers Sample.logged_out) true None)
              (Sample.page "" "" "") (asked (Sample.page "" "" ""))
              (mkResponse (Normal Sample.logged_out)) Sample.logged_out (JBool true))
    as (w' & Hrun & _ & Hstore & Hnav); try reflexivity.
  by exists w'.
Defined.

Lemma failed_hook_skips_logout_witness :
  ∃ w',
    Navbar.handleNavLogout
      (Sample.env (Sample.answers Sample.logged_out) true (Some Sample.failing_hook))
      (Sample.page "" "" "") = (Normal tt, w')
    ∧ events w'
      = [EvConfirm logout_prompt; EvCall "setPlayerOffline";
         EvConsoleError "❌ Erreur:" (JError "Error" "socket closed");
         EvAlert "Erreur de connexion au serveur"]
    ∧ localStorage w' = {[ "token" := "abc" ]}
    ∧ navigation w' = None.
Proof.
  destruct (failed_hook_skips_logout
              (Sample.env (Sample.answers Sample.logged_out) true
                 (Some Sample.failing_hook))
              (Sample.page "" "" "") Sample.failing_hook
              (JError "Error" "socket closed")
              (with_event (EvCall "setPlayerOffline") (asked (Sample.page "" "" ""))))
    as (w' & Hrun & Hev & Hstore & Hnav & _); try reflexivity.
  by exists w'.
Defined.

Lemma active_link_is_reconciled_witness :
  ∃ w',
    Navbar.setActiveNavLink (Sample.env Sample.unreachable false None)
      (Sample.page "" "" "") = (Normal tt, w')
    ∧ Navbar.setActiveNavLink (Sample.env Sample.unreachable false None) w'
      = (Normal tt, w')
    ∧ (∃ home, document w' !! 0%nat = Some home ∧ "active" ∈ classList home)
    ∧ (∃ game, document w' !! 1%nat = Some game ∧ "active" ∉ classList game)
    ∧ document w' !! 2%nat = document (Sample.page "" "" "") !! 2%nat.
Proof.
  destruct (active_link_is_reconciled
              (Sample.env Sample.unreachable false None) (Sample.page "" "" ""))
    as (w' & Hrun & Hagain & Hlinks).
  assert (home_path (pathname (Sample.env Sample.unreachable false None)))
    as Hhome by (by left).
  exists w'. split; [done|]. split; [done|]. split_and!.
  - destruct (Hlinks Hhome 0%nat _ eq_refl) as (home & Hat & Hactive & _).
    exists home. split; [done|]. by apply Hactive.
  - destruct (Hlinks Hhome 1%nat _ eq_refl) as (game & Hat & Hactive & _).
    exists game. split; [done|]. by intros [=]%Hactive.
  - destruct (Hlinks Hhome 2%nat _ eq_refl) as (other & -> & ->). done.
Defined.

(** * More of the scripts *)

(** ** What a handler leaves alone

    The handlers write to the document and to nothing else, but for the
    requests, prompts and alerts they put on the trace and the few
    statements that assign the session user, the local storage or the
    location. *)

#[global] Instance kept_preorder : PreOrder kept.
Proof.
  split.
  - by intros w.
  - intros w1 w2 w3 (? & ? & ?) (? & ? & ?). unfold kept. split_and!; congruence.
Qed.

#[global] Instance quiet_preorder : PreOrder quiet.
Proof.
  split.
  - by intros w.
  - intros w1 w2 w3 [? ?] [? ?]. split; [by etrans|congruence].
Qed.

#[global] Instance kept_doc_free : DocFree kept.
Proof. by intros w f. Qed.

#[global] Instance quiet_doc_free : DocFree quiet.
Proof. by intros w f. Qed.

#[global] Instance touches_only_preorder l : PreOrder (touches_only l).
Proof.
  split.
  - by intros w.
  - intros w1 w2 w3 [Hi1 Hd1] [Hi2 Hd2]. split; [congruence|].
    intros n Hn. rewrite Hd2, Hd1; [done..|].
    intros i Hi. rewrite (find_id_ids i w2 w1) by done. by apply Hn.
Qed.

Section Always.
Context (R : relation World) `{!PreOrder R}.
Context {A B : Type}.

Lemma always_ret (a : A) : always R (ret a).
Proof using Type*. by intros w. Qed.

Lemma always_throw e : always R (@throw A e).
Proof using Type*. by intros w. Qed.

Lemma always_lift (c : completion A) : always R (lift c).
Proof using Type*. by intros w. Qed.

Lemma always_bind (m : M A) (k : A → M B) :
  always R m → (∀ a, always R (k a)) → always R (x <- m ;; k x).
Proof using Type*.
  intros Hm Hk w. unfold bind. specialize (Hm w).
  destruct (m w) as [[a|e] w']; simpl in *; [|done].
  by etrans; [|apply Hk].
Qed.

Lemma always_try_catch (body : M A) handler :
  always R body → (∀ e, always R (handler e)) → always R (try_catch body handler).
Proof using Type*.
  intros Hm Hk w. unfold try_catch. specialize (Hm w).
  destruct (body w) as [[a|e] w']; simpl in *; [done|].
  by etrans; [|apply Hk].
Qed.

Lemma always_if (b : bool) (m1 m2 : M A) :
  always R m1 → always R m2 → always R (if b then m1 else m2).
Proof using Type*. by destruct b. Qed.

Lemma always_read node err (f : Element → A) : always R (Node.read node err f).
Proof using Type*. intros w. unfold Node.read. by destruct (node ≫= _). Qed.

End Always.

Section Writes.
Context (R : relation World) `{!PreOrder R, !DocFree R}.

Lemma always_getElementById i : always R (Node.getElementById i).
Proof using Type*. by intros w. Qed.

Lemma always_to_string v : always R (to_string v).
Proof using Type*. intros w. unfold to_string. by destruct (ToString v). Qed.

Lemma always_call_toLocaleString env v : always R (call_toLocaleString env v).
Proof using Type*.
  intros w. unfold call_toLocaleString.
  destruct v; try done; by destruct (toLocaleString _ _).
Qed.

Lemma always_write node err f : always R (Node.write node err f).
Proof using Type*. intros w. destruct node as [n|]; [apply doc_free|done]. Qed.

Lemma always_set_textContent node v : always R (Node.set_textContent node v).
Proof using Type*.
  destruct node as [n|]; [|by intros w]. unfold Node.set_textContent.
  apply always_bind; [apply _| |intros s; apply always_write].
  destruct v; first [by apply always_ret | apply always_to_string].
Qed.

Lemma always_when_found node body :
  always R body → always R (Navbar.when_found node body).
Proof using Type*. intros Hbody. destruct node; [done|]. by apply always_ret. Qed.

End Writes.

(** One statement after the other. *)
Ltac always_step :=
  lazymatch goal with
  | |- PreOrder _ => apply _
  | |- DocFree _ => apply _
  | |- ∀ _, _ => intros ?
  | |- always _ _ =>
      first
        [ apply always_ret | apply always_throw | apply always_lift
        | apply always_read | apply always_getElementById | apply always_to_string
        | apply always_call_toLocaleString | apply always_set_textContent
        | apply always_write | apply always_when_found
        | apply always_bind | apply always_try_catch | apply always_if ]
  end.

Ltac always_steps := repeat always_step.

Section Quiet.
Context (env : Env) (R : relation World) `{!PreOrder R, !DocFree R}.

Lemma always_showStatus message type : always R (Script.showStatus message type).
Proof using Type*.
  unfold Script.showStatus, Script.statusDiv, Node.set_className,
    Node.classList_remove.
  always_steps.
Qed.

Lemma always_displayResults data : always R (Script.displayResults env data).
Proof using Type*.
  unfold Script.displayResults, Script.show_field, Script.resultsDiv,
    Node.set_href, Node.classList_remove.
  always_steps.
Qed.

Lemma always_generate_catch e : always R (Script.generate_catch e).
Proof using Type*.
  unfold Script.generate_catch. always_steps.
Qed.

Lemma always_after_fetch outcome : always R (after_fetch env outcome).
Proof using Type*.
  unfold after_fetch. always_steps.
Qed.

Lemma always_showUnauthenticatedNavbar : always R Navbar.showUnauthenticatedNavbar.
Proof using Type*.
  unfold Navbar.showUnauthenticatedNavbar, Node.set_display. always_steps.
Qed.

Lemma always_showAuthenticatedNavbar user :
  always R (Navbar.showAuthenticatedNavbar user).
Proof using Type*.
  unfold Navbar.showAuthenticatedNavbar, Node.set_display. always_steps.
Qed.

End Quiet.

(** ** Writes through a reference *)

Lemma with_document_id w : with_document (λ d, d) w = w.
Proof. by destruct w. Qed.

Lemma through_pure {A} node (m : M A) : (∀ w, (m w).2 = w) → through node m.
Proof. intros Hm w. left. apply Hm. Qed.

Lemma through_ret {A} node (a : A) : through node (ret a).
Proof. by apply through_pure. Qed.

Lemma through_throw {A} node e : through node (@throw A e).
Proof. by apply through_pure. Qed.

Lemma through_lift {A} node (c : completion A) : through node (lift c).
Proof. by apply through_pure. Qed.

Lemma through_to_string node v : through node (to_string v).
Proof. apply through_pure. intros w. unfold to_string. by destruct (ToString v). Qed.

Lemma through_call_toLocaleString env node v :
  through node (call_toLocaleString env v).
Proof.
  apply through_pure. intros w. unfold call_toLocaleString.
  destruct v; try done; by destruct (toLocaleString _ _).
Qed.

Lemma through_write node err f `{!IdStable f} : through node (Node.write node err f).
Proof. intros w. destruct node as [n|]; [|by left]. right. by exists n, f. Qed.

Lemma through_bind {A B} node (m : M A) (k : A → M B) :
  through node m → (∀ a, through node (k a)) → through node (x <- m ;; k x).
Proof.
  intros Hm Hk w. unfold bind. specialize (Hm w).
  destruct (m w) as [[a|e] w']; simpl in *; [|done].
  destruct (Hk a w') as [Hsame|(n' & f' & Hn' & Hf' & Hrun)].
  - by rewrite Hsame.
  - destruct Hm as [->|(n & f & Hn & Hf & ->)].
    + right. by exists n', f'.
    + right. exists n, (f' ∘ f). split; [done|]. split; [apply _|].
      rewrite Hrun. assert (n' = n) as -> by congruence.
      unfold with_document. simpl. f_equal. apply list_alter_alter_eq.
Qed.

Lemma through_set_textContent node v : through node (Node.set_textContent node v).
Proof.
  destruct node as [n|]; [|by apply through_throw]. unfold Node.set_textContent.
  apply through_bind; [|intros s; apply through_write, _].
  destruct v; first [by apply through_ret | apply through_to_string].
Qed.

Ltac through_step :=
  lazymatch goal with
  | |- IdStable _ => apply _
  | |- ∀ _, _ => intros ?
  | |- through _ _ =>
      first
        [ apply through_ret | apply through_throw | apply through_lift
        | apply through_to_string | apply through_call_toLocaleString
        | apply through_set_textContent | apply through_write
        | apply through_bind ]
  end.

Ltac through_steps := repeat through_step.

(** ** The elements a script touches *)

Lemma touches_alter l i n f `{!IdStable f} w :
  DOM.find_id i (document w) = Some n → i ∈ l →
  touches_only l w (with_document (alter f n) w).
Proof.
  intros Hn Hi. split.
  - unfold ids. simpl. by apply fmap_id_alter.
  - intros m Hm. simpl. apply list_lookup_alter_ne. intros <-. by apply (Hm i).
Qed.

Lemma touches_upd_id l i f `{!IdStable f} w :
  i ∈ l → touches_only l w (upd_id i f w).
Proof.
  intros Hi. unfold upd_id.
  destruct (DOM.find_id i (document w)) as [n|] eqn:Hn.
  - replace (with_document _ w) with (with_document (alter f n) w)
      by (unfold with_document; by rewrite Hn).
    by apply (touches_alter l i).
  - replace (with_document _ w) with w
      by (unfold with_document; rewrite Hn; by destruct w).
    done.
Qed.

Lemma touches_mono l l' w w' :
  l ⊆ l' → touches_only l w w' → touches_only l' w w'.
Proof.
  intros Hl [Hids Hd]. split; [done|]. intros n Hn. apply Hd.
  intros i Hi. by apply Hn, Hl.
Qed.

Lemma always_touches_mono {A} l l' (m : M A) :
  l ⊆ l' → always (touches_only l) m → always (touches_only l') m.
Proof. intros Hl Hm w. by apply (touches_mono l). Qed.

(** What is not in the list is as it was. *)
Lemma touches_element l w w' i :
  touches_only l w w' → i ∉ l → element w' i = element w i.
Proof.
  intros [Hids Hd] Hi. unfold element. rewrite (find_id_ids i w' w) by done.
  destruct (DOM.find_id i (document w)) as [n|] eqn:Hn; [|done]. simpl.
  apply Hd. intros j Hj Hjn.
  apply (find_id_distinct j i (document w) n n); [by intros -> | done..].
Qed.

Lemma touches_with_event l ev w : touches_only l w (with_event ev w).
Proof. by split. Qed.

(** A lookup by id followed by writes through its result. *)
Lemma touches_through {A} l i (k : Node.ref → M A) :
  i ∈ l → (∀ node, through node (k node)) →
  always (touches_only l) (node <- Node.getElementById i ;; k node).
Proof.
  intros Hi Hk w. unfold bind, Node.getElementById.
  destruct (Hk (DOM.find_id i (document w)) w) as [->|(n & f & Hn & Hf & ->)].
  - done.
  - by apply (touches_alter l i).
Qed.

Lemma touches_to_string l v : always (touches_only l) (to_string v).
Proof. intros w. unfold to_string. by destruct (ToString v). Qed.

Ltac touches_step :=
  lazymatch goal with
  | |- PreOrder _ => apply _
  | |- _ ∈ _ => compute_done
  | |- ∀ _, _ => intros ?
  | |- through _ _ => through_steps
  | |- always _ _ =>
      first
        [ apply always_ret | apply always_throw | apply always_lift
        | apply touches_through | apply touches_to_string
        | apply always_bind | apply always_try_catch | apply always_if ]
  end.

Ltac touches_steps := repeat touches_step.

Section Touches.
Context (env : Env).

Lemma touches_showStatus l message type :
  "status" ∈ l → always (touches_only l) (Script.showStatus message type).
Proof.
  intros Hl. unfold Script.showStatus, Script.statusDiv.
  apply touches_through; [done|]. intros node.
  unfold Node.set_className, Node.classList_remove. through_steps.
Qed.

Lemma touches_show_field l i key data :
  i ∈ l → always (touches_only l) (Script.show_field i key data).
Proof.
  intros Hl. unfold Script.show_field. apply touches_through; [done|].
  through_steps.
Qed.


Lemma touches_displayResults l data :
  field_ids ⊆ l → "results" ∈ l →
  always (touches_only l) (Script.displayResults env data).
Proof.
  intros Hfields Hresults.
  assert (∀ i, i ∈ field_ids → i ∈ l) as Hin by (intros i; apply Hfields).
  unfold Script.displayResults, Script.show_field, Script.resultsDiv,
    Node.set_href, Node.classList_remove.
  repeat first [ exact Hresults | apply Hin; compute_done | touches_step ].
Qed.

Lemma touches_generate_catch l e :
  "status" ∈ l → always (touches_only l) (Script.generate_catch e).
Proof.
  intros Hl. unfold Script.generate_catch.
  repeat first [ by apply touches_showStatus | touches_step ].
Qed.

Lemma touches_after_fetch outcome :
  always (touches_only panel_ids) (after_fetch env outcome).
Proof.
  unfold after_fetch.
  repeat first
    [ apply touches_showStatus; compute_done
    | apply touches_displayResults;
        [intros i Hi; unfold panel_ids; rewrite elem_of_app; by right
        | compute_done]
    | touches_step ].
Qed.

Lemma touches_loading w : touches_only panel_ids w (loading w).
Proof.
  unfold loading.
  repeat (etrans; [|apply touches_upd_id; [apply _|compute_done]]). done.
Qed.

Lemma touches_idle w : touches_only panel_ids w (idle w).
Proof.
  unfold idle.
  repeat (etrans; [|apply touches_upd_id; [apply _|compute_done]]). done.
Qed.

(** X1: once the validation is passed, a click sends one request and no
    more, whatever the backend answers; it shows no prompt and no alert,
    leaves the local storage, the location and the session user alone, and
    changes no element but those of the panel and of the results view: no
    id moves, and every other element of the page, the navigation bar
    included, is as it was. *)
Theorem click_sends_one_request w tmin tmax attempts :
  inputs w tmin tmax attempts →
  panel_ready w →
  js_ge (parseInt tmin) (parseInt tmax) = false →
  ∃ c w',
    Script.onGenerateClick env w = (c, w')
    ∧ events w'
      = (events w ++ [EvFetch (Script.generate_request env (parseInt tmin)
                                 (parseInt tmax) (parseInt attempts))])%list
    ∧ localStorage w' = localStorage w
    ∧ navigation w' = navigation w
    ∧ navUser w' = navUser w
    ∧ touches_only panel_ids w w'.
Proof.
  intros Hin Hready Hge.
  destruct (click_settles env _ _ _ _ Hin Hready Hge) as (c & w1 & Htry & Hrun & _).
  set (req := Script.generate_request env _ _ _) in *.
  set (w0 := with_event (EvFetch req) (loading w)) in *.
  pose proof (always_try_catch quiet _ _
                (always_after_fetch env quiet (network env req))
                (always_generate_catch quiet) w0) as Hquiet.
  pose proof (always_try_catch (touches_only panel_ids) _ _
                (touches_after_fetch (network env req))
                (λ e, touches_generate_catch panel_ids e ltac:(compute_done)) w0)
    as Htouch.
  rewrite Htry in Hquiet, Htouch. simpl in Hquiet, Htouch.
  destruct Hquiet as [(Hstore & Hnav & Hev) Huser].
  exists c, (idle w1). split; [done|]. split_and!; try done.
  etrans; [apply touches_loading|]. etrans; [apply (touches_with_event _ (EvFetch req))|].
  etrans; [apply Htouch|]. apply touches_idle.
Qed.

End Touches.

(** ** The results panel *)

Section Results.
Context (env : Env).

Lemma reveals_step {A} (s : M A) (k : A → M unit) :
  always (touches_only field_ids) s → (∀ a, reveals_last (k a)) →
  reveals_last (x <- s ;; k x).
Proof.
  intros Hs Hk w Hres. unfold bind. specialize (Hs w).
  destruct (s w) as [[a|e] w1]; simpl in Hs.
  - assert (present w1 "results") as Hres1
      by (apply (present_ids w); [apply Hs | done]).
    destruct (Hk a w1 Hres1) as [(e & w' & -> & Hw')|(w2 & -> & Hw2)].
    + left. exists e, w'. split; [done|]. by etrans.
    + right. exists w2. split; [done|]. by etrans.
  - left. by exists e, w1.
Qed.

Lemma reveals_end :
  reveals_last (resultsDiv <- Script.resultsDiv ;;
                Node.classList_remove resultsDiv "hidden").
Proof.
  intros w Hres. right. exists w. split; [|done].
  unfold Script.resultsDiv. rewrite (bind_normal _ _ _ _ _ (getElementById_run _ _)).
  by apply (write_run "results").
Qed.

(** [displayResults] takes [hidden] off the panel last, once every field
    is filled in. *)
Lemma displayResults_reveals data : reveals_last (Script.displayResults env data).
Proof.
  unfold Script.displayResults, Script.show_field, Node.set_href.
  repeat lazymatch goal with
         | |- ∀ _, _ => intros ?
         | |- reveals_last _ =>
             first [ apply reveals_end | apply reveals_step; [touches_steps|] ]
         end.
Qed.

Lemma after_fetch_data outcome data w :
  reported_data outcome = Some data →
  after_fetch env outcome w
  = (Script.displayResults env data ;;
     Script.showStatus "✅ Position générée avec succès !" "success") w.
Proof.
  unfold reported_data, after_fetch. intros Hdata.
  destruct outcome as [resp|e]; [|done].
  erewrite bind_normal by reflexivity.
  destruct (json resp) as [result|e]; [|done].
  erewrite bind_normal by reflexivity.
  destruct (get_prop result "success") as [flag|e]; [|done].
  erewrite bind_normal by reflexivity.
  destruct (truthy flag); [|done].
  destruct (get_prop result "data") as [data'|e]; [|done].
  injection Hdata as ->. by erewrite bind_normal by reflexivity.
Qed.

Lemma after_fetch_no_data outcome w :
  reported_data outcome = None →
  touches_only ["status"] w (after_fetch env outcome w).2.
Proof.
  unfold reported_data, after_fetch. intros Hdata.
  destruct outcome as [resp|e]; [|done].
  erewrite bind_normal by reflexivity.
  destruct (json resp) as [result|e]; [|done].
  erewrite bind_normal by reflexivity.
  destruct (get_prop result "success") as [flag|e]; [|done].
  erewrite bind_normal by reflexivity.
  destruct (truthy flag).
  - by destruct (get_prop result "data").
  - assert (always (touches_only ["status"])
              (error <- lift (get_prop result "error") ;;
               error <- to_string error ;;
               Script.showStatus ("❌ Erreur: " +:+ error) "error")) as Hrest.
    { repeat first [ apply touches_showStatus; by left | touches_step ]. }
    apply Hrest.
Qed.

Lemma touches_loading_controls w : touches_only control_ids w (loading w).
Proof.
  unfold loading.
  repeat (etrans; [|apply touches_upd_id; [apply _|compute_done]]). done.
Qed.

Lemma touches_idle_controls w : touches_only control_ids w (idle w).
Proof.
  unfold idle.
  repeat (etrans; [|apply touches_upd_id; [apply _|compute_done]]). done.
Qed.

Lemma field_not_control i : i ∈ field_ids → i ∉ control_ids.
Proof.
  intros Hi. unfold field_ids in Hi.
  repeat (apply elem_of_cons in Hi as [->|Hi]; [compute_done|]).
  by apply elem_of_nil in Hi.
Qed.

Lemma hidden_loading w : present w "results" → hidden (loading w) "results".
Proof.
  intros [e He]%present_element. unfold hidden, loading. read_element.
  rewrite He. eexists. split; [done|]. simpl. apply elem_of_add_token. by left.
Qed.

(** X2: the results panel is revealed exactly when [displayResults] ran
    to its end.  After a click that passed the order check: when the
    response announces a success and [displayResults] completes on its
    data, the handler completes with the panel revealed under the success
    status; when [displayResults] throws part of the way, the panel ends
    hidden; in both cases the fields of the view are as [displayResults]
    left them (a property the data lacks is shown as empty text, so that
    completing does not make the data a well-formed report).  On every
    other outcome of the request the panel ends hidden and the fields are
    as they were before the click. *)
Theorem results_shown_only_on_success w tmin tmax attempts :
  inputs w tmin tmax attempts →
  panel_ready w →
  js_ge (parseInt tmin) (parseInt tmax) = false →
  let req :=
    Script.generate_request env (parseInt tmin) (parseInt tmax) (parseInt attempts) in
  let sent := with_event (EvFetch req) (loading w) in
  ∃ c w',
    Script.onGenerateClick env w = (c, w')
    ∧ (∀ data w1,
         reported_data (network env req) = Some data →
         Script.displayResults env data sent = (Normal tt, w1) →
         c = Normal tt
         ∧ revealed w' "results"
         ∧ status_shows w' success_message "success"
         ∧ ∀ i, i ∈ field_ids → element w' i = element w1 i)
    ∧ (∀ data e w1,
         reported_data (network env req) = Some data →
         Script.displayResults env data sent = (Throw e, w1) →
         hidden w' "results"
         ∧ ∀ i, i ∈ field_ids → element w' i = element w1 i)
    ∧ (reported_data (network env req) = None →
       hidden w' "results"
       ∧ ∀ i, i ∈ field_ids → element w' i = element w i).
Proof.
  intros Hin Hready Hge req sent.
  destruct (click_settles env _ _ _ _ Hin Hready Hge) as (c & w1 & Htry & Hrun & _).
  fold req in Htry. fold sent in Htry.
  exists c, (idle w1). split; [done|].
  destruct Hready as (_ & _ & _ & Hres & Hs).
  assert (present sent "results") as Hres0 by (by apply (present_loading w)).
  assert (present sent "status") as Hs0 by (by apply (present_loading w)).
  assert (hidden sent "results") as Hhid by (by apply hidden_loading).
  assert (∀ w2 w3, touches_only field_ids sent w2 → touches_only ["status"] w2 w3 →
                   hidden (idle w3) "results") as Hkeep.
  { intros w2 w3 Hw2 Hw3. unfold hidden. rewrite idle_other by done.
    rewrite (touches_element _ _ _ _ Hw3) by compute_done.
    rewrite (touches_element _ _ _ _ Hw2) by compute_done. apply Hhid. }
  assert (∀ w2 w3 i, touches_only ["status"] w2 w3 → i ∈ field_ids →
                     element (idle w3) i = element w2 i) as Hfields.
  { intros w2 w3 i Hw3 Hi. pose proof (field_not_control i Hi) as Hno.
    rewrite (touches_element control_ids w3 (idle w3))
      by (apply touches_idle_controls || done).
    apply (touches_element ["status"]); [done|].
    intros Hin'. apply Hno. apply list_elem_of_singleton in Hin' as ->. compute_done. }
  unfold try_catch in Htry. split_and!.
  - intros data w2 Hdata Hd. rewrite (after_fetch_data _ _ _ Hdata) in Htry.
    rewrite (bind_normal _ _ _ _ _ Hd) in Htry.
    destruct (displayResults_reveals data sent Hres0)
      as [(e & w3 & Hd' & _)|(w3 & Hd' & Hw3)]; rewrite Hd in Hd'; [done|].
    injection Hd' as ->.
    assert (present w3 "status") as Hs3
      by (apply (present_ids sent); [apply Hw3 | done]).
    assert (present w3 "results") as Hres3
      by (apply (present_ids sent); [apply Hw3 | done]).
    rewrite showStatus_run in Htry by (by rewrite present_upd_id by apply _).
    injection Htry as <- <-. split; [done|]. split_and!.
    + apply present_element in Hres3 as [e He]. unfold revealed.
      rewrite idle_other by done. read_element. rewrite He.
      eexists. split; [done|]. apply remove_token_not_elem.
    + apply status_shows_idle. apply status_shows_upd; [|done].
      by rewrite present_upd_id by apply _.
    + intros i Hi. apply Hfields; [|done].
      apply touches_upd_id; [apply _|by left].
  - intros data e w2 Hdata Hd. rewrite (after_fetch_data _ _ _ Hdata) in Htry.
    rewrite (bind_throw _ _ _ _ _ Hd) in Htry.
    destruct (displayResults_reveals data sent Hres0)
      as [(e' & w3 & Hd' & Hw3)|(w3 & Hd' & _)]; rewrite Hd in Hd'; [|done].
    injection Hd' as -> ->.
    pose proof (touches_generate_catch ["status"] e' ltac:(compute_done) w3) as Hcatch.
    rewrite Htry in Hcatch. simpl in Hcatch.
    split; [by apply (Hkeep w3)|]. intros i Hi. by apply Hfields.
  - intros Hdata.
    pose proof (after_fetch_no_data (network env req) sent Hdata) as Hbody.
    destruct (after_fetch env (network env req) sent) as [c1 w2].
    simpl in Hbody.
    assert (touches_only ["status"] sent w1) as Hw1.
    { destruct c1 as [[]|e].
      - by injection Htry as <- <-.
      - pose proof (touches_generate_catch ["status"] e ltac:(compute_done) w2)
          as Hcatch.
        rewrite Htry in Hcatch. by etrans. }
    split; [by apply (Hkeep sent)|]. intros i Hi.
    rewrite (Hfields sent w1 i) by done.
    change (element sent i) with (element (loading w) i).
    apply (touches_element control_ids); [apply touches_loading_controls|].
    by apply field_not_control.
Qed.

(** X3: a response that announces a success and carries no position (its
    [data] is missing or [null]) is reported as a connection failure: the
    first field read throws, the [catch] block of the handler shows the
    message of the exception between the words of a connection failure,
    the results panel stays hidden, and the one request is all that was
    sent. *)
Theorem success_without_data_is_a_connection_failure
    w tmin tmax attempts resp result flag data e m text :
  inputs w tmin tmax attempts →
  panel_ready w →
  js_ge (parseInt tmin) (parseInt tmax) = false →
  network env (Script.generate_request env (parseInt tmin) (parseInt tmax)
                 (parseInt attempts)) = Normal resp →
  json resp = Normal result →
  get_prop result "success" = Normal flag → truthy flag = true →
  get_prop result "data" = Normal data →
  get_prop data "fen" = Throw e →
  get_prop e "message" = Normal m → ToString m = Some text →
  ∃ w',
    Script.onGenerateClick env w = (Normal tt, w')
    ∧ status_shows w' (connection_error_message text) "error"
    ∧ hidden w' "results".
Proof.
  intros Hin Hready Hge Hout Hjson Hflag Htruthy Hdata Hfen Hm Htext.
  destruct (click_settles env _ _ _ _ Hin Hready Hge) as (c & w1 & Htry & Hrun & _).
  rewrite Hout in Htry.
  set (w0 := with_event _ (loading w)) in *.
  destruct Hready as (_ & _ & _ & Hres & Hs).
  assert (present w0 "status") as Hs0 by (by apply (present_loading w)).
  erewrite try_catch_throw in Htry.
  2:{ unfold after_fetch. erewrite bind_normal by reflexivity.
      step_lift Hjson. step_lift Hflag. rewrite Htruthy. step_lift Hdata.
      apply bind_throw. unfold Script.displayResults. apply bind_throw.
      unfold Script.show_field.
      rewrite (bind_normal _ _ _ _ _ (getElementById_run _ _)).
      apply bind_throw. unfold lift. by rewrite Hfen. }
  erewrite generate_catch_run in Htry by done.
  injection Htry as <- <-. eexists. split; [done|]. split.
  - apply status_shows_idle. by apply status_shows_upd.
  - unfold hidden. rewrite idle_other by done. read_element.
    apply (hidden_loading w Hres).
Qed.

End Results.

(** ** Logging out, the other ways *)

Section Logout.
Context (env : Env).

(** X4: [handleNavLogout] never throws: whatever the user answers,
    whatever [setPlayerOffline] does and whatever comes back from the
    logout endpoint, the handler completes. *)
Theorem logout_never_throws w :
  ∃ w', Navbar.handleNavLogout env w = (Normal tt, w').
Proof.
  destruct (confirm_answer env logout_prompt) eqn:Hanswer.
  - rewrite (logout_confirmed env _ Hanswer). unfold try_catch.
    destruct (bind _ _ (asked w)) as [[[]|e] w1]; by eexists.
  - unfold logout_prompt in Hanswer.
    unfold Navbar.handleNavLogout, confirm, bind, emit, modify, ret.
    rewrite Hanswer. by eexists.
Qed.

Lemma logout_sent w w1 :
  Navbar.call_setPlayerOffline env (asked w) = (Normal tt, w1) →
  confirm_answer env logout_prompt = true →
  Navbar.handleNavLogout env w
  = try_catch
      (response <- lift (network env (Navbar.logout_request env)) ;;
       data <- lift (json response) ;;
       success <- lift (get_prop data "success") ;;
       if truthy success then
         modify (with_localStorage ∅) ;;
         modify (with_navigation "auth.html")
       else
         error <- lift (get_prop data "error") ;;
         error <- to_string error ;;
         alert ("Erreur de déconnexion: " +:+ error))
      (λ error,
         console_error "❌ Erreur:" error ;;
         alert "Erreur de connexion au serveur")
      (with_event (EvFetch (Navbar.logout_request env)) w1).
Proof.
  intros Hhook Hyes. rewrite (logout_confirmed env _ Hyes).
  unfold try_catch. by rewrite (bind_normal _ _ _ _ _ Hhook).
Qed.

(** X5: a logout that fails leaves the session alone.  When the user
    confirms and [setPlayerOffline] (if there is one) completes, a
    response without a truthy [success] shows the server's [error], as
    text, in an alert; a request that came to nothing (a rejected [fetch],
    a body that is not JSON) is logged to the console and shows the alert
    of a connection failure.  Either way the request was sent, the local
    storage is not cleared, the browser is sent nowhere and the document
    is as it was. *)
Theorem failed_logout_keeps_the_session w w1 :
  confirm_answer env logout_prompt = true →
  Navbar.call_setPlayerOffline env (asked w) = (Normal tt, w1) →
  let outcome := network env (Navbar.logout_request env) in
  (∀ resp data flag err text,
     outcome = Normal resp → json resp = Normal data →
     get_prop data "success" = Normal flag → truthy flag = false →
     get_prop data "error" = Normal err → ToString err = Some text →
     ∃ w', Navbar.handleNavLogout env w = (Normal tt, w')
           ∧ events w'
             = (events w1 ++ [EvFetch (Navbar.logout_request env);
                              EvAlert ("Erreur de déconnexion: " +:+ text)])%list
           ∧ localStorage w' = localStorage w1
           ∧ navigation w' = navigation w1
           ∧ document w' = document w1)
  ∧ (∀ e,
       transport_failure outcome e →
       ∃ w', Navbar.handleNavLogout env w = (Normal tt, w')
             ∧ events w'
               = (events w1 ++ [EvFetch (Navbar.logout_request env);
                                EvConsoleError "❌ Erreur:" e;
                                EvAlert "Erreur de connexion au serveur"])%list
             ∧ localStorage w' = localStorage w1
             ∧ navigation w' = navigation w1
             ∧ document w' = document w1).
Proof.
  intros Hyes Hhook outcome. rewrite (logout_sent _ _ Hhook Hyes). fold outcome.
  split.
  - intros resp data flag err text -> Hjson Hflag Hfalsy Herr Htext.
    eexists. split.
    + apply try_catch_normal. erewrite bind_normal by reflexivity.
      step_lift Hjson. step_lift Hflag. rewrite Hfalsy.
      step_lift Herr. step_to_string Htext. reflexivity.
    + simpl. by rewrite <- app_assoc.
  - intros e Hfail. eexists. split.
    + erewrite try_catch_throw; [reflexivity|].
      destruct Hfail as [->|(resp & -> & Hjson)]; [done|].
      erewrite bind_normal by reflexivity.
      apply bind_throw. unfold lift. by rewrite Hjson.
    + simpl. by rewrite <- !app_assoc.
Qed.

(** X6: on a page without [setPlayerOffline], the local storage is
    cleared exactly when the browser is sent to the authentication page,
    and that is exactly when the user confirmed and the logout endpoint
    answered with a truthy [success].  In every other case both are as
    they were.  The handler never touches the document or the session
    user. *)
Theorem logout_clears_only_when_accepted w :
  setPlayerOffline env = None →
  ∃ w',
    Navbar.handleNavLogout env w = (Normal tt, w')
    ∧ document w' = document w
    ∧ navUser w' = navUser w
    ∧ if confirm_answer env logout_prompt && logout_accepted env
      then localStorage w' = ∅ ∧ navigation w' = Some "auth.html"
      else localStorage w' = localStorage w ∧ navigation w' = navigation w.
Proof.
  intros Hnone.
  destruct (confirm_answer env logout_prompt) eqn:Hanswer; simpl.
  2:{ unfold logout_prompt in Hanswer.
      unfold Navbar.handleNavLogout, confirm, bind, emit, modify, ret.
      rewrite Hanswer. by eexists. }
  assert (Navbar.call_setPlayerOffline env (asked w) = (Normal tt, asked w)) as Hhook
    by (unfold Navbar.call_setPlayerOffline; by rewrite Hnone).
  rewrite (logout_sent _ _ Hhook Hanswer). unfold logout_accepted, try_catch.
  destruct (network env (Navbar.logout_request env)) as [resp|e]; [|by eexists].
  erewrite bind_normal by reflexivity.
  destruct (json resp) as [data|e]; [|by eexists].
  erewrite bind_normal by reflexivity.
  destruct (get_prop data "success") as [flag|e]; [|by eexists].
  erewrite bind_normal by reflexivity.
  destruct (truthy flag); [by eexists|].
  destruct (get_prop data "error") as [err|e]; [|by eexists].
  erewrite bind_normal by reflexivity. unfold to_string.
  destruct (ToString err); by eexists.
Qed.

End Logout.

(** ** The navigation bar, the other ways *)

Section Bar2.
Context (env : Env).

Lemma always_after_me (R : relation World) `{!PreOrder R, !DocFree R} outcome :
  (∀ user, always R (modify (with_navUser user))) →
  always R (after_me outcome).
Proof.
  intros Huser. unfold after_me.
  repeat first
    [ apply Huser | apply always_showAuthenticatedNavbar; apply _
    | apply always_showUnauthenticatedNavbar; apply _ | always_step ].
Qed.

Lemma kept_navUser user : always kept (modify (with_navUser user)).
Proof. by intros w. Qed.

Lemma initNavbar_completes w :
  ∃ w', Navbar.initNavbar env w = (Normal tt, w').
Proof.
  rewrite initNavbar_fetches. unfold try_catch.
  destruct (after_me _ _) as [[[]|e] w1]; [by eexists|].
  rewrite session_catch_run. by eexists.
Qed.

(** X7: the session check sends its one request and no other, asks and
    alerts nothing, and never touches the local storage or the location;
    beside the request the trace gains at most the one error it logs to
    the console before falling back to the unauthenticated bar. *)
Theorem session_check_sends_one_request w :
  ∃ w',
    Navbar.initNavbar env w = (Normal tt, w')
    ∧ localStorage w' = localStorage w
    ∧ navigation w' = navigation w
    ∧ (events w' = (events w ++ [EvFetch (Navbar.me_request env)])%list
       ∨ ∃ e, events w'
              = (events w ++ [EvFetch (Navbar.me_request env);
                              EvConsoleError "❌ Erreur init navbar:" e])%list).
Proof.
  rewrite initNavbar_fetches. unfold try_catch.
  set (w0 := with_event _ w).
  pose proof (always_after_me kept (network env (Navbar.me_request env))
                kept_navUser w0) as (Hstore & Hnav & Hev).
  destruct (after_me _ w0) as [[[]|e] w1]; simpl in *.
  - exists w1. split_and!; [done..|]. left. by rewrite Hev.
  - rewrite session_catch_run. eexists. split_and!; [done..|].
    right. exists e. simpl. by rewrite Hev, <- app_assoc.
Qed.

Lemma no_bar_unauthenticated w : no_bar w → unauthenticated w = w.
Proof.
  intros Hbar. unfold unauthenticated.
  rewrite (upd_id_absent "navUserInfo") by (apply Hbar; compute_done).
  rewrite (upd_id_absent "navLogoutBtn") by (apply Hbar; compute_done).
  by rewrite (upd_id_absent "navLoginBtn") by (apply Hbar; compute_done).
Qed.

Lemma no_bar_authenticated w user : no_bar w → authenticated user w = w.
Proof.
  intros Hbar. unfold authenticated, greeted.
  rewrite (upd_id_absent "navUserInfo") by (apply Hbar; compute_done).
  rewrite (upd_id_absent "navLogoutBtn") by (apply Hbar; compute_done).
  rewrite (upd_id_absent "navLoginBtn") by (apply Hbar; compute_done).
  rewrite (upd_id_absent "navUsername") by (apply Hbar; compute_done).
  by rewrite (upd_id_absent "navElo") by (apply Hbar; compute_done).
Qed.

Lemma no_bar_renders w user : no_bar w → renders w user.
Proof.
  intros Hbar. split; intros [n Hn]; by rewrite Hbar in Hn by compute_done.
Qed.

(** X8: the script is safe on a page without the navigation bar.  Every
    write of the two rendering functions is guarded by the presence of its
    element: on a page with none of the five controls both complete and
    change nothing, [showAuthenticatedNavbar] whatever it is given for a
    user ([null] and [undefined] included, which it would otherwise fail
    to read), and the session check completes with the document as it
    was. *)
Theorem bar_is_optional w :
  no_bar w →
  (∀ user, Navbar.showAuthenticatedNavbar user w = (Normal tt, w))
  ∧ Navbar.showUnauthenticatedNavbar w = (Normal tt, w)
  ∧ ∃ w', Navbar.initNavbar env w = (Normal tt, w') ∧ document w' = document w.
Proof.
  intros Hbar. split_and!.
  - intros user. rewrite showAuthenticatedNavbar_run by (by apply no_bar_renders).
    by rewrite no_bar_authenticated.
  - rewrite showUnauthenticatedNavbar_run. by rewrite no_bar_unauthenticated.
  - rewrite initNavbar_fetches. unfold try_catch.
    set (w0 := with_event _ w).
    assert (∀ w1, document w1 = document w → no_bar w1) as Hbar'.
    { intros w1 Hw1 i Hi. rewrite Hw1. by apply Hbar. }
    assert (∃ c w1, after_me (network env (Navbar.me_request env)) w0 = (c, w1)
                    ∧ document w1 = document w) as (c & w1 & -> & Hw1).
    { unfold after_me.
      destruct (network env (Navbar.me_request env)) as [resp|e]; [|by eexists _, _].
      erewrite bind_normal by reflexivity.
      destruct (json resp) as [data|e]; [|by eexists _, _].
      erewrite bind_normal by reflexivity.
      destruct (get_prop data "success") as [flag|e]; [|by eexists _, _].
      erewrite bind_normal by reflexivity.
      destruct (truthy flag).
      - destruct (get_prop data "user") as [user|e]; [|by eexists _, _].
        erewrite bind_normal by reflexivity.
        erewrite bind_normal by reflexivity.
        rewrite showAuthenticatedNavbar_run by (apply no_bar_renders; by apply Hbar').
        rewrite no_bar_authenticated by (by apply Hbar'). by eexists _, _.
      - rewrite showUnauthenticatedNavbar_run.
        rewrite no_bar_unauthenticated by (by apply Hbar'). by eexists _, _. }
    destruct c as [[]|e]; [by eexists|].
    rewrite session_catch_run, no_bar_unauthenticated by (by apply Hbar').
    by eexists.
Qed.

End Bar2.

(** ** The current page *)

Lemma string_app_cons a (s t : string) : String a s +:+ t = String a (s +:+ t).
Proof. done. Qed.

Lemma string_app_empty_r (s : string) : s +:+ "" = s.
Proof.
  induction s as [|a s IH]; [done|]. by rewrite string_app_cons, IH.
Qed.

Lemma string_app_assoc (s1 s2 s3 : string) : (s1 +:+ s2) +:+ s3 = s1 +:+ (s2 +:+ s3).
Proof.
  induction s1 as [|a s1 IH]; [done|]. by rewrite !string_app_cons, IH.
Qed.

Lemma has_slash_app s1 s2 : has_slash (s1 +:+ s2) = has_slash s1 || has_slash s2.
Proof.
  induction s1 as [|a s1 IH]; [done|]. rewrite string_app_cons. simpl.
  by rewrite IH, orb_assoc.
Qed.

(** No segment of a split path has a slash in it. *)
Lemma split_slash_segments path cur :
  has_slash cur = false →
  Forall (λ s, has_slash s = false) (Navbar.split_slash path cur).
Proof.
  revert cur. induction path as [|a path IH]; intros cur Hcur; simpl.
  - by apply Forall_singleton.
  - case_bool_decide as Ha.
    + apply Forall_cons. split; [done|]. by apply IH.
    + apply IH. rewrite has_slash_app, Hcur. simpl.
      by rewrite bool_decide_eq_false_2.
Qed.

Lemma split_slash_last path cur : is_Some (last (Navbar.split_slash path cur)).
Proof.
  revert cur. induction path as [|a path IH]; intros cur; simpl; [by eexists|].
  case_bool_decide; [|apply IH].
  rewrite last_cons. destruct (IH "") as [s ->]. by eexists.
Qed.

(** A path without a slash is its own and only segment. *)
Lemma split_slash_file file cur :
  has_slash file = false → Navbar.split_slash file cur = [cur +:+ file].
Proof.
  revert cur. induction file as [|a file IH]; intros cur; simpl.
  - by rewrite string_app_empty_r.
  - intros [Ha Hfile]%orb_false_elim. rewrite Ha, IH by done.
    by rewrite string_app_assoc.
Qed.

(** The last segment is what follows the last slash. *)
Lemma split_slash_dir dir file cur :
  last (Navbar.split_slash (dir +:+ "/" +:+ file) cur)
  = last (Navbar.split_slash file "").
Proof.
  revert cur. induction dir as [|a dir IH]; intros cur.
  - change ("" +:+ "/" +:+ file) with (String "/" file). simpl.
    rewrite last_cons. by destruct (split_slash_last file "") as [s ->].
  - rewrite string_app_cons. simpl. case_bool_decide; [|apply IH].
    rewrite last_cons, IH. by destruct (split_slash_last file "") as [s ->].
Qed.

Section Page.
Context (env : Env).

Lemma currentPage_segment :
  has_slash (Navbar.currentPage env) = false ∧ Navbar.currentPage env ≠ "".
Proof.
  unfold Navbar.currentPage.
  destruct (split_slash_last (pathname env) "") as [page Hpage]. rewrite Hpage.
  simpl. case_bool_decide as Hempty; [done|]. split; [|done].
  apply last_Some in Hpage as [l Hl].
  pose proof (split_slash_segments (pathname env) "" eq_refl) as Hall.
  rewrite Hl in Hall. apply Forall_app in Hall as [_ Hall].
  by apply Forall_cons in Hall as [? _].
Qed.

(** The second and third alternatives of the test never hold. *)
Lemma is_current_page h :
  is_current env h = bool_decide (h = Some (Navbar.currentPage env)).
Proof.
  destruct currentPage_segment as [Hslash Hempty]. unfold is_current.
  rewrite (bool_decide_eq_false_2 (Navbar.currentPage env = "")) by done.
  rewrite (bool_decide_eq_false_2 (Navbar.currentPage env = "/"))
    by (intros Heq; by rewrite Heq in Hslash).
  simpl. by rewrite !orb_false_r.
Qed.

(** X9: on whatever path the page was loaded, the current page is a name
    without a slash and never empty, so of the three alternatives in the
    test of [setActiveNavLink] only the first can hold; the function
    completes with each navigation link marked active exactly when its
    [href] is the current page (a link without [href] never is), and
    every other element as it was. *)
Theorem active_link_is_the_current_page w :
  has_slash (Navbar.currentPage env) = false
  ∧ Navbar.currentPage env ≠ ""
  ∧ ∃ w',
      Navbar.setActiveNavLink env w = (Normal tt, w')
      ∧ ∀ n e, document w !! n = Some e →
          ∃ e', document w' !! n = Some e'
            ∧ if bool_decide ("navbar-link" ∈ classList e)
              then "active" ∈ classList e' ↔ href e = Some (Navbar.currentPage env)
              else e' = e.
Proof.
  destruct currentPage_segment as [Hslash Hempty]. split; [done|]. split; [done|].
  exists (with_document (fmap (mark_link env)) w).
  split; [apply setActiveNavLink_run|].
  intros n e He. exists (mark_link env e). simpl.
  split; [by rewrite list_lookup_fmap, He|].
  unfold mark_link. case_bool_decide as Hlink; [|done].
  unfold mark. rewrite is_current_page.
  unfold DOM.with_classList. cbn [classList href].
  case_bool_decide as Hhref.
  - rewrite elem_of_add_token. split; [done | by left].
  - rewrite elem_of_remove_token. split; [by intros [? _] | done].
Qed.

(** X10: the current page is the file name of the path: what follows its
    last slash, whatever the directories before it, and [index.html] when
    nothing follows (a path that ends with a slash). *)
Theorem currentPage_is_the_file_name dir file :
  pathname env = dir +:+ "/" +:+ file →
  has_slash file = false →
  Navbar.currentPage env = if bool_decide (file = "") then "index.html" else file.
Proof.
  intros Hpath Hfile. unfold Navbar.currentPage.
  by rewrite Hpath, split_slash_dir, split_slash_file.
Qed.

End Page.

(** ** The page-load listener

    [initNavbar] writes displays and texts, [setActiveNavLink] writes
    classes: neither sees what the other wrote. *)

Lemma find_id_fmap_stable g `{!IdStable g} i (d : list Element) :
  DOM.find_id i (g <$> d) = DOM.find_id i d.
Proof.
  apply find_id_fmap. rewrite <- list_fmap_compose. apply list_fmap_ext.
  intros _ e _. apply id_stable.
Qed.

Section Respects.
Context (g : Element → Element) `{!IdStable g}.
Context {A B : Type}.

Lemma respects_ret (a : A) : respects g (ret a).
Proof using Type*. by intros w. Qed.

Lemma respects_throw e : respects g (@throw A e).
Proof using Type*. by intros w. Qed.

Lemma respects_lift (c : completion A) : respects g (lift c).
Proof using Type*. by intros w. Qed.

Lemma respects_bind (m : M A) (k : A → M B) :
  respects g m → (∀ a, respects g (k a)) → respects g (x <- m ;; k x).
Proof using Type*.
  intros Hm Hk w. unfold bind. rewrite Hm.
  destruct (m w) as [[a|e] w']; simpl; [apply Hk|done].
Qed.

Lemma respects_try_catch (body : M A) handler :
  respects g body → (∀ e, respects g (handler e)) →
  respects g (try_catch body handler).
Proof using Type*.
  intros Hm Hk w. unfold try_catch. rewrite Hm.
  destruct (body w) as [[a|e] w']; simpl; [done|apply Hk].
Qed.

Lemma respects_if (b : bool) (m1 m2 : M A) :
  respects g m1 → respects g m2 → respects g (if b then m1 else m2).
Proof using Type*. by destruct b. Qed.

End Respects.

Section Respects_writes.
Context (g : Element → Element) `{!IdStable g}.

Lemma respects_emit ev : respects g (emit ev).
Proof using Type*. by intros w. Qed.

Lemma respects_navUser user : respects g (modify (with_navUser user)).
Proof using Type*. by intros w. Qed.

Lemma respects_to_string v : respects g (to_string v).
Proof using Type*. intros w. unfold to_string. by destruct (ToString v). Qed.

Lemma respects_getElementById i (k : Node.ref → M unit) :
  (∀ node, respects g (k node)) →
  respects g (node <- Node.getElementById i ;; k node).
Proof using Type*.
  intros Hk w. unfold bind, Node.getElementById. simpl.
  rewrite find_id_fmap_stable by done. apply Hk.
Qed.

Lemma respects_write node err f `{!Apart f g} : respects g (Node.write node err f).
Proof using Type*.
  intros w. destruct node as [n|]; [|done].
  unfold Node.write, modify, with_document. simpl. do 2 f_equal.
  symmetry. apply list_fmap_alter, Forall_forall. intros e _. symmetry. apply apart.
Qed.

Lemma respects_set_textContent node v :
  (∀ s, Apart (DOM.with_textContent s) g) →
  respects g (Node.set_textContent node v).
Proof using Type*.
  intros Hg. destruct node as [n|]; [|by apply respects_throw].
  unfold Node.set_textContent.
  apply respects_bind; [done| |intros s; by apply respects_write].
  destruct v; first [by apply respects_ret | by apply respects_to_string].
Qed.

Lemma respects_when_found node body :
  respects g body → respects g (Navbar.when_found node body).
Proof using Type*. intros Hbody. destruct node; [done|]. by apply respects_ret. Qed.

End Respects_writes.

Section Load.
Context (env : Env).

#[local] Instance mark_link_stable : IdStable (mark_link env).
Proof. intros e. unfold mark_link. by case_bool_decide. Qed.

#[local] Instance display_apart_mark s : Apart (DOM.with_display s) (mark_link env).
Proof. intros e. unfold mark_link. simpl. by case_bool_decide. Qed.

#[local] Instance textContent_apart_mark s :
  Apart (DOM.with_textContent s) (mark_link env).
Proof. intros e. unfold mark_link. simpl. by case_bool_decide. Qed.

Ltac respects_step :=
  lazymatch goal with
  | |- IdStable _ => apply _
  | |- Apart _ _ => apply _
  | |- ∀ _, _ => intros ?
  | |- respects _ _ =>
      first
        [ apply respects_ret | apply respects_throw | apply respects_lift
        | apply respects_emit | apply respects_navUser | apply respects_to_string
        | apply respects_getElementById | apply respects_set_textContent
        | apply respects_write | apply respects_when_found
        | apply respects_bind | apply respects_try_catch | apply respects_if ]
  end.

Lemma respects_showUnauthenticatedNavbar :
  respects (mark_link env) Navbar.showUnauthenticatedNavbar.
Proof.
  unfold Navbar.showUnauthenticatedNavbar, Node.set_display. repeat respects_step.
Qed.

Lemma respects_showAuthenticatedNavbar user :
  respects (mark_link env) (Navbar.showAuthenticatedNavbar user).
Proof.
  unfold Navbar.showAuthenticatedNavbar, Node.set_display. repeat respects_step.
Qed.

Lemma respects_initNavbar_resumed :
  respects (mark_link env) (initNavbar_resumed env).
Proof.
  unfold initNavbar_resumed, after_me, session_catch, console_error.
  repeat first
    [ apply respects_showUnauthenticatedNavbar
    | apply respects_showAuthenticatedNavbar
    | respects_step ].
Qed.

(** X11: the order in which the two routines of the page-load listener
    take effect does not matter.  The listener starts the session check,
    marks the active link while the request is in flight, and the check
    finishes later; the page it ends on is the one reached by running the
    check to its end and marking the link then, and also the one reached
    by marking the link first. *)
Theorem page_load_order_is_immaterial w :
  ∃ w',
    Navbar.initNavbar env w = (Normal tt, w')
    ∧ onDOMContentLoaded env w
      = (Normal tt, with_document (fmap (mark_link env)) w')
    ∧ (Navbar.initNavbar env ;; Navbar.setActiveNavLink env) w
      = (Normal tt, with_document (fmap (mark_link env)) w')
    ∧ (Navbar.setActiveNavLink env ;; Navbar.initNavbar env) w
      = (Normal tt, with_document (fmap (mark_link env)) w').
Proof.
  destruct (initNavbar_completes env w) as [w' Hrun]. exists w'.
  assert (initNavbar_resumed env (with_event (EvFetch (Navbar.me_request env)) w)
          = (Normal tt, w')) as Hresumed by (by rewrite <- Hrun).
  split; [done|]. split_and!.
  - unfold onDOMContentLoaded, initNavbar_called.
    erewrite bind_normal by reflexivity.
    rewrite (bind_normal _ _ _ _ _ (setActiveNavLink_run env _)).
    by rewrite respects_initNavbar_resumed, Hresumed.
  - rewrite (bind_normal _ _ _ _ _ Hrun). apply setActiveNavLink_run.
  - rewrite (bind_normal _ _ _ _ _ (setActiveNavLink_run env _)).
    rewrite initNavbar_fetches.
    change (try_catch ?b ?h ?x) with (initNavbar_resumed env x).
    change (with_event ?ev (with_document (fmap (mark_link env)) w))
      with (with_document (fmap (mark_link env)) (with_event ev w)).
    by rewrite respects_initNavbar_resumed, Hresumed.
Qed.

End Load.

(** ** The status line *)

(** X12: a status replaces the one before it.  [showStatus] leaves the
    status line with the message as its text and the tokens of
    [status <type>] as its classes, [hidden] never among them: whatever
    was shown before, its text, its style and its being hidden leave no
    trace, so that calling [showStatus] after another call gives the same
    page as calling it alone. *)
Theorem status_is_replaced w message type :
  present w "status" →
  ∃ w',
    Script.showStatus message type w = (Normal tt, w')
    ∧ (∃ e, element w' "status" = Some e
            ∧ textContent e = message
            ∧ classList e
              = DOM.remove_token "hidden" (DOM.tokens ("status " +:+ type))
            ∧ "hidden" ∉ classList e)
    ∧ ∀ m0 t0,
        (Script.showStatus m0 t0 ;; Script.showStatus message type) w
        = (Normal tt, w').
Proof.
  intros Hs. exists (upd_id "status" (status_el message type) w).
  split; [by apply showStatus_run|]. split.
  - apply present_element in Hs as [e He]. exists (status_el message type e).
    rewrite element_upd_id_eq, He by apply _.
    split_and!; [done..|]. apply remove_token_not_elem.
  - intros m0 t0. rewrite (bind_normal _ _ _ _ _ (showStatus_run _ _ _ Hs)).
    rewrite showStatus_run by (by rewrite present_upd_id by apply _).
    rewrite upd_id_compose by apply _. done.
Qed.

(** ** The analysis links *)

Lemma hex_digit_unreserved a :
  URI.unreserved (URI.hex_digit (code a / 16)) = true
  ∧ URI.unreserved (URI.hex_digit (code a mod 16)) = true.
Proof. by destruct a as [[] [] [] [] [] [] [] []]. Qed.

Lemma url_safe_cons a r :
  url_safe (String a r)
  = (URI.unreserved a || bool_decide (a = "%"%char)) && url_safe r.
Proof. done. Qed.

Lemma encodeURIComponent_cons a s :
  encodeURIComponent (String a s)
  = (if URI.unreserved a then String a "" else URI.escape a) +:+ encodeURIComponent s.
Proof. done. Qed.

Lemma encodeURIComponent_safe s : url_safe (encodeURIComponent s) = true.
Proof.
  induction s as [|a s IH]; [done|]. rewrite encodeURIComponent_cons.
  destruct (URI.unreserved a) eqn:Ha.
  - rewrite string_app_cons. change ("" +:+ ?r) with r.
    by rewrite url_safe_cons, Ha, IH.
  - unfold URI.escape. rewrite !string_app_cons. change ("" +:+ ?r) with r.
    rewrite !url_safe_cons.
    destruct (hex_digit_unreserved a) as [-> ->]. by rewrite IH.
Qed.

(** An escape decodes to the byte it stands for. *)
Lemma escape_decodes a r :
  percent_decode (URI.escape a +:+ r) = String a <$> percent_decode r.
Proof.
  unfold URI.escape. rewrite !string_app_cons.
  change ("" +:+ r) with r.
  by destruct a as [[] [] [] [] [] [] [] []].
Qed.

Lemma percent_decode_encode s : percent_decode (encodeURIComponent s) = Some s.
Proof.
  induction s as [|a s IH]; [done|]. rewrite encodeURIComponent_cons.
  destruct (URI.unreserved a) eqn:Ha.
  - rewrite string_app_cons. change ("" +:+ ?r) with r. simpl.
    rewrite bool_decide_eq_false_2 by (by intros ->). by rewrite IH.
  - by rewrite escape_decodes, IH.
Qed.

Section Links.
Context (env : Env).

(** X13: whatever the FEN of a report, both analysis links are their
    prefix followed by one and the same text, made of unreserved
    characters and percent escapes only (no space, no slash, nothing a
    URL would cut short), from which percent-decoding gives back the FEN
    as it was. *)
Theorem analysis_links_carry_the_fen w data r :
  results_ready w → present w "results" → carries data r →
  ∃ w' encoded,
    Script.displayResults env data w = (Normal tt, w')
    ∧ link w' "lichessLink" = Some ("https://lichess.org/analysis/" +:+ encoded)
    ∧ link w' "chesscomLink"
      = Some ("https://www.chess.com/analysis?fen=" +:+ encoded)
    ∧ url_safe encoded = true
    ∧ percent_decode encoded = Some (fen r).
Proof.
  intros Hready Hres Hdata.
  exists (displayed env r w), (encodeURIComponent (fen r)).
  split; [by apply displayResults_run|].
  destruct Hready as (_ & _ & _ & _ & _ & _ & _ & _ & _ & Hl & Hc).
  apply present_element in Hl as [el Hel]. apply present_element in Hc as [ec Hec].
  unfold link, displayed. split_and!.
  - read_element. by rewrite Hel.
  - read_element. by rewrite Hec.
  - apply encodeURIComponent_safe.
  - apply percent_decode_encode.
Qed.

(** X14: both scripts address the same backend, though each computes its
    own base address.  On [localhost] and on [127.0.0.1] it is the local
    server, on every other host the deployed one; the generation request,
    the session check and the logout go to [/api/generate],
    [/api/auth/me] and [/api/auth/logout] of that one origin. *)
Theorem requests_share_the_backend a b c :
  let origin := Navbar.API_URL env in
  Script.API_URL env = origin +:+ "/api"
  ∧ url (Script.generate_request env a b c) = origin +:+ "/api/generate"
  ∧ url (Navbar.me_request env) = origin +:+ "/api/auth/me"
  ∧ url (Navbar.logout_request env) = origin +:+ "/api/auth/logout"
  ∧ origin
    = (if bool_decide (hostname env ∈ ["localhost"; "127.0.0.1"])
       then "http://localhost:5000"
       else "http://chessishard-env-env.eba-f8bxehfn.eu-west-1.elasticbeanstalk.com").
Proof.
  simpl. unfold Script.API_URL, Navbar.API_URL.
  assert (bool_decide (hostname env ∈ ["localhost"; "127.0.0.1"])
          = bool_decide (hostname env = "localhost")
            || bool_decide (hostname env = "127.0.0.1")) as ->.
  { apply eq_true_iff_eq. rewrite orb_true_iff, !bool_decide_eq_true.
    rewrite !elem_of_cons, elem_of_nil. tauto. }
  by destruct (_ || _).
Qed.

End Links.

(** ** Copying the FEN *)

Lemma with_textContent_back s e :
  DOM.with_textContent (textContent e) (DOM.with_textContent s e) = e.
Proof. by destruct e. Qed.

(** Writing back the text an element had puts the document back. *)
Lemma alter_textContent_back s n e (d : list Element) :
  d !! n = Some e →
  alter (DOM.with_textContent (textContent e)) n (alter (DOM.with_textContent s) n d) = d.
Proof.
  intros He. rewrite list_alter_alter_eq.
  rewrite <- (list_alter_id (λ x, x) d n) at 2 by done.
  apply list_alter_ext; [|done]. intros e' He'. assert (e' = e) as -> by congruence.
  apply with_textContent_back.
Qed.

Section Copying.
Context (host : Copy.Host).

Lemma read_fenText d fenText :
  text (Copy.page d) "fenText" = Some fenText →
  Copy.on_page (el <- Node.getElementById "fenText" ;;
                Node.read el (Node.null_read "textContent") textContent) d
  = (Normal fenText, d).
Proof.
  unfold text, element, Copy.on_page, bind, Node.getElementById, Node.read.
  destruct (DOM.find_id "fenText" _ ≫= _) as [e|]; [|done].
  intros [= <-]. by destruct d.
Qed.

(** A copy the browser allows, from a click whose event is still there. *)
Lemma copyFEN_run d allowed fenText target e :
  text (Copy.page d) "fenText" = Some fenText →
  Copy.writeText host = Some allowed → allowed fenText = Normal tt →
  Copy.event host = Some (Some target) →
  document (Copy.page d) !! target = Some e →
  Copy.copyFEN host d
  = (Normal tt,
     Copy.mkDesk
       (with_document (alter (DOM.with_textContent "✅ Copié !") target) (Copy.page d))
       fenText
       (Copy.timers d ++ [Copy.mkTimer 2000 (Some target) (textContent e)])).
Proof.
  intros Hfen Hclip Hwrite Hevent He. unfold Copy.copyFEN, Copy.and_then at 1.
  rewrite (read_fenText _ _ Hfen).
  unfold Copy.and_then at 1, Copy.navigator_clipboard. rewrite Hclip.
  unfold Copy.detached, Copy.catch, Copy.and_then at 1, Copy.clipboard_writeText.
  rewrite Hwrite. unfold Copy.copied, Copy.and_then, Copy.event_target.
  rewrite Hevent. unfold Copy.on_page, Node.read. simpl. by rewrite He.
Qed.

Lemma fire_run d t rest n :
  Copy.timers d = t :: rest → Copy.btn t = Some n →
  Copy.fire d
  = (Normal tt,
     Copy.mkDesk
       (with_document (alter (DOM.with_textContent (Copy.originalText t)) n)
          (Copy.page d))
       (Copy.clipboard d) rest).
Proof. intros Ht Hn. unfold Copy.fire. rewrite Ht. unfold Copy.detached. simpl. by rewrite Hn. Qed.

(** X15: a copy the browser allows puts the FEN shown on the page in the
    clipboard, shows the confirmation on the button that was clicked and
    sets a timer of two seconds; when the timer fires the button has its
    label back, and the page is exactly what it was before the copy. *)
Theorem copied_label_is_restored d allowed fenText target original :
  text (Copy.page d) "fenText" = Some fenText →
  Copy.writeText host = Some allowed → allowed fenText = Normal tt →
  Copy.event host = Some (Some target) →
  textContent <$> document (Copy.page d) !! target = Some original →
  Copy.timers d = [] →
  ∃ d1,
    Copy.copyFEN host d = (Normal tt, d1)
    ∧ Copy.clipboard d1 = fenText
    ∧ textContent <$> document (Copy.page d1) !! target = Some "✅ Copié !"
    ∧ events (Copy.page d1) = events (Copy.page d)
    ∧ Copy.timers d1 = [Copy.mkTimer 2000 (Some target) original]
    ∧ Copy.fire d1 = (Normal tt, Copy.mkDesk (Copy.page d) fenText []).
Proof.
  intros Hfen Hclip Hwrite Hevent Horiginal Htimers.
  destruct (document (Copy.page d) !! target) as [e|] eqn:He; [|done].
  injection Horiginal as <-.
  eexists. split; [by eapply copyFEN_run|]. rewrite Htimers. simpl.
  split_and!; try done.
  - by rewrite list_lookup_alter_eq, He.
  - erewrite fire_run by reflexivity. simpl. do 2 f_equal.
    unfold with_document. simpl. rewrite (alter_textContent_back _ _ _ _ He).
    by destruct (Copy.page d).
Qed.

(** X16: a copy the browser refuses is reported and changes nothing: the
    user is alerted with the text of the rejection, the clipboard keeps
    what it held, no timer is set and no element is touched. *)
Theorem refused_copy_is_reported d allowed fenText err message :
  text (Copy.page d) "fenText" = Some fenText →
  Copy.writeText host = Some allowed → allowed fenText = Throw err →
  ToString err = Some message →
  Copy.copyFEN host d
  = (Normal tt,
     Copy.mkDesk
       (with_event (EvAlert ("Erreur lors de la copie: " +:+ message)) (Copy.page d))
       (Copy.clipboard d) (Copy.timers d)).
Proof.
  intros Hfen Hclip Hwrite Hmessage. unfold Copy.copyFEN, Copy.and_then at 1.
  rewrite (read_fenText _ _ Hfen).
  unfold Copy.and_then at 1, Copy.navigator_clipboard. rewrite Hclip.
  unfold Copy.detached, Copy.catch, Copy.and_then, Copy.clipboard_writeText.
  rewrite Hwrite. unfold Copy.copy_failed, Copy.on_page.
  by rewrite (bind_normal _ _ _ _ _ (to_string_run _ _ _ Hmessage)).
Qed.

(** X17: when the global [event] is gone by the time the clipboard has
    answered, the callback fails on its first statement: the FEN is in the
    clipboard, and yet the user is alerted of a failed copy, with the text
    of the TypeError; the button keeps its label and no timer is set. *)
Theorem copy_without_event_is_reported_failed d allowed fenText :
  text (Copy.page d) "fenText" = Some fenText →
  Copy.writeText host = Some allowed → allowed fenText = Normal tt →
  Copy.event host = None →
  Copy.copyFEN host d
  = (Normal tt,
     Copy.mkDesk
       (with_event
          (EvAlert ("Erreur lors de la copie: TypeError: "
                    +:+ "Cannot read properties of undefined (reading 'target')"))
          (Copy.page d))
       fenText (Copy.timers d)).
Proof.
  intros Hfen Hclip Hwrite Hevent. unfold Copy.copyFEN, Copy.and_then at 1.
  rewrite (read_fenText _ _ Hfen).
  unfold Copy.and_then at 1, Copy.navigator_clipboard. rewrite Hclip.
  unfold Copy.detached, Copy.catch, Copy.and_then at 1, Copy.clipboard_writeText.
  rewrite Hwrite. unfold Copy.copied, Copy.and_then, Copy.event_target.
  by rewrite Hevent.
Qed.

(** X18: [copyFEN] throws in two cases only, and then before anything
    happened: on a page without the FEN element, and in a browser that
    gives the page no clipboard.  Otherwise, whatever the browser does
    with the write and whatever the callbacks meet, it completes, and no
    id of the page moves. *)
Theorem copy_throws_only_at_once d :
  (present (Copy.page d) "fenText" → is_Some (Copy.writeText host) →
   ∃ d', Copy.copyFEN host d = (Normal tt, d')
         ∧ ids (Copy.page d') = ids (Copy.page d))
  ∧ (¬ present (Copy.page d) "fenText" →
     Copy.copyFEN host d = (Throw (Node.null_read "textContent"), d))
  ∧ (present (Copy.page d) "fenText" → Copy.writeText host = None →
     Copy.copyFEN host d
     = (Throw (TypeError "Cannot read properties of undefined (reading 'writeText')"),
        d)).
Proof.
  split_and!.
  - intros [e He]%present_element [allowed Hclip].
    unfold Copy.copyFEN, Copy.and_then at 1.
    rewrite (read_fenText _ (textContent e)) by (unfold text; by rewrite He).
    unfold Copy.and_then at 1, Copy.navigator_clipboard. rewrite Hclip.
    unfold Copy.detached. eexists. split; [done|].
    unfold Copy.catch, Copy.and_then at 1, Copy.clipboard_writeText.
    destruct (allowed (textContent e)) as [[]|err].
    + unfold Copy.copied, Copy.and_then at 1, Copy.event_target.
      destruct (Copy.event host) as [target|].
      * unfold Copy.and_then at 1, Copy.on_page at 1, Node.read. simpl.
        destruct (target ≫= _) as [e'|] eqn:He'; simpl.
        -- destruct target as [n|]; [|done]. simpl.
           unfold ids. simpl. by apply fmap_id_alter, _.
        -- unfold Copy.copy_failed, Copy.on_page, bind, to_string. simpl. done.
      * done.
    + unfold Copy.copy_failed, Copy.on_page, bind, to_string.
      by destruct (ToString err).
  - intros Habsent. unfold Copy.copyFEN, Copy.and_then, Copy.on_page, bind,
      Node.getElementById, Node.read.
    destruct (DOM.find_id "fenText" (document (Copy.page d))) as [n|] eqn:Hn.
    + destruct Habsent. by eexists.
    + simpl. by destruct d.
  - intros [e He]%present_element Hclip.
    unfold Copy.copyFEN, Copy.and_then at 1.
    rewrite (read_fenText _ (textContent e)) by (unfold text; by rewrite He).
    unfold Copy.and_then, Copy.navigator_clipboard. by rewrite Hclip.
Qed.

End Copying.

Section Copying2.
Context (host : Copy.Host).

Lemma text_alter_textContent w i n s :
  is_Some (text w i) →
  is_Some (text (with_document (alter (DOM.with_textContent s) n) w) i).
Proof.
  unfold text, element. simpl. rewrite find_id_alter by apply _.
  destruct (DOM.find_id i (document w)) as [m|]; simpl; [|by intros [? [=]]].
  intros [t Ht]. destruct (document w !! m) as [e|] eqn:He; [|done].
  destruct (decide (n = m)) as [->|Hne].
  - rewrite list_lookup_alter_eq, He. by eexists.
  - rewrite list_lookup_alter_ne, He by done. by eexists.
Qed.

(** X19: a second copy made before the timer of the first has fired takes
    the confirmation for the label of the button: once both timers have
    fired, the first has put the label back and the second has put the
    confirmation over it again, where it stays. *)
Theorem second_copy_keeps_the_confirmation d allowed fenText target e :
  text (Copy.page d) "fenText" = Some fenText →
  Copy.writeText host = Some allowed → (∀ t, allowed t = Normal tt) →
  Copy.event host = Some (Some target) →
  document (Copy.page d) !! target = Some e →
  Copy.timers d = [] →
  ∃ d1 d2 d3 d',
    Copy.copyFEN host d = (Normal tt, d1)
    ∧ Copy.copyFEN host d1 = (Normal tt, d2)
    ∧ Copy.fire d2 = (Normal tt, d3)
    ∧ Copy.fire d3 = (Normal tt, d')
    ∧ textContent <$> document (Copy.page d') !! target = Some "✅ Copié !"
    ∧ Copy.timers d' = [].
Proof.
  intros Hfen Hclip Hwrite Hevent He Htimers.
  destruct (text_alter_textContent (Copy.page d) "fenText" target "✅ Copié !")
    as [fenText' Hfen']; [by eexists|].
  eexists _, _, _, _.
  split; [by apply (copyFEN_run host d allowed fenText target e)|].
  split.
  { apply (copyFEN_run host _ allowed fenText' target
             (DOM.with_textContent "✅ Copié !" e));
      [done..|]. simpl. by rewrite list_lookup_alter_eq, He. }
  rewrite Htimers. simpl.
  split; [by erewrite fire_run by reflexivity|].
  split; [by erewrite fire_run by reflexivity|].
  simpl. split; [|done]. by rewrite !list_lookup_alter_eq, He.
Qed.

Lemma clipboard_copy_failed err d :
  Copy.clipboard (Copy.copy_failed err d).2 = Copy.clipboard d.
Proof.
  unfold Copy.copy_failed, Copy.on_page.
  by destruct (bind _ _ _).
Qed.

Lemma clipboard_copied d :
  Copy.clipboard (Copy.copied host d).2 = Copy.clipboard d.
Proof.
  unfold Copy.copied, Copy.and_then at 1, Copy.event_target.
  destruct (Copy.event host) as [target|]; [|done].
  unfold Copy.and_then at 1, Copy.on_page at 1.
  destruct (Node.read _ _ _ _) as [[original|err] w]; [|done].
  unfold Copy.and_then, Copy.on_page.
  by destruct (Node.set_textContent _ _ _) as [[[]|err] w'].
Qed.

(** What the clipboard holds after a copy the browser allows. *)
Lemma copyFEN_clipboard d allowed fenText :
  text (Copy.page d) "fenText" = Some fenText →
  Copy.writeText host = Some allowed → allowed fenText = Normal tt →
  Copy.clipboard (Copy.copyFEN host d).2 = fenText.
Proof.
  intros Hfen Hclip Hwrite. unfold Copy.copyFEN, Copy.and_then at 1.
  rewrite (read_fenText _ _ Hfen).
  unfold Copy.and_then at 1, Copy.navigator_clipboard. rewrite Hclip.
  unfold Copy.detached, Copy.catch, Copy.and_then, Copy.clipboard_writeText.
  rewrite Hwrite. simpl.
  pose proof (clipboard_copied (Copy.mkDesk (Copy.page d) fenText (Copy.timers d)))
    as Hcopied.
  destruct (Copy.copied host _) as [[[]|err] d']; simpl in *; [done|].
  by rewrite clipboard_copy_failed.
Qed.

End Copying2.

Section Generated.
Context (env : Env).

Lemma click_succeeded w tmin tmax tries resp result flag data r :
  inputs w tmin tmax tries →
  panel_ready w →
  results_ready w →
  js_ge (parseInt tmin) (parseInt tmax) = false →
  network env (Script.generate_request env (parseInt tmin) (parseInt tmax)
                 (parseInt tries)) = Normal resp →
  json resp = Normal result →
  get_prop result "success" = Normal flag → truthy flag = true →
  get_prop result "data" = Normal data → carries data r →
  Script.onGenerateClick env w
  = (Normal tt,
     idle (upd_id "status" (status_el success_message "success")
             (displayed env r
                (with_event
                   (EvFetch (Script.generate_request env (parseInt tmin)
                               (parseInt tmax) (parseInt tries)))
                   (loading w))))).
Proof.
  intros Hin Hready Hres Hge Hout Hjson Hflag Htruthy Hdata Hr.
  destruct (click_settles env _ _ _ _ Hin Hready Hge) as (c & w1 & Htry & Hrun & _).
  rewrite Hout in Htry.
  erewrite try_catch_normal in Htry.
  2:{ destruct Hready as (_ & _ & _ & Hpanel & Hs).
      destruct Hres as (? & ? & ? & ? & ? & ? & ? & ? & ? & ? & ?).
      eapply after_fetch_succeeded; try done;
        [repeat split|..]; by apply (present_loading w). }
  by injection Htry as <- <-.
Qed.

(** X20: generating, then copying: after a click that ended on a
    well-formed report, a copy the browser allows leaves the FEN of that
    report in the clipboard, whatever becomes of the button's label. *)
Theorem generated_fen_is_copied
    host allowed w tmin tmax tries resp result flag data r :
  inputs w tmin tmax tries →
  panel_ready w →
  results_ready w →
  js_ge (parseInt tmin) (parseInt tmax) = false →
  network env (Script.generate_request env (parseInt tmin) (parseInt tmax)
                 (parseInt tries)) = Normal resp →
  json resp = Normal result →
  get_prop result "success" = Normal flag → truthy flag = true →
  get_prop result "data" = Normal data → carries data r →
  Copy.writeText host = Some allowed → allowed (fen r) = Normal tt →
  ∃ w',
    Script.onGenerateClick env w = (Normal tt, w')
    ∧ ∀ held timers,
        Copy.clipboard (Copy.copyFEN host (Copy.mkDesk w' held timers)).2 = fen r.
Proof.
  intros Hin Hready Hres Hge Hout Hjson Hflag Htruthy Hdata Hr Hclip Hwrite.
  eexists. split; [by eapply click_succeeded|].
  intros held timers. apply (copyFEN_clipboard _ _ allowed); [|done..]. simpl.
  destruct Hres as (Hfen & _). apply present_element in Hfen as [e He].
  unfold text, idle, displayed, loading. read_element. by rewrite He.
Qed.

End Generated.

(** ** More of the scripts, on the sample page *)

Lemma click_sends_one_request_witness :
  ∃ c w',
    Script.onGenerateClick (Sample.env Sample.unreachable false None)
      (Sample.page "0" "100" "1000") = (c, w')
    ∧ events w'
      = [EvFetch (Script.generate_request (Sample.env Sample.unreachable false None)
                    (Int 0) (Int 100) (Int 1000))]
    ∧ localStorage w' = {[ "token" := "abc" ]}
    ∧ navigation w' = None
    ∧ ids w' = ids (Sample.page "0" "100" "1000").
Proof.
  destruct (click_sends_one_request
              (Sample.env Sample.unreachable false None)
              (Sample.page "0" "100" "1000") "0" "100" "1000")
    as (c & w' & Hrun & Hev & Hstore & Hnav & _ & Hids & _).
  - by repeat split.
  - repeat split; vm_compute; by eexists.
  - reflexivity.
  - by exists c, w'.
Defined.

Lemma results_shown_only_on_success_witness :
  (∃ w',
     Script.onGenerateClick (Sample.env (Sample.answers Trial.truncated) false None)
       (Sample.page "0" "100" "1000") = (Normal tt, w')
     ∧ hidden w' "results"
     ∧ text w' "fenText" = Some "8/8/8/8/8/8/8/K6k w - - 0 1")
  ∧ (∃ w',
       Script.onGenerateClick (Sample.env (Sample.answers Trial.counted) false None)
         (Sample.page "0" "100" "1000") = (Normal tt, w')
       ∧ revealed w' "results"
       ∧ status_shows w' success_message "success"
       ∧ text w' "fenText" = Some ""
       ∧ text w' "timeSeconds" = Some "undefineds").
Proof.
  split.
  - destruct (results_shown_only_on_success
                (Sample.env (Sample.answers Trial.truncated) false None)
                (Sample.page "0" "100" "1000") "0" "100" "1000")
      as (c & w' & Hrun & _ & Hthrown & _).
    + by repeat split.
    + repeat split; vm_compute; by eexists.
    + reflexivity.
    + edestruct Hthrown as [Hhidden _];
        [reflexivity | vm_compute; reflexivity |].
      exists w'. vm_compute in Hrun. injection Hrun as <- <-. by split.
  - destruct (results_shown_only_on_success
                (Sample.env (Sample.answers Trial.counted) false None)
                (Sample.page "0" "100" "1000") "0" "100" "1000")
      as (c & w' & Hrun & Hcompleted & _).
    + by repeat split.
    + repeat split; vm_compute; by eexists.
    + reflexivity.
    + edestruct Hcompleted as (-> & Hshown & Hstatus & _);
        [reflexivity | vm_compute; reflexivity |].
      exists w'. split; [done|]. split; [done|]. split; [done|].
      vm_compute in Hrun. by injection Hrun as <-.
Defined.

Lemma success_without_data_is_a_connection_failure_witness :
  ∃ w',
    Script.onGenerateClick (Sample.env (Sample.answers Sample.success_only) false None)
      (Sample.page "0" "100" "1000") = (Normal tt, w')
    ∧ status_shows w'
        (connection_error_message
           "Cannot read properties of undefined (reading 'fen')") "error"
    ∧ hidden w' "results".
Proof.
  apply (success_without_data_is_a_connection_failure
           (Sample.env (Sample.answers Sample.success_only) false None)
           (Sample.page "0" "100" "1000") "0" "100" "1000"
           (mkResponse (Normal Sample.success_only)) Sample.success_only
           (JBool true) JUndefined
           (TypeError "Cannot read properties of undefined (reading 'fen')")
           (JStr "Cannot read properties of undefined (reading 'fen')"));
    try reflexivity.
  - by repeat split.
  - repeat split; vm_compute; by eexists.
Defined.

Lemma failed_logout_keeps_the_session_witness :
  (∃ w',
     Navbar.handleNavLogout (Sample.env (Sample.answers Trial.denied) true None)
       (Sample.page "" "" "") = (Normal tt, w')
     ∧ events w'
       = [EvConfirm logout_prompt;
          EvFetch (Navbar.logout_request
                     (Sample.env (Sample.answers Trial.denied) true None));
          EvAlert "Erreur de déconnexion: Non connecté"]
     ∧ localStorage w' = {[ "token" := "abc" ]}
     ∧ navigation w' = None)
  ∧ (∃ w',
       Navbar.handleNavLogout (Sample.env Sample.unreachable true None)
         (Sample.page "" "" "") = (Normal tt, w')
       ∧ events w'
         = [EvConfirm logout_prompt;
            EvFetch (Navbar.logout_request (Sample.env Sample.unreachable true None));
            EvConsoleError "❌ Erreur:" (JError "TypeError" "Failed to fetch");
            EvAlert "Erreur de connexion au serveur"]
       ∧ localStorage w' = {[ "token" := "abc" ]}
       ∧ navigation w' = None).
Proof.
  split.
  - destruct (failed_logout_keeps_the_session
                (Sample.env (Sample.answers Trial.denied) true None)
                (Sample.page "" "" "") (asked (Sample.page "" "" "")))
      as [Hreported _]; [reflexivity..|].
    destruct (Hreported (mkResponse (Normal Trial.denied)) Trial.denied
                (JBool false) (JStr "Non connecté") "Non connecté")
      as (w' & Hrun & Hev & Hstore & Hnav & _); [reflexivity..|].
    by exists w'.
  - destruct (failed_logout_keeps_the_session
                (Sample.env Sample.unreachable true None)
                (Sample.page "" "" "") (asked (Sample.page "" "" "")))
      as [_ Hfailed]; [reflexivity..|].
    destruct (Hfailed (JError "TypeError" "Failed to fetch"))
      as (w' & Hrun & Hev & Hstore & Hnav & _); [by left|].
    by exists w'.
Defined.

Lemma logout_clears_only_when_accepted_witness :
  (∃ w',
     Navbar.handleNavLogout (Sample.env (Sample.answers Sample.logged_out) true None)
       (Sample.page "" "" "") = (Normal tt, w')
     ∧ localStorage w' = ∅ ∧ navigation w' = Some "auth.html")
  ∧ (∃ w',
       Navbar.handleNavLogout (Sample.env (Sample.answers Trial.denied) true None)
         (Sample.page "" "" "") = (Normal tt, w')
       ∧ localStorage w' = {[ "token" := "abc" ]} ∧ navigation w' = None).
Proof.
  split.
  - destruct (logout_clears_only_when_accepted
                (Sample.env (Sample.answers Sample.logged_out) true None)
                (Sample.page "" "" "")) as (w' & Hrun & _ & _ & Hstore & Hnav);
      [reflexivity|]. by exists w'.
  - destruct (logout_clears_only_when_accepted
                (Sample.env (Sample.answers Trial.denied) true None)
                (Sample.page "" "" "")) as (w' & Hrun & _ & _ & Hstore & Hnav);
      [reflexivity|]. by exists w'.
Defined.

Lemma bar_is_optional_witness :
  Navbar.showAuthenticatedNavbar JNull Trial.bare = (Normal tt, Trial.bare)
  ∧ Navbar.showUnauthenticatedNavbar Trial.bare = (Normal tt, Trial.bare)
  ∧ ∃ w',
      Navbar.initNavbar (Sample.env (Sample.answers Sample.logged_in) false None)
        Trial.bare = (Normal tt, w')
      ∧ document w' = document Trial.bare.
Proof.
  destruct (bar_is_optional
              (Sample.env (Sample.answers Sample.logged_in) false None) Trial.bare)
    as (Hauth & Hunauth & Hinit).
  - intros i Hi. by repeat (apply elem_of_cons in Hi as [->|Hi]; [done|]);
      apply elem_of_nil in Hi.
  - split; [apply Hauth|]. by split.
Defined.

Lemma currentPage_is_the_file_name_witness :
  Navbar.currentPage (Trial.on_path "/play/game.html") = "game.html"
  ∧ Navbar.currentPage (Trial.on_path "/play/") = "index.html".
Proof.
  split.
  - by apply (currentPage_is_the_file_name
                (Trial.on_path "/play/game.html") "/play" "game.html").
  - by apply (currentPage_is_the_file_name (Trial.on_path "/play/") "/play" "").
Defined.

Lemma status_is_replaced_witness :
  ∃ w',
    Script.showStatus "Prêt" "info" (Sample.page "" "" "") = (Normal tt, w')
    ∧ (Script.showStatus "Échec" "error" ;; Script.showStatus "Prêt" "info")
        (Sample.page "" "" "") = (Normal tt, w')
    ∧ ∃ e, element w' "status" = Some e
           ∧ textContent e = "Prêt" ∧ classList e = ["status"; "info"].
Proof.
  destruct (status_is_replaced (Sample.page "" "" "") "Prêt" "info")
    as (w' & Hrun & (e & He & Htext & Hclass & _) & Hlast).
  - vm_compute. by eexists.
  - exists w'. split; [done|]. split; [apply Hlast|]. by exists e.
Defined.

Lemma analysis_links_carry_the_fen_witness :
  ∃ w',
    Script.displayResults (Sample.env Sample.unreachable false None)
      Sample.report_json (Sample.page "" "" "") = (Normal tt, w')
    ∧ link w' "chesscomLink"
      = Some ("https://www.chess.com/analysis?fen="
              +:+ "8%2F8%2F4k3%2F8%2F8%2F3K4%2F4P3%2F8%20w%20-%20-%200%201")
    ∧ percent_decode "8%2F8%2F4k3%2F8%2F8%2F3K4%2F4P3%2F8%20w%20-%20-%200%201"
      = Some "8/8/4k3/8/8/3K4/4P3/8 w - - 0 1".
Proof.
  destruct (analysis_links_carry_the_fen
              (Sample.env Sample.unreachable false None)
              (Sample.page "" "" "") Sample.report_json Sample.report)
    as (w' & encoded & Hrun & Hlichess & Hchesscom & _ & Hdecode).
  - repeat split; vm_compute; by eexists.
  - vm_compute. by eexists.
  - by repeat split.
  - exists w'. split; [done|].
    assert (encoded = "8%2F8%2F4k3%2F8%2F8%2F3K4%2F4P3%2F8%20w%20-%20-%200%201") as <-.
    { vm_compute in Hrun. injection Hrun as <-. vm_compute in Hlichess.
      by injection Hlichess as <-. }
    by split.
Defined.

Lemma copied_label_is_restored_witness :
  ∃ d1,
    Copy.copyFEN Trial.allowing Trial.desk = (Normal tt, d1)
    ∧ Copy.clipboard d1 = "8/8/4k3/8/8/3K4/4P3/8 w - - 0 1"
    ∧ textContent <$> document (Copy.page d1) !! 27%nat = Some "✅ Copié !"
    ∧ Copy.fire d1
      = (Normal tt, Copy.mkDesk Trial.shown "8/8/4k3/8/8/3K4/4P3/8 w - - 0 1" []).
Proof.
  destruct (copied_label_is_restored Trial.allowing Trial.desk (λ _, Normal tt)
              "8/8/4k3/8/8/3K4/4P3/8 w - - 0 1" 27 "Copier")
    as (d1 & Hrun & Hclip & Hlabel & _ & _ & Hfire); [reflexivity..|].
  by exists d1.
Defined.

Lemma refused_copy_is_reported_witness :
  Copy.copyFEN Trial.refusing Trial.desk
  = (Normal tt,
     Copy.mkDesk
       (with_event
          (EvAlert "Erreur lors de la copie: NotAllowedError: Write permission denied.")
          Trial.shown)
       "" []).
Proof.
  by apply (refused_copy_is_reported Trial.refusing Trial.desk
              (λ _, Throw (JError "NotAllowedError" "Write permission denied."))
              "8/8/4k3/8/8/3K4/4P3/8 w - - 0 1"
              (JError "NotAllowedError" "Write permission denied.")).
Defined.

Lemma copy_without_event_is_reported_failed_witness :
  ∃ d',
    Copy.copyFEN Trial.eventless Trial.desk = (Normal tt, d')
    ∧ Copy.clipboard d' = "8/8/4k3/8/8/3K4/4P3/8 w - - 0 1"
    ∧ Copy.timers d' = []
    ∧ document (Copy.page d') = document Trial.shown.
Proof.
  eexists. split.
  - by apply (copy_without_event_is_reported_failed Trial.eventless Trial.desk
                (λ _, Normal tt) "8/8/4k3/8/8/3K4/4P3/8 w - - 0 1").
  - done.
Defined.

Lemma second_copy_keeps_the_confirmation_witness :
  ∃ d1 d2 d3 d',
    Copy.copyFEN Trial.allowing Trial.desk = (Normal tt, d1)
    ∧ Copy.copyFEN Trial.allowing d1 = (Normal tt, d2)
    ∧ Copy.fire d2 = (Normal tt, d3)
    ∧ Copy.fire d3 = (Normal tt, d')
    ∧ textContent <$> document (Copy.page d') !! 27%nat = Some "✅ Copié !"
    ∧ textContent <$> document (Copy.page Trial.desk) !! 27%nat = Some "Copier".
Proof.
  destruct (second_copy_keeps_the_confirmation Trial.allowing Trial.desk
              (λ _, Normal tt) "8/8/4k3/8/8/3K4/4P3/8 w - - 0 1" 27 Trial.copy_button)
    as (d1 & d2 & d3 & d' & H1 & H2 & H3 & H4 & Hlabel & _); [reflexivity..|].
  by exists d1, d2, d3, d'.
Defined.

Lemma generated_fen_is_copied_witness :
  ∃ w',
    Script.onGenerateClick (Sample.env (Sample.answers Sample.generated) false None)
      (Sample.page "0" "100" "1000") = (Normal tt, w')
    ∧ Copy.clipboard (Copy.copyFEN Trial.eventless (Copy.mkDesk w' "" [])).2
      = "8/8/4k3/8/8/3K4/4P3/8 w - - 0 1".
Proof.
  destruct (generated_fen_is_copied
              (Sample.env (Sample.answers Sample.generated) false None)
              Trial.eventless (λ _, Normal tt)
              (Sample.page "0" "100" "1000") "0" "100" "1000"
              (mkResponse (Normal Sample.generated)) Sample.generated
              (JBool true) Sample.report_json Sample.report)
    as (w' & Hrun & Hcopy).
  - by repeat split.
  - repeat split; vm_compute; by eexists.
  - repeat split; vm_compute; by eexists.
  - reflexivity.
  - reflexivity.
  - reflexivity.
  - reflexivity.
  - reflexivity.
  - reflexivity.
  - by repeat split.
  - reflexivity.
  - reflexivity.
  - exists w'. split; [done|]. apply Hcopy.
Defined.
